(** * Gate validation and gate workflow of the claude-bus framework

    A shallow embedding of [gate_config.py], [gate_validators.py],
    [validate_gate.py], of the orchestrator [gate_workflow.py] and of the
    alert store of [alert_manager.py], with the properties the
    specification states about them.

    Text is modelled as [string], a sequence of 8-bit characters: the UTF-8
    bytes of a Python [str].  The character classes [\s], [\d], [\w],
    [str.strip] and slices agree with Python's on ASCII text only; a property
    that depends on them is stated for texts that satisfy [Str.is_ascii]. *)

From Stdlib Require Import String Ascii List Bool Arith NArith Lia.
From Stdlib Require Import Numbers.DecimalString Numbers.DecimalN.
Import ListNotations.
Open Scope string_scope.
Open Scope nat_scope.

(* ====================================================================== *)
(** * Python string primitives *)
(* ====================================================================== *)

Module Str.

Definition nl : string := String (ascii_of_nat 10) "".

Fixpoint take (n : nat) (s : string) : string :=
  match n, s with
  | S n', String a s' => String a (take n' s')
  | _, _ => ""
  end.

Fixpoint drop (n : nat) (s : string) : string :=
  match n, s with
  | S n', String _ s' => drop n' s'
  | _, _ => s
  end.

(** [strip_prefix l s] is [Some s'] when [s = l ++ s']. *)
Fixpoint strip_prefix (l s : string) : option string :=
  match l, s with
  | EmptyString, _ => Some s
  | String a l', String b s' =>
      if Ascii.eqb a b then strip_prefix l' s' else None
  | String _ _, EmptyString => None
  end.

(** [sub in s] of Python. *)
Fixpoint contains (sub s : string) : bool :=
  match strip_prefix sub s with
  | Some _ => true
  | None =>
      match s with
      | String _ s' => contains sub s'
      | EmptyString => false
      end
  end.

(** [s.count(sub)] of Python for a non-empty [sub]: occurrences that do not
    overlap, found from the left. *)
Fixpoint count_from (sub : string) (skip : nat) (s : string) : nat :=
  match skip with
  | S k =>
      match s with
      | String _ s' => count_from sub k s'
      | EmptyString => 0
      end
  | 0 =>
      match strip_prefix sub s with
      | Some _ =>
          S match s with
            | String _ s' => count_from sub (pred (String.length sub)) s'
            | EmptyString => 0
            end
      | None =>
          match s with
          | String _ s' => count_from sub 0 s'
          | EmptyString => 0
          end
      end
  end.

Definition count (sub s : string) : nat := count_from sub 0 s.

Definition code (a : ascii) : nat := nat_of_ascii a.

Definition in_range (lo hi : nat) (a : ascii) : bool :=
  (lo <=? code a) && (code a <=? hi).

(** Whitespace of [\s] and of [str.strip] on ASCII text: tab, newline,
    vertical tab, form feed, carriage return, the four separators 28..31 and
    the space. *)
Definition is_space (a : ascii) : bool :=
  in_range 9 13 a || in_range 28 32 a.

Definition is_digit (a : ascii) : bool := in_range 48 57 a.

Definition is_upper (a : ascii) : bool := in_range 65 90 a.

Definition is_lower (a : ascii) : bool := in_range 97 122 a.

(** [\w] on ASCII text. *)
Definition is_word (a : ascii) : bool :=
  is_upper a || is_lower a || is_digit a || (code a =? 95).

Definition lower (a : ascii) : ascii :=
  if is_upper a then ascii_of_nat (code a + 32) else a.

Fixpoint lstrip (s : string) : string :=
  match s with
  | String a s' => if is_space a then lstrip s' else s
  | EmptyString => ""
  end.

(** [rstrip] keeps a character when it is not a space or when something
    that is kept follows it. *)
Fixpoint rstrip (s : string) : string :=
  match s with
  | String a s' =>
      match rstrip s' with
      | EmptyString => if is_space a then "" else String a ""
      | t => String a t
      end
  | EmptyString => ""
  end.

Definition strip (s : string) : string := rstrip (lstrip s).

Fixpoint all_chars (p : ascii -> bool) (s : string) : bool :=
  match s with
  | String a s' => p a && all_chars p s'
  | EmptyString => true
  end.

(** The text is ASCII: every character is below 128, so that a byte is a
    character and Python's Unicode-aware classes are the ASCII ones. *)
Definition is_ascii (s : string) : bool :=
  all_chars (fun a => code a <? 128) s.

(** [str(n)] for a non-negative integer. *)
Definition of_N (n : N) : string :=
  NilEmpty.string_of_uint (N.to_uint n).

Definition of_nat (n : nat) : string := of_N (N.of_nat n).

(** The value of a string of ASCII digits. *)
Fixpoint to_N_from (acc : N) (s : string) : N :=
  match s with
  | String a s' => to_N_from (10 * acc + N.of_nat (code a - 48))%N s'
  | EmptyString => acc
  end.

Definition to_N (s : string) : N := to_N_from 0%N s.

(** Distinct elements in first-occurrence order; its length is [len(set(l))]. *)
Fixpoint distinct (l : list string) : list string :=
  match l with
  | [] => []
  | x :: l' =>
      x :: filter (fun y => negb (String.eqb x y)) (distinct l')
  end.

End Str.

(* ====================================================================== *)
(** * Exceptions *)
(* ====================================================================== *)

Module Py.

Import Str.

(** An exception, by the name of its type and [str(e)]. *)
Record exn : Type := Exn {
  exn_type : string;
  exn_text : string
}.

(** How a call ends: it returns a value or raises an exception that the
    caller does not catch. *)
Inductive outcome (A : Type) : Type :=
| Done (a : A)
| Raises (e : exn).

Arguments Done {A} a.
Arguments Raises {A} e.

(** The default of [sys.int_max_str_digits]. *)
Definition INT_MAX_STR_DIGITS : nat := 4300.

(** [int(s)] for a string of ASCII digits: a string of more digits than the
    limit raises [ValueError]. *)
Definition int (s : string) : outcome N :=
  if INT_MAX_STR_DIGITS <? String.length s
  then Raises (Exn "ValueError"
                 ("Exceeds the limit (4300 digits) for integer string conversion: value has "
                  ++ of_nat (String.length s)
                  ++ " digits; use sys.set_int_max_str_digits() to increase the limit"))
  else Done (to_N s).

(** A function that raises nothing. *)
Definition total {A B : Type} (f : A -> B) : A -> outcome B :=
  fun a => Done (f a).

(** A sequence of statements on one object, each of which may raise: the
    object as the run leaves it, and the exception that stopped the run when
    one did.  A statement that raises leaves the object as it found it. *)
Fixpoint run {A : Type} (l : list (A -> outcome A)) (a : A) : A * option exn :=
  match l with
  | [] => (a, None)
  | f :: l' =>
      match f a with
      | Done a' => run l' a'
      | Raises e => (a, Some e)
      end
  end.

(** The object is returned when no statement raised. *)
Definition finish {A : Type} (p : A * option exn) : outcome A :=
  match p with
  | (a, None) => Done a
  | (_, Some e) => Raises e
  end.

(** The exit code of a process: the one [main] chooses, or 1 when an
    exception escapes [main]. *)
Definition process_exit_code {A : Type} (exit_code : A -> nat) (o : outcome A) : nat :=
  match o with
  | Done a => exit_code a
  | Raises _ => 1
  end.

End Py.

(* ====================================================================== *)
(** * The fragment of Python's [re] the validators use *)
(* ====================================================================== *)

Module Re.

Import Str.

(** Patterns.  A repetition is always over a single character class in the
    source, so [Rep] carries the class, its bounds and whether it is greedy
    ([*], [+], [{m,n}]) or lazy ([*?], [+?]). *)
Inductive regex : Type :=
| Lit (l : string)                       (* literal text *)
| LitI (l : string)                      (* literal text under IGNORECASE *)
| Rep (greedy : bool) (lo : nat) (hi : option nat) (p : ascii -> bool)
| Seq (r1 r2 : regex)
| Alt (r1 r2 : regex)                    (* r1|r2 *)
| Opt (r : regex)                        (* (?:r)? *)
| Grp (n : nat) (r : regex)              (* n-th capturing group *)
| Ahead (r : regex)                      (* (?=r) *)
| Eos.                                   (* $ without MULTILINE *)

(** Captured groups, most recent first. *)
Definition caps : Type := list (nat * string).

Fixpoint group (c : caps) (n : nat) : option string :=
  match c with
  | [] => None
  | (m, t) :: c' => if Nat.eqb m n then Some t else group c' n
  end.

Fixpoint strip_prefix_i (l s : string) : option string :=
  match l, s with
  | EmptyString, _ => Some s
  | String a l', String b s' =>
      if Ascii.eqb (lower a) (lower b) then strip_prefix_i l' s' else None
  | String _ _, EmptyString => None
  end.

Definition hi_open (hi : option nat) : bool :=
  match hi with
  | Some 0 => false
  | _ => true
  end.

Definition hi_pred (hi : option nat) : option nat := option_map pred hi.

(** [$] matches at the end and just before a newline that ends the text. *)
Definition at_end (s : string) : bool :=
  match s with
  | EmptyString => true
  | String a EmptyString => Ascii.eqb a (ascii_of_nat 10)
  | _ => false
  end.

Definition or_else {A : Type} (x y : option A) : option A :=
  match x with
  | Some _ => x
  | None => y
  end.

(** Greedy repetition: take one more character first, give it back when the
    rest of the pattern fails. *)
Fixpoint rep_greedy {A : Type} (p : ascii -> bool) (lo : nat) (hi : option nat)
    (s : string) (k : string -> option A) : option A :=
  let stop := match lo with 0 => k s | S _ => None end in
  match s with
  | String a s' =>
      if p a && hi_open hi
      then or_else (rep_greedy p (pred lo) (hi_pred hi) s' k) stop
      else stop
  | EmptyString => stop
  end.

(** Lazy repetition: try the rest of the pattern first, take one more
    character when it fails. *)
Fixpoint rep_lazy {A : Type} (p : ascii -> bool) (lo : nat) (hi : option nat)
    (s : string) (k : string -> option A) : option A :=
  match s with
  | String a s' =>
      let more :=
        if p a && hi_open hi
        then rep_lazy p (pred lo) (hi_pred hi) s' k
        else None in
      match lo with
      | 0 => or_else (k s) more
      | S _ => more
      end
  | EmptyString =>
      match lo with
      | 0 => k s
      | S _ => None
      end
  end.

(** The backtracking matcher, in continuation-passing style: [rmatch r s c k]
    matches [r] at the start of [s] and hands the rest of the text and the
    groups to [k]; alternatives are tried in Python's order. *)
Fixpoint rmatch (r : regex) {A : Type} (s : string) (c : caps)
    (k : string -> caps -> option A) : option A :=
  match r with
  | Lit l =>
      match strip_prefix l s with
      | Some s' => k s' c
      | None => None
      end
  | LitI l =>
      match strip_prefix_i l s with
      | Some s' => k s' c
      | None => None
      end
  | Rep true lo hi p => rep_greedy p lo hi s (fun s' => k s' c)
  | Rep false lo hi p => rep_lazy p lo hi s (fun s' => k s' c)
  | Seq r1 r2 => rmatch r1 s c (fun s' c' => rmatch r2 s' c' k)
  | Alt r1 r2 => or_else (rmatch r1 s c k) (rmatch r2 s c k)
  | Opt r1 => or_else (rmatch r1 s c k) (k s c)
  | Grp n r1 =>
      rmatch r1 s c
        (fun s' c' => k s' ((n, take (String.length s - String.length s') s) :: c'))
  | Ahead r1 =>
      match rmatch r1 s c (fun _ c' => Some c') with
      | Some c' => k s c'
      | None => None
      end
  | Eos => if at_end s then k s c else None
  end.

(** A match object: the text before the match, [group(0)], the text after
    it and the groups. *)
Record rematch : Type := mkMatch {
  m_before : string;
  m_text : string;
  m_after : string;
  m_caps : caps
}.

Definition m_group (m : rematch) (n : nat) : string :=
  match group (m_caps m) n with
  | Some t => t
  | None => ""
  end.

(** One attempt at the start of [s]. *)
Definition match_here (r : regex) (s : string) : option (string * caps) :=
  rmatch r s [] (fun s' c => Some (s', c)).

(** [re.search]: the leftmost position at which the pattern matches. *)
Fixpoint search_from (r : regex) (before s : string) : option rematch :=
  match match_here r s with
  | Some (s', c) =>
      Some (mkMatch before (take (String.length s - String.length s') s) s' c)
  | None =>
      match s with
      | String a s' => search_from r (before ++ String a "") s'
      | EmptyString => None
      end
  end.

Definition search (r : regex) (s : string) : option rematch :=
  search_from r "" s.

(** [re.findall]: the matches from left to right, none overlapping another;
    [skip] counts the characters of the last match still to be passed. *)
Fixpoint findall_from (r : regex) (skip : nat) (s : string)
    : list (string * caps) :=
  match skip with
  | S n =>
      match s with
      | String _ s' => findall_from r n s'
      | EmptyString => []
      end
  | 0 =>
      match match_here r s with
      | Some (s', c) =>
          let n := String.length s - String.length s' in
          (take n s, c) ::
            match s with
            | String _ t => findall_from r (pred n) t
            | EmptyString => []
            end
      | None =>
          match s with
          | String _ t => findall_from r 0 t
          | EmptyString => []
          end
      end
  end.

(** [re.findall] for a pattern without groups: the matched texts. *)
Definition findall0 (r : regex) (s : string) : list string :=
  map fst (findall_from r 0 s).

(** [re.findall] for a pattern with one group: the texts of group 1. *)
Definition findall1 (r : regex) (s : string) : list string :=
  map (fun m => match group (snd m) 1 with Some t => t | None => "" end)
      (findall_from r 0 s).

Definition is_match (r : regex) (s : string) : bool :=
  match search r s with
  | Some _ => true
  | None => false
  end.

(** Pattern shorthands. *)
Definition any (_ : ascii) : bool := true.
Definition is_char (c : string) (a : ascii) : bool :=
  match c with
  | String b _ => Ascii.eqb a b
  | EmptyString => false
  end.
Definition not_char (c : string) (a : ascii) : bool := negb (is_char c a).

Definition star (p : ascii -> bool) : regex := Rep true 0 None p.
Definition plus (p : ascii -> bool) : regex := Rep true 1 None p.
Definition exactly (n : nat) (p : ascii -> bool) : regex := Rep true n (Some n) p.
Definition lazy_star (p : ascii -> bool) : regex := Rep false 0 None p.
Definition lazy_plus (p : ascii -> bool) : regex := Rep false 1 None p.
Definition ws : regex := star is_space.          (* \s* *)
Definition digits : regex := plus is_digit.      (* \d+ *)

End Re.

Declare Scope re_scope.
Delimit Scope re_scope with re.
Infix "+>" := Re.Seq (at level 61, right associativity) : re_scope.
Infix "<|>" := Re.Alt (at level 62, right associativity) : re_scope.

(* ====================================================================== *)
(** * What a pattern matches, as a relation *)
(* ====================================================================== *)

Module ReSpec.
Import Str Re.

Definition within (hi : option nat) (n : nat) : Prop :=
  match hi with
  | Some h => n <= h
  | None => True
  end.

(** [denotes r s c s' c']: [r] matches a prefix of [s], leaves [s'] and
    turns the groups [c] into [c']. *)
Fixpoint denotes (r : regex) (s : string) (c : caps) (s' : string) (c' : caps) : Prop :=
  match r with
  | Lit l => s = l ++ s' /\ c' = c
  | LitI l => strip_prefix_i l s = Some s' /\ c' = c
  | Rep _ lo hi p =>
      exists w, s = w ++ s' /\ all_chars p w = true
                /\ lo <= String.length w /\ within hi (String.length w) /\ c' = c
  | Seq r1 r2 => exists sm cm, denotes r1 s c sm cm /\ denotes r2 sm cm s' c'
  | Alt r1 r2 => denotes r1 s c s' c' \/ denotes r2 s c s' c'
  | Opt r1 => denotes r1 s c s' c' \/ (s' = s /\ c' = c)
  | Grp n r1 =>
      exists c0, denotes r1 s c s' c0
                 /\ c' = (n, take (String.length s - String.length s') s) :: c0
  | Ahead r1 => s' = s /\ exists s2, denotes r1 s c s2 c'
  | Eos => s' = s /\ c' = c /\ at_end s = true
  end.
End ReSpec.

(* ====================================================================== *)
(** * Calendar dates, as [datetime] compares and subtracts them *)
(* ====================================================================== *)

Module Cal.

Local Open Scope N_scope.

Record date : Type := mkDate { year : N; month : N; day : N }.

Record datetime : Type := mkDatetime {
  dt_date : date;
  hour : N;
  minute : N;
  second : N;
  microsecond : N
}.

Definition is_leap (y : N) : bool :=
  ((y mod 4 =? 0) && negb (y mod 100 =? 0)) || (y mod 400 =? 0).

Definition days_in_month (y m : N) : N :=
  match m with
  | 1 | 3 | 5 | 7 | 8 | 10 | 12 => 31
  | 4 | 6 | 9 | 11 => 30
  | 2 => if is_leap y then 29 else 28
  | _ => 0
  end.

(** The dates [datetime] accepts: years 1..9999. *)
Definition valid_date (d : date) : bool :=
  (1 <=? year d) && (year d <=? 9999) &&
  (1 <=? month d) && (month d <=? 12) &&
  (1 <=? day d) && (day d <=? days_in_month (year d) (month d)).

Definition valid_time (h mi s : N) : bool :=
  (h <=? 23) && (mi <=? 59) && (s <=? 59).

(** Days of the year before the first of month [m]. *)
Definition days_before_month (y m : N) : N :=
  fold_left (fun acc k => acc + days_in_month y k)
            (map N.of_nat (seq 1 (N.to_nat m - 1))) 0.

Definition days_before_year (y : N) : N :=
  let p := y - 1 in p * 365 + p / 4 - p / 100 + p / 400.

(** [date.toordinal()]. *)
Definition ordinal (d : date) : N :=
  days_before_year (year d) + days_before_month (year d) (month d) + day d.

Definition date_lt (a b : date) : bool := ordinal a <? ordinal b.

Definition time_key (t : datetime) : N :=
  ((hour t * 60 + minute t) * 60 + second t) * 1000000 + microsecond t.

Definition datetime_lt (a b : datetime) : bool :=
  date_lt (dt_date a) (dt_date b) ||
  ((ordinal (dt_date a) =? ordinal (dt_date b)) && (time_key a <? time_key b)).

Definition midnight (d : date) : datetime := mkDatetime d 0 0 0 0.

(** [t.replace(year=y)]: [None] stands for the [ValueError] of a date that
    does not exist (29 February of a common year, a year past 9999). *)
Definition replace_year (t : datetime) (y : N) : option datetime :=
  let d := mkDate y (month (dt_date t)) (day (dt_date t)) in
  if valid_date d
  then Some (mkDatetime d (hour t) (minute t) (second t) (microsecond t))
  else None.

Definition field (from len : nat) (s : string) : N :=
  Str.to_N (Str.take len (Str.drop from s)).

(** [datetime.strptime(s, "%Y-%m-%d")] on a text of the shape
    [dddd-dd-dd]; [None] stands for its [ValueError]. *)
Definition strptime_ymd (s : string) : option datetime :=
  let d := mkDate (field 0 4 s) (field 5 2 s) (field 8 2 s) in
  if valid_date d then Some (midnight d) else None.

(** [datetime.fromisoformat(s)] on a text of the shape
    [dddd-dd-ddTdd:dd:dd]; [None] stands for its [ValueError]. *)
Definition fromisoformat (s : string) : option datetime :=
  let d := mkDate (field 0 4 s) (field 5 2 s) (field 8 2 s) in
  let h := field 11 2 s in
  let mi := field 14 2 s in
  let sec := field 17 2 s in
  if valid_date d && valid_time h mi sec
  then Some (mkDatetime d h mi sec 0)
  else None.

End Cal.

(* ====================================================================== *)
(** * gate_config.py *)
(* ====================================================================== *)

Module GateConfig.

Definition MIN_SUMMARY_LENGTH : nat := 50.
Definition MAX_FILE_SIZE : N := 1000000.

Definition REQUIRED_AGENTS : list string :=
  [ "Backend-Agent";
    "Frontend-Agent";
    "QA-Agent";
    "Document-RAG-Agent";
    "Super-AI-UltraThink-Agent";
    "frontend-debug-agent" ].

Definition REQUIRED_SECTIONS : list string :=
  [ "Section 1: Agent Invocation Evidence";
    "Section 2: Agent Responses";
    "Section 3: Consolidated Checklist";
    "Section 4: Unresolved Issues";
    "Section 5: Sign-offs";
    "Section 6: Gate Decision";
    "Section 7: Validation" ].

Definition VALID_AGENT_STATUSES : list string :=
  [ "OK"; "CONCERN"; "QUESTION"; "STANDBY" ].
Definition VALID_GATE_DECISIONS : list string :=
  [ "PASS"; "FAIL"; "CONDITIONAL" ].
Definition VALID_SIGNOFF_VALUES : list string :=
  [ "APPROVED"; "REJECTED"; "CONDITIONAL"; "N/A" ].

(** The dataclass [ValidationResult]. *)
Record ValidationResult : Type := mkResult {
  valid : bool;
  errors : list string;
  warnings : list string;
  info : list string
}.

(** [ValidationResult(valid=True)]. *)
Definition new_result : ValidationResult := mkResult true [] [] [].

(** [result.errors.append(msg)] and its two siblings. *)
Definition add_error (msg : string) (r : ValidationResult) : ValidationResult :=
  mkResult (valid r) (errors r ++ [msg])%list (warnings r) (info r).

Definition add_warning (msg : string) (r : ValidationResult) : ValidationResult :=
  mkResult (valid r) (errors r) (warnings r ++ [msg])%list (info r).

Definition add_info (msg : string) (r : ValidationResult) : ValidationResult :=
  mkResult (valid r) (errors r) (warnings r) (info r ++ [msg])%list.

Definition set_valid (b : bool) (r : ValidationResult) : ValidationResult :=
  mkResult b (errors r) (warnings r) (info r).

(** [x in l] for a list of strings. *)
Definition mem (x : string) (l : list string) : bool :=
  existsb (String.eqb x) l.

End GateConfig.

(* ====================================================================== *)
(** * What the validators see of the outside world *)
(* ====================================================================== *)

Module World.

(** How [path.read_text(encoding="utf-8")] ends. *)
Inductive read_outcome : Type :=
| ReadText (text : string)
| ReadUnicodeDecodeError (detail : string)
| ReadPermissionError (detail : string)
| ReadOtherError (type_name detail : string).

Record file : Type := mkFile {
  st_size : N;
  read_text : read_outcome;
  st_mtime : Cal.date          (* date of the local modification time *)
}.

(** How [subprocess.run(["git", "cat-file", "-t", hash])] ends: a return
    code, or an exception (git absent, timeout). *)
Inductive run_outcome : Type :=
| Returned (code : nat)
| Raised.

(** [stat_error w path] is [Some e] when [os.stat] on [path] fails with an
    [OSError] that [Path.exists] does not swallow (a name that is too long
    for the file system); [e] is [str] of the exception.  [set_order w l] is
    [list(set(l))] in this run: the distinct elements of [l], in the order
    their hashes give. *)
Record world : Type := mkWorld {
  fs : string -> option file;           (* [None]: the path does not exist *)
  now : Cal.datetime;                   (* [datetime.now()] *)
  git_cat_file : string -> run_outcome;
  stat_error : string -> option string;
  set_order : list string -> list string
}.

(** The path names a file. *)
Definition exists_ (w : world) (path : string) : bool :=
  match fs w path with
  | Some _ => true
  | None => false
  end.

(** [Path(path).exists()]: it raises what [os.stat] raises, but for a file
    that is not there. *)
Definition path_exists (w : world) (path : string) : Py.outcome bool :=
  match stat_error w path with
  | Some e => Py.Raises (Py.Exn "OSError" e)
  | None => Py.Done (exists_ w path)
  end.

End World.

(* ====================================================================== *)
(** * gate_validators.py *)
(* ====================================================================== *)

Module GateValidators.

Import Str Py Re Cal GateConfig World.
Local Open Scope re_scope.

(** ** File operations *)

(** The exceptions [read_file] lets escape, with [str(e)]. *)
Inductive read_error : Type :=
| FileNotFoundError (msg : string)
| ValueError (msg : string)
| PermissionError (msg : string)
| OtherError (type_name msg : string).

(** [read_file]: what [path.exists()] raises for a name the file system
    refuses leaves it, as the other failures do. *)
Definition read_file (w : world) (file_path : string) : read_error + string :=
  match stat_error w file_path with
  | Some e => inl (OtherError "OSError" e)
  | None =>
      match fs w file_path with
      | None => inl (FileNotFoundError ("Gate record not found: " ++ file_path))
      | Some f =>
          if (MAX_FILE_SIZE <? st_size f)%N
          then inl (ValueError ("File too large: " ++ of_N (st_size f)
                                ++ " bytes (max " ++ of_N MAX_FILE_SIZE ++ ")"))
          else
            match read_text f with
            | ReadUnicodeDecodeError e =>
                inl (ValueError ("File encoding error: " ++ file_path
                                 ++ " is not valid UTF-8. Error: " ++ e))
            | ReadPermissionError e => inl (PermissionError e)
            | ReadOtherError t e => inl (OtherError t e)
            | ReadText content =>
                match strip content with
                | EmptyString =>
                    inl (ValueError ("Gate record file is empty: " ++ file_path))
                | _ => inr content
                end
            end
      end
  end.

(** ** Section validators *)

Definition check_required_sections (content : string) (result : ValidationResult)
    : ValidationResult :=
  fold_left
    (fun result section =>
       if negb (contains section content)
       then add_error ("Missing required section: '" ++ section ++ "'. "
                       ++ "Copy from template: .claude-bus/templates/gate-validation-template.md")
                      result
       else add_info ("Found section: '" ++ section ++ "'") result)
    REQUIRED_SECTIONS result.

(** [\d{4}-\d{2}-\d{2}] *)
Definition ymd_re : regex :=
  exactly 4 is_digit +> Lit "-" +> exactly 2 is_digit +> Lit "-" +> exactly 2 is_digit.

(** [\d{4}-\d{2}-\d{2}T\d{2}:\d{2}:\d{2}] *)
Definition iso_re : regex :=
  ymd_re +> Lit "T" +> exactly 2 is_digit +> Lit ":" +> exactly 2 is_digit
         +> Lit ":" +> exactly 2 is_digit.

Definition stage_re : regex := Lit "**Stage**:" +> ws +> Grp 1 digits.
Definition phase_re : regex := Lit "**Phase**:" +> ws +> Grp 1 digits.
Definition gate_type_re : regex :=
  Lit "**Gate Type**:" +> ws +> Grp 1 (Lit "Input" <|> Lit "Output").
Definition date_re : regex := Lit "**Date**:" +> ws +> Grp 1 ymd_re.

(** [\*\*Status\*\*:\s*(PENDING|PASS(?:ED)?(?:\s*\([^)]+\))?|FAIL(?:ED)?)]
    under [re.IGNORECASE]. *)
Definition status_re : regex :=
  LitI "**Status**:" +> ws +>
  Grp 1 (LitI "PENDING"
         <|> (LitI "PASS" +> Opt (LitI "ED")
                +> Opt (ws +> Lit "(" +> plus (not_char ")") +> Lit ")"))
         <|> (LitI "FAIL" +> Opt (LitI "ED"))).

Definition check_metadata (w : world) (content : string) (result : ValidationResult)
    : ValidationResult :=
  let result :=
    if negb (is_match stage_re content)
    then add_error "Missing or invalid Stage number. Add: **Stage**: N" result
    else result in
  let result :=
    if negb (is_match phase_re content)
    then add_error "Missing or invalid Phase number. Add: **Phase**: N" result
    else result in
  let result :=
    if negb (is_match gate_type_re content)
    then add_error "Missing or invalid Gate Type. Add: **Gate Type**: Input or Output" result
    else result in
  let result :=
    match search date_re content with
    | None => add_error "Missing or invalid Date. Add: **Date**: YYYY-MM-DD" result
    | Some date_match =>
        let invalid :=
          add_error ("Invalid date format: " ++ m_group date_match 1) result in
        match strptime_ymd (m_group date_match 1) with
        | None => invalid
        | Some parsed_date =>
            match replace_year (now w) (year (dt_date (now w)) + 1)%N with
            | None => invalid
            | Some limit =>
                if datetime_lt limit parsed_date
                then add_warning ("Date " ++ m_group date_match 1
                                  ++ " is more than 1 year in future") result
                else result
            end
        end
    end in
  if negb (is_match status_re content)
  then add_error "Missing or invalid Status. Add: **Status**: PENDING, PASS, or FAIL" result
  else result.

(** [## Section N: title.*?(?=next|$)] under [re.DOTALL]. *)
Definition section_re (header next : string) : regex :=
  Lit header +> lazy_star any +> Ahead (Lit next <|> Eos).

Definition invocation_timestamp_re : regex :=
  Lit "**Invocation Timestamp**:" +> ws +> Grp 1 iso_re.

(** [\|\s*{re.escape(agent)}\s*\|\s*(YES|NO)\s*\|] *)
Definition invoked_row_re (agent : string) : regex :=
  Lit "|" +> ws +> Lit agent +> ws +> Lit "|" +> ws
          +> Grp 1 (Lit "YES" <|> Lit "NO") +> ws +> Lit "|".

Definition not_listed_msg (agent : string) : string :=
  "Agent '" ++ agent ++ "' not listed in invocation table".

Definition only_invoked_msg (agents_invoked : nat) : string :=
  "BLOCKING: Only " ++ of_nat agents_invoked ++ "/6 agents invoked. G-001 requires ALL 6.".

(** The loop over [REQUIRED_AGENTS]: the running count and the result. *)
Definition count_agent (section : string) (st : nat * ValidationResult) (agent : string)
    : nat * ValidationResult :=
  let (agents_invoked, result) := st in
  match search (invoked_row_re agent) section with
  | Some m =>
      if String.eqb (m_group m 1) "YES"
      then (agents_invoked + 1, result)
      else (agents_invoked, result)
  | None => (agents_invoked, add_error (not_listed_msg agent) result)
  end.

Definition check_agent_invocation (content : string) (result : ValidationResult)
    : ValidationResult :=
  match search (section_re "## Section 1: Agent Invocation Evidence" "## Section 2:")
               content with
  | None => add_error "Cannot parse Section 1: Agent Invocation Evidence" result
  | Some section_match =>
      let section := m_text section_match in
      let result :=
        match search invocation_timestamp_re section with
        | None =>
            add_error "Missing Invocation Timestamp. Add: **Invocation Timestamp**: ISO 8601"
                      result
        | Some timestamp_match =>
            match fromisoformat (m_group timestamp_match 1) with
            | Some _ => result
            | None =>
                add_error ("Invalid timestamp format: " ++ m_group timestamp_match 1) result
            end
        end in
      let (agents_invoked, result) :=
        fold_left (count_agent section) REQUIRED_AGENTS (0, result) in
      let result :=
        if agents_invoked <? 6
        then add_error (only_invoked_msg agents_invoked) result
        else result in
      let unchecked := count "[ ]" section in
      if 0 <? unchecked
      then add_error ("Unchecked verification items in Section 1 ("
                      ++ of_nat unchecked ++ " items)") result
      else result
  end.

(** [### {re.escape(agent)} Response.*?(?=###|## Section 3:|$)] under
    [re.DOTALL]. *)
Definition response_re (agent : string) : regex :=
  Lit ("### " ++ agent ++ " Response") +> lazy_star any
    +> Ahead (Lit "###" <|> Lit "## Section 3:" <|> Eos).

(** [\*\*Status\*\*:\s*(\w+)] *)
Definition agent_status_re : regex := Lit "**Status**:" +> ws +> Grp 1 (plus is_word).

(** [\*\*Summary\*\*.*?:\s*\n(.+?)(?=\*\*Checklist|\n\n|$)] under
    [re.DOTALL]. *)
Definition summary_re : regex :=
  Lit "**Summary**" +> lazy_star any +> Lit ":" +> ws +> Lit nl
    +> Grp 1 (lazy_plus any)
    +> Ahead (Lit "**Checklist" <|> Lit (nl ++ nl) <|> Eos).

(** The body of the loop over [REQUIRED_AGENTS] in [check_agent_responses]:
    the result and the agents with concerns. *)
Definition check_response (section : string) (st : ValidationResult * list string)
    (agent : string) : ValidationResult * list string :=
  let (result, agents_with_concerns) := st in
  match search (response_re agent) section with
  | None => (add_error ("Missing response section for '" ++ agent ++ "'") result,
             agents_with_concerns)
  | Some agent_match =>
      let agent_section := m_text agent_match in
      let (result, agents_with_concerns) :=
        match search agent_status_re agent_section with
        | None => (add_error ("Missing Status for '" ++ agent ++ "'") result,
                   agents_with_concerns)
        | Some status_match =>
            let status := m_group status_match 1 in
            if negb (mem status VALID_AGENT_STATUSES)
            then (add_error ("Invalid Status '" ++ status ++ "' for '" ++ agent ++ "'")
                            result, agents_with_concerns)
            else if mem status ["CONCERN"; "QUESTION"]
            then (result, (agents_with_concerns ++ [agent])%list)
            else (result, agents_with_concerns)
        end in
      match search summary_re agent_section with
      | Some summary_match =>
          let summary := strip (m_group summary_match 1) in
          if contains "[REQUIRED" summary
          then (add_error ("'" ++ agent ++ "' summary contains unfilled placeholder") result,
                agents_with_concerns)
          else if String.length summary <? MIN_SUMMARY_LENGTH
          then (add_warning ("'" ++ agent ++ "' summary too short ("
                             ++ of_nat (String.length summary) ++ " chars)") result,
                agents_with_concerns)
          else (result, agents_with_concerns)
      | None => (add_error ("Missing Summary for '" ++ agent ++ "'") result,
                 agents_with_concerns)
      end
  end.

Definition check_agent_responses (content : string) (result : ValidationResult)
    : ValidationResult * list string :=
  match search (section_re "## Section 2: Agent Responses" "## Section 3:") content with
  | None => (add_error "Cannot parse Section 2: Agent Responses" result, [])
  | Some section_match =>
      fold_left (check_response (m_text section_match)) REQUIRED_AGENTS (result, [])
  end.

(** [\|\s*\d+\s*\|[^|]+\|[^|]+\|[^|]+\|[^|]+\|] *)
Definition table_row_re : regex :=
  Lit "|" +> ws +> digits +> ws +> Lit "|"
    +> plus (not_char "|") +> Lit "|" +> plus (not_char "|") +> Lit "|"
    +> plus (not_char "|") +> Lit "|" +> plus (not_char "|") +> Lit "|".

(** The body of [for i, row in enumerate(table_rows, 1)]. *)
Definition check_row (st : nat * ValidationResult) (row : string)
    : nat * ValidationResult :=
  let (i, result) := st in
  let result :=
    if contains "[REQUIRED]" row
    then add_error ("Checklist item #" ++ of_nat i ++ " contains unfilled placeholder") result
    else result in
  let has_valid_source := existsb (fun agent => contains agent row) REQUIRED_AGENTS in
  let result :=
    if negb has_valid_source && negb (contains "PM-Architect" row)
    then add_warning ("Checklist item #" ++ of_nat i ++ " may be missing source agent") result
    else result in
  (i + 1, result).

Definition check_consolidated_checklist (content : string) (result : ValidationResult)
    : ValidationResult :=
  match search (section_re "## Section 3: Consolidated Checklist" "## Section 4:")
               content with
  | None => add_error "Cannot parse Section 3: Consolidated Checklist" result
  | Some section_match =>
      let section := m_text section_match in
      let table_rows := findall0 table_row_re section in
      let result :=
        match table_rows with
        | [] => add_warning "No checklist items found in Section 3" result
        | _ =>
            snd (fold_left check_row table_rows
                   (1, add_info ("Found " ++ of_nat (List.length table_rows)
                                 ++ " checklist items") result))
        end in
      if negb (is_match (Lit "**Total Items**:" +> ws +> digits) section)
      then add_error "Missing Total Items count" result
      else result
  end.

Definition check_unresolved_issues (content : string) (result : ValidationResult)
    : ValidationResult :=
  match search (section_re "## Section 4: Unresolved Issues" "## Section 5:") content with
  | None => add_error "Cannot parse Section 4: Unresolved Issues" result
  | Some section_match =>
      let section := m_text section_match in
      let has_concerns :=
        is_match (Lit "**Status**:" +> ws +> Grp 1 (Lit "CONCERN" <|> Lit "QUESTION"))
                 content in
      let issue_rows := findall0 table_row_re section in
      let has_issues := (0 <? List.length issue_rows) || contains "None" section in
      if has_concerns && negb has_issues
      then add_error "Agents raised CONCERN/QUESTION but Section 4 has no issues listed"
                     result
      else result
  end.

(** [\|\s*name\s*\|\s*(v1|v2|...)\s*\|] *)
Definition signoff_row_re (name : string) (values : regex) : regex :=
  Lit "|" +> ws +> Lit name +> ws +> Lit "|" +> ws +> Grp 1 values +> ws +> Lit "|".

Definition check_signoffs (content : string) (result : ValidationResult)
    : ValidationResult :=
  match search (section_re "## Section 5: Sign-offs" "## Section 6:") content with
  | None => add_error "Cannot parse Section 5: Sign-offs" result
  | Some section_match =>
      let section := m_text section_match in
      let result :=
        if negb (is_match (signoff_row_re "PM-Architect-Agent"
                             (Lit "APPROVED" <|> Lit "REJECTED" <|> Lit "CONDITIONAL"))
                          section)
        then add_error "PM-Architect-Agent sign-off missing or invalid" result
        else result in
      fold_left
        (fun result agent =>
           if negb (is_match (signoff_row_re agent
                                (Lit "APPROVED" <|> Lit "REJECTED" <|> Lit "CONDITIONAL"
                                 <|> Lit "N/A"))
                             section)
           then add_error ("'" ++ agent ++ "' sign-off missing or invalid") result
           else result)
        REQUIRED_AGENTS result
  end.

(** [\*\*Decision\*\*:\s*(\w+)] *)
Definition decision_re : regex := Lit "**Decision**:" +> ws +> Grp 1 (plus is_word).

(** [\|\s*PM-Architect-Agent\s*\|\s*REJECTED\s*\|] *)
Definition pm_rejected_re : regex :=
  Lit "|" +> ws +> Lit "PM-Architect-Agent" +> ws +> Lit "|" +> ws
          +> Lit "REJECTED" +> ws +> Lit "|".

Definition inconsistency_msg : string :=
  "INCONSISTENCY: Decision is PASS but PM-Architect signed REJECTED".

Definition check_gate_decision (content : string) (result : ValidationResult)
    : ValidationResult :=
  match search (section_re "## Section 6: Gate Decision" "## Section 7:") content with
  | None => add_error "Cannot parse Section 6: Gate Decision" result
  | Some section_match =>
      let section := m_text section_match in
      match search decision_re section with
      | None =>
          add_error "Missing Gate Decision. Add: **Decision**: PASS, FAIL, or CONDITIONAL"
                    result
      | Some decision_match =>
          let decision := m_group decision_match 1 in
          if negb (mem decision VALID_GATE_DECISIONS)
          then add_error ("Invalid Decision '" ++ decision ++ "'") result
          else
            let pm_rejected := is_match pm_rejected_re content in
            let result :=
              if String.eqb decision "PASS" && pm_rejected
              then add_error inconsistency_msg result
              else result in
            let result :=
              if String.eqb decision "FAIL" && negb (contains "Blocking Issues" section)
              then add_warning "Decision is FAIL but no Blocking Issues documented" result
              else result in
            if String.eqb decision "CONDITIONAL" && negb (contains "Conditions" section)
            then add_warning "Decision is CONDITIONAL but no Conditions documented" result
            else result
      end
  end.

Definition check_validation_section (content : string) (result : ValidationResult)
    : ValidationResult :=
  match search (section_re "## Section 7: Validation" "## Document History") content with
  | None => add_error "Cannot parse Section 7: Validation" result
  | Some section_match =>
      let section := m_text section_match in
      let result :=
        if negb (is_match (Lit "**Validation Result**:" +> ws
                             +> Grp 1 (Lit "VALID" <|> Lit "INVALID")) section)
        then add_warning "Validation Result not yet filled" result
        else result in
      if negb (is_match (Lit "**Validation Timestamp**:" +> ws +> ymd_re +> Lit "T") section)
      then add_warning "Validation Timestamp not yet filled" result
      else result
  end.

(** [\[REQUIRED[^\]]*\]] *)
Definition placeholder_re : regex := Lit "[REQUIRED" +> star (not_char "]") +> Lit "]".

(** [list(set(placeholders))[:5]]: the first five of the distinct
    placeholders, in the order the set of this run has. *)
Definition check_unfilled_placeholders (w : world) (content : string)
    (result : ValidationResult) : ValidationResult :=
  let placeholders := findall0 placeholder_re content in
  match placeholders with
  | [] => result
  | _ =>
      fold_left (fun result p => add_info ("  Placeholder: " ++ p) result)
        (firstn 5 (set_order w placeholders))
        (add_error ("Found " ++ of_nat (List.length placeholders)
                    ++ " unfilled [REQUIRED] placeholders") result)
  end.

(** ** P1-003: anti-fabrication checks *)

Definition validation_timestamp_re : regex :=
  Lit "**Validation Timestamp**:" +> ws +> Grp 1 iso_re.

Definition check_timestamp_consistency (w : world) (content file_path : string)
    (result : ValidationResult) : ValidationResult :=
  let date_match := search date_re content in
  let gate_date :=
    match date_match with
    | Some m => strptime_ymd (m_group m 1)
    | None => None
    end in
  let result :=
    match date_match, gate_date with
    | Some m, Some d =>
        if date_lt (dt_date (now w)) (dt_date d)
        then add_error ("FABRICATION INDICATOR: Gate date " ++ m_group m 1
                        ++ " is in the future") result
        else result
    | _, _ => result
    end in
  let invoc_match := search invocation_timestamp_re content in
  let result :=
    match invoc_match with
    | Some m =>
        match fromisoformat (m_group m 1) with
        | Some invoc_time =>
            if datetime_lt (now w) invoc_time
            then add_error "FABRICATION INDICATOR: Invocation timestamp is in the future"
                           result
            else result
        | None => result
        end
    | None => result
    end in
  let result :=
    match search validation_timestamp_re content, invoc_match with
    | Some vm, Some im =>
        match fromisoformat (m_group vm 1), fromisoformat (m_group im 1) with
        | Some valid_time, Some invoc_time =>
            if datetime_lt valid_time invoc_time
            then add_error
                   "FABRICATION INDICATOR: Validation timestamp is before invocation timestamp"
                   result
            else result
        | _, _ => result
        end
    | _, _ => result
    end in
  match fs w file_path, gate_date with
  | Some f, Some d =>
      if date_lt (st_mtime f) (dt_date d)
      then
        let days_diff := (ordinal (dt_date d) - ordinal (st_mtime f))%N in
        if (7 <? days_diff)%N
        then add_warning ("SUSPICIOUS: File mtime is " ++ of_N days_diff
                          ++ " days before claimed gate date") result
        else result
      else result
  | _, _ => result
  end.

(** [\|\s*\d+\s*\|([^|]+)\|] *)
Definition checklist_item_re : regex :=
  Lit "|" +> ws +> digits +> ws +> Lit "|" +> Grp 1 (plus (not_char "|")) +> Lit "|".

(** [\|\s*( [^|]+ Agent [^|]* )\s*\|\s*(?:APPROVED|REJECTED|CONDITIONAL|N/A)\s*\|], the group written with spaces for legibility. *)
Definition signoff_agent_re : regex :=
  Lit "|" +> ws
    +> Grp 1 (plus (not_char "|") +> Lit "Agent" +> star (not_char "|"))
    +> ws +> Lit "|" +> ws
    +> (Lit "APPROVED" <|> Lit "REJECTED" <|> Lit "CONDITIONAL" <|> Lit "N/A")
    +> ws +> Lit "|".

Definition duplicate_msg (duplicates : nat) : string :=
  "FABRICATION INDICATOR: Multiple agent responses appear identical ("
    ++ of_nat duplicates ++ " duplicates)".

Definition low_variety_msg : string :=
  "FABRICATION INDICATOR: Checklist items show low variety (possible copy-paste)".

Definition unknown_agent_msg (agent_clean : string) : string :=
  "FABRICATION INDICATOR: Unknown agent '" ++ agent_clean ++ "' in sign-off".

(** The summaries of the document and their distinct normalised
    100-character prefixes: [set(s.strip()[:100] for s in summaries)]. *)
Definition summaries_of (content : string) : list string :=
  findall1 summary_re content.

Definition unique_summaries_of (content : string) : list string :=
  distinct (map (fun s => take 100 (strip s)) (summaries_of content)).

Definition known_agents : list string :=
  (REQUIRED_AGENTS ++ ["PM-Architect-Agent"])%list.

(** A sign-off name the check reports: not a known agent, and neither inside
    a known name nor around one. *)
Definition is_unknown_agent (agent_clean : string) : bool :=
  negb (mem agent_clean known_agents) &&
  negb (existsb (fun known => contains known agent_clean || contains agent_clean known)
                known_agents).

(** [len(unique) < len(all) / d] compares an integer with a float quotient;
    on lengths this is [d * len(unique) < len(all)]. *)
Definition check_content_integrity (content : string) (result : ValidationResult)
    : ValidationResult :=
  let summaries := summaries_of content in
  let result :=
    match summaries with
    | [] => result
    | _ =>
        let unique_summaries := unique_summaries_of content in
        if (2 * List.length unique_summaries <? List.length summaries)
           && (2 <? List.length summaries)
        then add_warning
               (duplicate_msg (List.length summaries - List.length unique_summaries))
               result
        else result
    end in
  let checklist_items := findall1 checklist_item_re content in
  let result :=
    match checklist_items with
    | [] => result
    | _ =>
        let unique_items := distinct (map (fun item => take 50 (strip item)) checklist_items) in
        if (3 * List.length unique_items <? List.length checklist_items)
           && (5 <? List.length checklist_items)
        then add_warning low_variety_msg result
        else result
    end in
  let signoff_agents := findall1 signoff_agent_re content in
  fold_left
    (fun result agent =>
       let agent_clean := strip agent in
       if is_unknown_agent agent_clean
       then add_error (unknown_agent_msg agent_clean) result
       else result)
    signoff_agents result.

(** Both calls of [int] and the call of [Path.exists] are outside any
    [try]: what they raise leaves the function, before anything is appended
    to the result.  [not input_ref and not input_gate_path.exists()] asks
    the file system only when the document has no reference. *)
Definition check_sequential_consistency (w : world) (content : string)
    (result : ValidationResult) : outcome ValidationResult :=
  match search gate_type_re content, search phase_re content, search stage_re content with
  | Some gate_type_match, Some phase_match, Some stage_match =>
      let gate_type := m_group gate_type_match 1 in
      match int (m_group phase_match 1) with
      | Raises e => Raises e
      | Done phase =>
          match int (m_group stage_match 1) with
          | Raises e => Raises e
          | Done stage =>
              if String.eqb gate_type "Output"
              then
                let input_ref :=
                  is_match (LitI ("phase" ++ of_N phase ++ "-input-gate")) content in
                let input_gate_path :=
                  ".claude-bus/gates/stage" ++ of_N stage ++ "/phase" ++ of_N phase
                    ++ "-input-gate.md" in
                if input_ref
                then Done result
                else
                  match path_exists w input_gate_path with
                  | Raises e => Raises e
                  | Done true => Done result
                  | Done false =>
                      Done (add_warning
                              ("SEQUENCE WARNING: Phase " ++ of_N phase
                               ++ " Output gate has no corresponding Input gate") result)
                  end
              else Done result
          end
      end
  | _, _, _ => Done result
  end.

(** ** P2-005: git checkpoint verification *)

Definition is_hex (a : ascii) : bool := in_range 97 102 a || is_digit a.
(** [[a-f0-9]] under [re.IGNORECASE]. *)
Definition is_hex_i (a : ascii) : bool := is_hex a || in_range 65 70 a.

Definition hash_re : regex := Grp 1 (Rep true 7 (Some 40) is_hex_i).

(** The first three of [commit_patterns], under [re.IGNORECASE]. *)
Definition commit_patterns : list regex :=
  [ LitI "**Git Checkpoint**:" +> ws +> hash_re;
    LitI "**Commit**:" +> ws +> hash_re;
    LitI "commit" +> plus (fun a => is_char ":" a || is_space a) +> hash_re ].

(** The fourth, [\b([a-f0-9]{7,40})\s+Stage], without its leading [\b]. *)
Definition commit_stage_re : regex := hash_re +> plus is_space +> LitI "Stage".

Definition is_word_opt (a : option ascii) : bool :=
  match a with
  | Some a => is_word a
  | None => false
  end.

Definition head (s : string) : option ascii :=
  match s with
  | String a _ => Some a
  | EmptyString => None
  end.

(** [re.search] of [\b] followed by [r]: only positions between a word
    character and a character that is none are tried. *)
Fixpoint search_b_from (r : regex) (prev : option ascii) (before s : string)
    : option rematch :=
  match (if xorb (is_word_opt prev) (is_word_opt (head s))
         then match_here r s else None) with
  | Some (s', c) =>
      Some (mkMatch before (take (String.length s - String.length s') s) s' c)
  | None =>
      match s with
      | String a s' => search_b_from r (Some a) (before ++ String a "") s'
      | EmptyString => None
      end
  end.

(** [for pattern in commit_patterns: ... break]: the first pattern that
    matches gives the hash. *)
Definition find_commit_hash (content : string) : option string :=
  fold_right
    (fun found rest => match found with Some m => Some (m_group m 1) | None => rest end)
    None
    (map (fun r => search r content) commit_patterns
     ++ [search_b_from commit_stage_re None "" content])%list.

(** The call of [int] is outside any [try]: what it raises leaves the
    function, before anything is appended to the result. *)
Definition check_git_checkpoint (w : world) (content : string) (result : ValidationResult)
    : outcome ValidationResult :=
  match search gate_type_re content, search phase_re content with
  | Some gate_type_match, Some phase_match =>
      let gate_type := m_group gate_type_match 1 in
      match int (m_group phase_match 1) with
      | Raises e => Raises e
      | Done phase =>
          if negb (String.eqb gate_type "Output") || (phase <? 2)%N
          then Done result
          else
            match find_commit_hash content with
            | None =>
                Done (add_warning
                        ("P2-005: Phase " ++ of_N phase
                         ++ " Output gate should reference git checkpoint commit hash")
                        result)
            | Some commit_hash =>
                match match_here (Rep true 7 (Some 40) is_hex +> Eos) commit_hash with
                | None =>
                    Done (add_warning ("P2-005: Invalid commit hash format: " ++ commit_hash)
                                      result)
                | Some _ =>
                    match git_cat_file w commit_hash with
                    | Returned 0 =>
                        Done (add_info ("P2-005: Git checkpoint verified: "
                                        ++ take 7 commit_hash) result)
                    | Returned _ =>
                        Done (add_warning ("P2-005: Commit hash " ++ take 7 commit_hash
                                           ++ " not found in git history") result)
                    | Raised =>
                        Done (add_info ("P2-005: Git checkpoint referenced: "
                                        ++ take 7 commit_hash) result)
                    end
                end
            end
      end
  | _, _ => Done result
  end.

End GateValidators.

(* ====================================================================== *)
(** * validate_gate.py *)
(* ====================================================================== *)

Module ValidateGate.

Import Str Py Re GateConfig World GateValidators.

(** The four [except] clauses: [valid = False], one error, return. *)
Definition read_failure (e : read_error) : ValidationResult :=
  let result := new_result in
  let msg :=
    match e with
    | FileNotFoundError m => m
    | ValueError m => m
    | PermissionError m => "Permission denied: " ++ m
    | OtherError t m => "Unexpected error: " ++ t ++ ": " ++ m
    end in
  add_error msg (set_valid false result).

(** The fourteen checks, in the order [validate_gate] runs them. *)
Definition checks (w : world) (file_path content : string)
    : list (ValidationResult -> outcome ValidationResult) :=
  [ total (check_required_sections content);
    total (check_metadata w content);
    total (check_agent_invocation content);
    total (fun result => fst (check_agent_responses content result));
    total (check_consolidated_checklist content);
    total (check_unresolved_issues content);
    total (check_signoffs content);
    total (check_gate_decision content);
    total (check_validation_section content);
    total (check_unfilled_placeholders w content);
    total (check_timestamp_consistency w content file_path);
    total (check_content_integrity content);
    check_sequential_consistency w content;
    check_git_checkpoint w content ].

(** The run of the checks on the result object: the object as the run
    leaves it, and the exception that stopped the run when one did.  The two
    checks that may raise append nothing before they do. *)
Definition run_checks (w : world) (file_path content : string)
    (result : ValidationResult) : ValidationResult * option exn :=
  run (checks w file_path content) result.

(** Only [read_file] is called in a [try]: an exception of a check leaves
    [validate_gate]. *)
Definition validate_gate (w : world) (file_path : string) : outcome ValidationResult :=
  let result := new_result in
  match read_file w file_path with
  | inl e => Done (read_failure e)
  | inr content =>
      match run_checks w file_path content result with
      | (result, None) => Done (set_valid (List.length (errors result) =? 0) result)
      | (_, Some e) => Raises e
      end
  end.

(** The exit code of the process that runs [main] with the arguments
    [args] ([sys.argv[1:]]); printing is taken to succeed.  An exception
    that leaves [validate_gate] ends the process with a traceback and the
    exit code 1. *)
Definition main (w : world) (args : list string) : nat :=
  match args with
  | [] => 1
  | file_path :: _ =>
      if mem file_path ["-h"; "--help"]
      then 0
      else
        match validate_gate w file_path with
        | Raises _ => 1
        | Done result =>
            if negb (valid result) then 1
            else match warnings result with
                 | _ :: _ => 2
                 | [] => 0
                 end
        end
  end.

End ValidateGate.

(* ====================================================================== *)
(** * alert_manager.py: the phase-transition check *)
(* ====================================================================== *)

Module Json.

(** A JSON value as [json.loads] gives it: a string, a natural number, a
    list of strings, or any other value ([VOther]: another number, a
    boolean, [None], a list of other things, a nested object). *)
Inductive value : Type :=
| VStr (s : string)
| VNum (n : N)
| VList (l : list string)
| VOther.

(** A JSON object as [json.loads] gives it: a dict, its keys in insertion
    order. *)
Definition dict : Type := list (string * value).

(** [d.get(key)] *)
Fixpoint dict_get (key : string) (d : dict) : option value :=
  match d with
  | [] => None
  | (k, v) :: d' => if String.eqb k key then Some v else dict_get key d'
  end.

(** [d[key] = v]: in place when the key is there, at the end when not. *)
Fixpoint dict_set (key : string) (v : value) (d : dict) : dict :=
  match d with
  | [] => [(key, v)]
  | (k, x) :: d' =>
      if String.eqb k key then (k, v) :: d' else (k, x) :: dict_set key v d'
  end.

End Json.

Module AlertManager.

Import Str Py Json.

(** An alert, a JSON object, by the keys the checks read: [None] is a key
    that is absent. *)
Record alert : Type := mkAlert {
  a_id : option value;
  a_severity : option value;
  a_status : option value
}.

(** What a reader of the alerts file meets: a line that parses as JSON, an
    object or a value of another Python type ([list], [str], [int],
    [NoneType], ...), or the exception the reading raises at that point
    ([UnicodeDecodeError] for bytes that are not UTF-8, [OSError] for a
    file that cannot be opened or read), after which nothing is read.
    Lines that do not parse are skipped by the readers and are left out. *)
Inductive json_line : Type :=
| JObject (a : alert)
| JOther (type_name : string)
| ReadRaises (e : exn).

(** The alerts file: what its readers meet, in the order of the file;
    [None] when the file is not there. *)
Definition alerts_text : Type := option (list json_line).

(** The dict [check_phase_transition] returns. *)
Record alert_status : Type := mkAlertStatus {
  as_can_proceed : bool;
  as_status : string;
  as_message : string;
  as_alerts : list alert
}.

(** [a.get(field) == v] for one of the strings [values]. *)
Definition has (field : alert -> option value) (values : list string) (a : alert) : bool :=
  match field a with
  | Some (VStr v) => existsb (String.eqb v) values
  | _ => false
  end.

(** The loop of [load_alerts]: it appends the parsed lines, and what the
    reading raises leaves it. *)
Fixpoint read_lines (lines : list json_line) : outcome (list json_line) :=
  match lines with
  | [] => Done []
  | ReadRaises e :: _ => Raises e
  | line :: rest =>
      match read_lines rest with
      | Raises e => Raises e
      | Done alerts => Done (line :: alerts)
      end
  end.

(** [load_alerts] gives the parsed lines, none when the file is absent. *)
Definition load_alerts (alerts_file : alerts_text) : outcome (list json_line) :=
  match alerts_file with
  | Some lines => read_lines lines
  | None => Done []
  end.

(** [a.get] on what the loop meets: a value that is not a dict has no
    method [get]. *)
Definition get_of (line : json_line) : outcome alert :=
  match line with
  | JObject a => Done a
  | JOther type_name =>
      Raises (Exn "AttributeError" ("'" ++ type_name ++ "' object has no attribute 'get'"))
  | ReadRaises e => Raises e
  end.

(** [[a for a in lines if a.get("status") == "active"]]: the comprehension
    stops at the first line that is not an object. *)
Fixpoint active_of (lines : list json_line) : outcome (list alert) :=
  match lines with
  | [] => Done []
  | line :: rest =>
      match get_of line with
      | Raises e => Raises e
      | Done a =>
          match active_of rest with
          | Raises e => Raises e
          | Done active =>
              Done (if has a_status ["active"] a then a :: active else active)
          end
      end
  end.

Definition get_active_alerts (alerts_file : alerts_text) : outcome (list alert) :=
  match load_alerts alerts_file with
  | Raises e => Raises e
  | Done alerts => active_of alerts
  end.

Definition check_phase_transition (alerts_file : alerts_text) (to_phase : N)
    : outcome alert_status :=
  match get_active_alerts alerts_file with
  | Raises e => Raises e
  | Done active =>
      let critical := filter (has a_severity ["critical"]) active in
      let high := filter (has a_severity ["high"]) active in
      let medium_low := filter (has a_severity ["medium"; "low"]) active in
      Done
        match critical, high, medium_low with
        | _ :: _, _, _ =>
            mkAlertStatus false "BLOCKED" ("Cannot proceed to Phase " ++ of_N to_phase)
                          critical
        | [], _ :: _, _ =>
            mkAlertStatus true "WARNING"
              ("Proceed to Phase " ++ of_N to_phase ++ " with caution") high
        | [], [], _ :: _ =>
            mkAlertStatus true "INFO" ("Proceeding to Phase " ++ of_N to_phase) medium_low
        | [], [], [] =>
            mkAlertStatus true "OK" ("Clear to proceed to Phase " ++ of_N to_phase) []
        end
  end.

End AlertManager.

(* ====================================================================== *)
(** * alert_manager.py: creating and resolving alerts *)
(* ====================================================================== *)

Module AlertStore.

Import Str Py Json AlertManager.

(** [d.get(key) == s] for a string [s]. *)
Definition get_is (key s : string) (d : dict) : bool :=
  match dict_get key d with
  | Some (VStr x) => String.eqb x s
  | _ => false
  end.

Definition get_str (key : string) (d : dict) : option string :=
  match dict_get key d with
  | Some (VStr x) => Some x
  | _ => None
  end.

(** The keys of an alert that the phase-transition check reads. *)
Definition view (d : dict) : alert :=
  mkAlert (dict_get "id" d) (dict_get "severity" d) (dict_get "status" d).

(** An alerts file whose lines are objects, as the lines the tool writes
    are: their dicts in the order of the file; [None] when the file does
    not exist.  Lines end with a newline, as the lines [save_alert] writes
    do. *)
Definition store : Type := option (list dict).

(** The file as the phase-transition check reads it. *)
Definition alerts_of (file : store) : alerts_text :=
  option_map (map (fun d => JObject (view d))) file.

Definition load_alerts (file : store) : list dict :=
  match file with
  | Some alerts => alerts
  | None => []
  end.

Fixpoint zeros (n : nat) : string :=
  match n with
  | 0 => ""
  | S n' => String "0" (zeros n')
  end.

(** [f"{n:03d}"] *)
Definition pad3 (n : nat) : string :=
  zeros (3 - String.length (of_nat n)) ++ of_nat n.

(** [f"notify-{next_id:03d}"] *)
Definition alert_id (next_id : nat) : string := "notify-" ++ pad3 next_id.

(** [now] is the text of [datetime.now().isoformat()]. *)
Definition create_alert_record (file : store) (now : string)
    (severity message notification_type : string)
    (suggested_actions : option (list string)) (agent : string) : dict :=
  let existing := load_alerts file in
  let next_id := List.length existing + 1 in
  [ ("id", VStr (alert_id next_id));
    ("timestamp", VStr now);
    ("severity", VStr severity);
    ("notification_type", VStr notification_type);
    ("message", VStr message);
    ("suggested_actions",
     VList (match suggested_actions with Some l => l | None => [] end));
    ("agent", VStr agent);
    ("status", VStr "active") ].

(** Appends a line; the file is created when it is not there. *)
Definition save_alert (alert : dict) (file : store) : store :=
  Some (load_alerts file ++ [alert])%list.

(** The loop of [resolve_alert]: the first alert with the id is marked and
    the loop stops; [None] when no alert has the id. *)
Fixpoint resolve_first (alert_id now : string) (alerts : list dict)
    : option (list dict) :=
  match alerts with
  | [] => None
  | alert :: rest =>
      if get_is "id" alert_id alert
      then Some (dict_set "resolved_at" (VStr now)
                   (dict_set "status" (VStr "resolved") alert) :: rest)
      else option_map (cons alert) (resolve_first alert_id now rest)
  end.

(** The file is rewritten only when an alert was marked. *)
Definition resolve_alert (alert_id now : string) (file : store) : bool * store :=
  match resolve_first alert_id now (load_alerts file) with
  | Some alerts => (true, Some alerts)
  | None => (false, file)
  end.

(** The two commands of [main] that write the file. *)
Inductive command : Type :=
| Create (severity message notification_type : string)
         (actions : option (list string)) (agent : string)
| Resolve (id : string).

(** One run of [main] at the time [now]: the file it leaves and its exit
    code. *)
Definition main (now : string) (cmd : command) (file : store) : store * nat :=
  match cmd with
  | Create severity message notification_type actions agent =>
      (save_alert (create_alert_record file now severity message notification_type
                     actions agent) file, 0)
  | Resolve id =>
      let (updated, file') := resolve_alert id now file in
      (file', if updated then 0 else 1)
  end.

End AlertStore.

(* ====================================================================== *)
(** * gate_workflow.py *)
(* ====================================================================== *)

Module GateWorkflow.

Import Str Py Json GateConfig World AlertManager.

(** ** The collaborators of the orchestrator *)

Record checklist_item : Type := mkItem {
  item_id : string;
  item_desc : string;
  item_auto : bool;
  item_check : string
}.

Record check_result : Type := mkCheck {
  cr_id : string;
  cr_desc : string;
  cr_status : string;
  cr_message : string
}.

(** What the probes of the auto-checks observe. *)
Inductive npm_outcome : Type := NpmExit (code : nat) | NpmTimeout | NpmError (e : string).

Record probes : Type := mkProbes {
  git_log : string + string;            (* lower-cased log, or the exception *)
  typescript : npm_outcome;
  vite_find : option string;            (* stdout of find, none on exception *)
  backend_health : nat + string         (* HTTP status, or the exception *)
}.

(** The sign-off record file of a gate: not there; a file whose test or
    reading raises ([OSError] from [exists] or [read_text],
    [UnicodeDecodeError] from [read_text] for bytes that are not UTF-8);
    not JSON, where [json.loads] raises [JSONDecodeError]; a JSON value
    that is not an object, of the Python type named, which has no method
    [get]; or an object.  Of an
    object, [status] is the value of the key when it is a string, and
    [verified_at], [token] and [expires_at] are what [str] gives for the
    values of their keys, [None] for a key that is absent or null. *)
Inductive signoff_file : Type :=
| SignoffAbsent
| SignoffUnreadable (e : exn)
| SignoffCorrupted
| SignoffNotObject (type_name : string)
| SignoffRecord (status verified_at token expires_at : option string).

Inductive audit_outcome : Type :=
| AuditScriptMissing
| AuditExit (code : nat) (json_output : bool)
| AuditTimeout
| AuditError (e : string).

Inductive severity : Type := SEVERITY_CRITICAL | SEVERITY_HIGH | SEVERITY_OTHER.

Record memory_answer : Type := mkMemory {
  mq_status : string;
  mq_message : string;
  mq_count : nat;
  mq_memories : list string
}.

Record memory_check : Type := mkMemCheck {
  mc_passed : bool;
  mc_lessons_found : nat;
  mc_min_lessons_required : nat;
  mc_issues : list string
}.

(** Everything [run_gate_workflow] asks of its environment.  A sibling
    module that is not installed is [None]: its import raises [ImportError]. *)
Record collaborators : Type := mkCollab {
  files : world;
  alert_manager_present : bool;
  alerts_file : alerts_text;
  gate_checklists : option (N -> string -> list checklist_item);
  probe : probes;
  validate_gate_present : bool;
  signoff : N -> N -> string -> signoff_file;
  audit : audit_outcome;
  memory_cli_health : string + string;  (* stdout of the health command, or the exception *)
  memory_query : memory_answer;
  anomaly_detector : option (list severity);
  memory_checkpoint : option memory_check;
  secure_events : option string         (* the signature of the logged event *)
}.

(** ** The result *)

(** A step of the result; [details] holds what the step adds to its name,
    status and message. *)
Record workflow_step : Type := mkStep {
  step : string;
  step_status : string;
  message : string;
  details : list value
}.

Record action : Type := mkAction {
  action_name : string;
  command : option string;
  action_message : option string;
  items : list string
}.

Record workflow_result : Type := mkWorkflow {
  stage : N;
  phase : N;
  gate_type : string;
  steps : list workflow_step;
  status : string;
  can_proceed : bool;
  actions_required : list action;
  checklist_results : list check_result;
  relevant_memories : list string;
  version : string
}.

(** [result["steps"].append(...)] and the other in-place updates. *)
Definition add_step (s : workflow_step) (r : workflow_result) : workflow_result :=
  mkWorkflow (stage r) (phase r) (gate_type r) (steps r ++ [s])%list (status r)
             (can_proceed r) (actions_required r) (checklist_results r)
             (relevant_memories r) (version r).

Definition add_action (a : action) (r : workflow_result) : workflow_result :=
  mkWorkflow (stage r) (phase r) (gate_type r) (steps r) (status r)
             (can_proceed r) (actions_required r ++ [a])%list (checklist_results r)
             (relevant_memories r) (version r).

Definition set_status (st : string) (r : workflow_result) : workflow_result :=
  mkWorkflow (stage r) (phase r) (gate_type r) (steps r) st
             (can_proceed r) (actions_required r) (checklist_results r)
             (relevant_memories r) (version r).

Definition set_can_proceed (b : bool) (r : workflow_result) : workflow_result :=
  mkWorkflow (stage r) (phase r) (gate_type r) (steps r) (status r)
             b (actions_required r) (checklist_results r)
             (relevant_memories r) (version r).

Definition set_checklist_results (l : list check_result) (r : workflow_result)
    : workflow_result :=
  mkWorkflow (stage r) (phase r) (gate_type r) (steps r) (status r)
             (can_proceed r) (actions_required r) l
             (relevant_memories r) (version r).

Definition set_relevant_memories (l : list string) (r : workflow_result)
    : workflow_result :=
  mkWorkflow (stage r) (phase r) (gate_type r) (steps r) (status r)
             (can_proceed r) (actions_required r) (checklist_results r)
             l (version r).

(** ** Checklist integration *)

Definition load_checklist (c : collaborators) (phase : N) (gate_type : string)
    : list checklist_item :=
  match gate_checklists c with
  | Some get_checklist => get_checklist phase gate_type
  | None => []
  end.

Definition _check_git_checkpoint (p : probes) (stage phase : N) : string * string :=
  match git_log p with
  | inl logs =>
      let patterns :=
        [ "stage " ++ of_N stage; "stage" ++ of_N stage;
          "phase " ++ of_N phase; "phase" ++ of_N phase;
          "checkpoint"; "complete" ] in
      if existsb (fun pat => contains pat logs) patterns
      then ("PASS", "Git checkpoint found")
      else ("WARN", "No obvious checkpoint found in recent commits")
  | inr e => ("SKIP", "Git check failed: " ++ e)
  end.

Definition _check_typescript (p : probes) : string * string :=
  match typescript p with
  | NpmExit 0 => ("PASS", "TypeScript compiles successfully")
  | NpmExit _ => ("FAIL", "TypeScript compilation errors")
  | NpmTimeout => ("SKIP", "TypeScript check timed out")
  | NpmError e => ("SKIP", "TypeScript check failed: " ++ e)
  end.

Definition _check_vite_permissions (p : probes) : string * string :=
  match vite_find p with
  | Some stdout =>
      match strip stdout with
      | EmptyString => ("PASS", "No permission issues in .vite cache")
      | _ => ("FAIL",
              "Root-owned .vite files found. Run: sudo rm -rf frontend/node_modules/.vite")
      end
  | None => ("PASS", ".vite cache clean or not present")
  end.

Definition _check_backend_healthy (p : probes) : string * string :=
  match backend_health p with
  | inl st =>
      if st =? 200
      then ("PASS", "Backend healthy at localhost:8000")
      else ("FAIL", "Backend returned status " ++ of_nat st)
  | inr e => ("FAIL", "Backend not reachable: " ++ e)
  end.

(** The dispatch on the check identifier: status and message. *)
Definition run_check (p : probes) (stage phase : N) (check_name : string)
    : string * string :=
  if String.eqb check_name "git_checkpoint_exists" then _check_git_checkpoint p stage phase
  else if String.eqb check_name "tests_pass"
  then ("SKIP", "Run 'npm run test' manually to verify")
  else if String.eqb check_name "coverage_threshold"
  then ("SKIP", "Run 'npm run test:coverage' manually to verify >= 70%")
  else if String.eqb check_name "typescript_compiles" then _check_typescript p
  else if String.eqb check_name "coverage_not_decreased"
  then ("SKIP", "Coverage regression check requires manual verification")
  else if String.eqb check_name "vite_permissions" then _check_vite_permissions p
  else if String.eqb check_name "backend_healthy" then _check_backend_healthy p
  else if String.eqb check_name "e2e_tests_pass"
  then ("SKIP", "Run 'npm run test:e2e' manually for E2E verification")
  else if String.eqb check_name "bundle_size"
  then ("SKIP", "Run 'npm run build' and check bundle size <= 60KB")
  else if String.eqb check_name "quality_checks"
  then ("SKIP", "Quality checks require manual verification")
  else ("SKIP", "Check '" ++ check_name ++ "' not implemented yet").

Definition execute_auto_checks (p : probes) (stage phase : N) (gate_type : string)
    (checklist : list checklist_item) : list check_result :=
  map (fun item =>
         let (st, msg) := run_check p stage phase (item_check item) in
         mkCheck (item_id item) (item_desc item) st msg)
      (filter item_auto checklist).

(** ** Alert integration *)

(** The loop of the fallback: [alert.get] is in the [try] that catches
    [JSONDecodeError] only, so the loop stops at the first line that is not
    an object. *)
Fixpoint active_lines (lines : list json_line) (alerts : list alert)
    : outcome (list alert) :=
  match lines with
  | [] => Done alerts
  | line :: rest =>
      match get_of line with
      | Raises e => Raises e
      | Done alert =>
          active_lines rest
            (if has a_status ["active"] alert then (alerts ++ [alert])%list else alerts)
      end
  end.

(** [check_phase_transition] is called in a [try] that catches
    [ImportError] only. *)
Definition check_blocking_alerts (c : collaborators) (to_phase : N)
    : outcome alert_status :=
  if alert_manager_present c
  then check_phase_transition (alerts_file c) to_phase
  else
    match alerts_file c with
    | None => Done (mkAlertStatus true "OK" "No alerts file found" [])
    | Some lines =>
        match active_lines lines [] with
        | Raises e => Raises e
        | Done alerts =>
            let critical := filter (has a_severity ["critical"]) alerts in
            match critical with
            | _ :: _ =>
                Done (mkAlertStatus false "BLOCKED"
                        (of_nat (List.length critical)
                         ++ " critical alert(s) blocking transition")
                        critical)
            | [] =>
                Done (mkAlertStatus true
                        (match alerts with [] => "OK" | _ => "WARNING" end)
                        (of_nat (List.length alerts) ++ " active alert(s), none critical")
                        alerts)
            end
        end
    end.

(** ** Super-AI audit integration *)

Definition execute_super_ai_audit (c : collaborators) : string * string :=
  match audit c with
  | AuditScriptMissing => ("SKIP", "super_ai_audit.py not found")
  | AuditExit 0 true => ("PASS", "Super-AI audit completed")
  | AuditExit 0 false => ("PASS", "Super-AI audit completed (non-JSON output)")
  | AuditExit code _ => ("WARN", "Super-AI audit returned non-zero: " ++ of_nat code)
  | AuditTimeout => ("SKIP", "Super-AI audit timed out (>2min)")
  | AuditError e => ("SKIP", "Super-AI audit failed: " ++ e)
  end.

(** ** Workflow logic *)

Definition requires_user_signoff (phase : N) (gate_type : string) : bool :=
  String.eqb gate_type "output" && (2 <=? phase)%N.

Definition requires_super_ai_audit (phase : N) (gate_type : string) : bool :=
  String.eqb gate_type "output" && existsb (N.eqb phase) [1; 3; 5]%N.

(** [d.get(key) == v] *)
Definition is_value (o : option string) (v : string) : bool :=
  match o with
  | Some x => String.eqb x v
  | None => false
  end.

(** The dict [check_signoff_status] returns; [so_token] is [Some t] when the
    dict has the key ["token"], whose value [t] may itself be absent. *)
Record signoff_status : Type := mkSignoff {
  so_required : bool;
  so_verified : bool;
  so_verified_at : option string;
  so_token : option (option string);
  so_expires_at : option string;
  so_message : string
}.

(** The [except] clause catches [JSONDecodeError] and [KeyError]: what
    [exists] and [read_text] raise and what [record.get] raises on a value
    that is not an object leave the function. *)
Definition check_signoff_status (c : collaborators) (stage phase : N) (gate_type : string)
    : outcome signoff_status :=
  if negb (requires_user_signoff phase gate_type)
  then Done (mkSignoff false true None None None "User sign-off not required for this gate")
  else
    match signoff c stage phase gate_type with
    | SignoffAbsent =>
        Done (mkSignoff true false None None None
                        "User sign-off required but not requested yet")
    | SignoffUnreadable e => Raises e
    | SignoffCorrupted =>
        Done (mkSignoff true false None None None "Sign-off record corrupted")
    | SignoffNotObject type_name =>
        Raises (Exn "AttributeError"
                  ("'" ++ type_name ++ "' object has no attribute 'get'"))
    | SignoffRecord st verified_at token expires_at =>
        if is_value st "VERIFIED"
        then Done (mkSignoff true true verified_at None None "User sign-off verified")
        else Done (mkSignoff true false None (Some token) expires_at
                             "User sign-off pending verification")
    end.

Definition check_memory_service_health (stdout : string + string) : string * string :=
  match stdout with
  | inl out =>
      if contains "Status:           healthy" out
      then ("PASS", "Memory service healthy")
      else if contains "ChromaDB:         Connected" out
      then ("PASS", "ChromaDB connected")
      else ("WARN", "Memory service may be unhealthy")
  | inr e => ("SKIP", "Memory health check failed: " ++ e)
  end.

(** ** The main workflow *)

Record options : Type := mkOptions {
  gate_file : option string;
  skip_signoff : bool;
  skip_alerts : bool;
  skip_audit : bool
}.

Definition initial_result (stage phase : N) (gate_type : string) : workflow_result :=
  mkWorkflow stage phase gate_type [] "PASS" true [] [] [] "2.0".

Section Steps.

Variable c : collaborators.
Variable o : options.
Variables (stage_ phase_ : N) (gate_type_ : string).

(** [a.get("id", "unknown")]: the value of the key, whatever it is. *)
Definition id_or_unknown (a : alert) : value :=
  match a_id a with
  | Some v => v
  | None => VStr "unknown"
  end.

(** Step 0: blocking alerts.  What [check_blocking_alerts] raises leaves
    the workflow. *)
Definition step_alert_check (result : workflow_result) : outcome workflow_result :=
  if skip_alerts o
  then Done (add_step (mkStep "alert_check" "SKIP" "Alert check skipped (testing mode)" [])
                      result)
  else
    let next_phase := if String.eqb gate_type_ "output" then (phase_ + 1)%N else phase_ in
    match check_blocking_alerts c next_phase with
    | Raises e => Raises e
    | Done alert_status =>
        if negb (as_can_proceed alert_status)
        then
          let result :=
            add_step (mkStep "alert_check" "BLOCKED" (as_message alert_status)
                        (map id_or_unknown (as_alerts alert_status))) result in
          let result := set_status "BLOCKED" result in
          let result := set_can_proceed false result in
          Done (add_action (mkAction "resolve_alerts"
                              (Some "python3 .claude-bus/scripts/alert_manager.py list")
                              (Some "Resolve critical alerts before proceeding") [])
                           result)
        else if String.eqb (as_status alert_status) "WARNING"
        then Done (add_step (mkStep "alert_check" "WARN" (as_message alert_status) [])
                            result)
        else Done (add_step (mkStep "alert_check" "PASS" "No blocking alerts" []) result)
    end.

Definition count_status (values : list string) (l : list check_result) : nat :=
  List.length (filter (fun r => mem (cr_status r) values) l).

(** Step 1: the checklist and its auto-checks; a failed auto-check is
    recorded and changes neither the status nor [can_proceed]. *)
Definition step_checklist (result : workflow_result) : workflow_result :=
  let checklist := load_checklist c phase_ gate_type_ in
  match checklist with
  | [] =>
      add_step (mkStep "checklist_auto_verify" "SKIP"
                  "No checklist defined for this gate" []) result
  | _ =>
      let check_results :=
        execute_auto_checks (probe c) stage_ phase_ gate_type_ checklist in
      let result := set_checklist_results check_results result in
      let passed := count_status ["PASS"] check_results in
      let failed := count_status ["FAIL"] check_results in
      let skipped := count_status ["SKIP"; "WARN"] check_results in
      let result :=
        if 0 <? failed
        then add_step
               (mkStep "checklist_auto_verify" "FAIL"
                  ("Auto-checks: " ++ of_nat passed ++ " passed, " ++ of_nat failed
                   ++ " failed, " ++ of_nat skipped ++ " skipped")
                  (map (fun r => VStr (cr_id r))
                       (filter (fun r => String.eqb (cr_status r) "FAIL")
                               check_results)))
               result
        else add_step
               (mkStep "checklist_auto_verify" "PASS"
                  ("Auto-checks: " ++ of_nat passed ++ " passed, " ++ of_nat skipped
                   ++ " skipped/manual") [])
               result in
      let manual_items := filter (fun item => negb (item_auto item)) checklist in
      match manual_items with
      | [] => result
      | _ =>
          add_action (mkAction "manual_checklist" None
                        (Some (of_nat (List.length manual_items)
                               ++ " items require manual verification"))
                        (map item_desc manual_items)) result
      end
  end.

(** Step 2: the gate record, when a file is given ([if gate_file:] takes an
    empty path as none).  The test for the file is outside the [try], and
    the [try] around [validate_gate] catches [ImportError] only: what
    either raises leaves the workflow. *)
Definition step_validate_gate_record (result : workflow_result)
    : outcome workflow_result :=
  match gate_file o with
  | None | Some EmptyString =>
      Done (add_step (mkStep "validate_gate_record" "SKIP" "No gate file provided" [])
                     result)
  | Some path =>
      match path_exists (files c) path with
      | Raises e => Raises e
      | Done false =>
          let result :=
            add_step (mkStep "validate_gate_record" "FAIL"
                        ("Gate file not found: " ++ path) []) result in
          Done (set_can_proceed false (set_status "FAIL" result))
      | Done true =>
          if negb (validate_gate_present c)
          then Done (add_step (mkStep "validate_gate_record" "SKIP"
                                 "validate_gate.py not available" []) result)
          else
            match ValidateGate.validate_gate (files c) path with
            | Raises e => Raises e
            | Done validation =>
                if valid validation
                then Done (add_step (mkStep "validate_gate_record" "PASS"
                                       "Gate record validated successfully" []) result)
                else
                  let result :=
                    add_step (mkStep "validate_gate_record" "FAIL"
                                ("Validation failed with "
                                 ++ of_nat (List.length (errors validation)) ++ " errors")
                                (map VStr (firstn 5 (errors validation)))) result in
                  Done (set_can_proceed false (set_status "FAIL" result))
            end
      end
  end.

(** [str(v)] of a value given by its text; [None] is Python's [None]. *)
Definition show (v : option string) : string :=
  match v with
  | Some t => t
  | None => "None"
  end.

(** Step 3: the user sign-off.  What [check_signoff_status] raises leaves
    the workflow. *)
Definition step_user_signoff (result : workflow_result) : outcome workflow_result :=
  if skip_signoff o
  then Done (add_step (mkStep "user_signoff" "SKIP" "Sign-off check skipped (testing mode)"
                         []) result)
  else
    match check_signoff_status c stage_ phase_ gate_type_ with
    | Raises e => Raises e
    | Done signoff_status =>
        if negb (so_required signoff_status)
        then Done (add_step (mkStep "user_signoff" "NOT_REQUIRED"
                               (so_message signoff_status) []) result)
        else if so_verified signoff_status
        then Done (add_step (mkStep "user_signoff" "VERIFIED" "User sign-off confirmed"
                               [VStr (show (so_verified_at signoff_status))]) result)
        else
          let result :=
            add_step (mkStep "user_signoff" "PENDING" (so_message signoff_status) [])
                     result in
          let result := set_status "PENDING" result in
          let result := set_can_proceed false result in
          match so_token signoff_status with
          | Some token =>
              Done (add_action
                      (mkAction "verify_signoff"
                         (Some ("python3 .claude-bus/scripts/user_signoff.py verify --token "
                                ++ show token))
                         None [show (so_expires_at signoff_status)]) result)
          | None =>
              Done (add_action
                      (mkAction "request_signoff"
                         (Some ("python3 .claude-bus/scripts/user_signoff.py request --stage "
                                ++ of_N stage_ ++ " --phase " ++ of_N phase_
                                ++ " --type " ++ gate_type_))
                         None []) result)
          end
    end.

(** Step 4: the Super-AI audit. *)
Definition step_super_ai_audit (result : workflow_result) : workflow_result :=
  if skip_audit o
  then add_step (mkStep "super_ai_audit" "SKIP" "Super-AI audit skipped (testing mode)" [])
                result
  else if requires_super_ai_audit phase_ gate_type_
  then
    let (audit_status, audit_message) := execute_super_ai_audit c in
    let result := add_step (mkStep "super_ai_audit" audit_status audit_message []) result in
    if String.eqb audit_status "FAIL"
    then add_action (mkAction "review_audit" None
                       (Some "Super-AI audit found issues requiring review") []) result
    else result
  else add_step (mkStep "super_ai_audit" "NOT_REQUIRED"
                   "Super-AI audit not required for this gate" []) result.

(** Step 5: the memory query; what [query_relevant_memories] answers is
    taken from the collaborators. *)
Definition step_memory_query (result : workflow_result) : workflow_result :=
  let (health_status, health_message) :=
    check_memory_service_health (memory_cli_health c) in
  if String.eqb health_status "PASS"
  then
    let q := memory_query c in
    let result :=
      add_step (mkStep "memory_query" (mq_status q) (mq_message q)
                  [VNum (N.of_nat (mq_count q))]) result in
    if 0 <? mq_count q
    then
      let result := set_relevant_memories (mq_memories q) result in
      add_action (mkAction "review_memories" None
                    (Some ("Review " ++ of_nat (mq_count q)
                           ++ " related memories from previous stages"))
                    (firstn 3 (mq_memories q))) result
    else result
  else add_step (mkStep "memory_query" health_status health_message []) result.

Definition count_severity (v : severity) (l : list severity) : nat :=
  List.length
    (filter (fun a => match a, v with
                      | SEVERITY_CRITICAL, SEVERITY_CRITICAL => true
                      | SEVERITY_HIGH, SEVERITY_HIGH => true
                      | _, _ => false
                      end) l).

(** Step 6: anomaly detection. *)
Definition step_anomaly_detection (result : workflow_result) : workflow_result :=
  match anomaly_detector c with
  | None =>
      add_step (mkStep "anomaly_detection" "SKIP" "anomaly_detector.py not available" [])
               result
  | Some anomalies =>
      let critical_count := count_severity SEVERITY_CRITICAL anomalies in
      let high_count := count_severity SEVERITY_HIGH anomalies in
      if 0 <? critical_count
      then
        let result :=
          add_step (mkStep "anomaly_detection" "FAIL"
                      ("Detected " ++ of_nat critical_count ++ " CRITICAL anomalies") [])
                   result in
        set_status "FAIL" (set_can_proceed false result)
      else if 0 <? high_count
      then add_step (mkStep "anomaly_detection" "WARN"
                       ("Detected " ++ of_nat high_count
                        ++ " HIGH severity anomalies (review recommended)") []) result
      else add_step (mkStep "anomaly_detection" "PASS" "No critical anomalies detected" [])
                    result
  end.

(** Step 7: the memory checkpoint of output gates. *)
Definition step_memory_checkpoint (result : workflow_result) : workflow_result :=
  if String.eqb gate_type_ "output" && (2 <=? phase_)%N
  then
    match memory_checkpoint c with
    | None =>
        add_step (mkStep "memory_checkpoint" "SKIP" "memory_checkpoint.py not available" [])
                 result
    | Some mem_check =>
        let ratio := of_nat (mc_lessons_found mem_check) ++ "/"
                     ++ of_nat (mc_min_lessons_required mem_check) in
        if mc_passed mem_check
        then add_step (mkStep "memory_checkpoint" "PASS"
                         ("Lessons stored: " ++ ratio ++ " required") []) result
        else
          let result :=
            add_step (mkStep "memory_checkpoint" "WARN" ("Missing lessons: " ++ ratio)
                        (map VStr (mc_issues mem_check))) result in
          add_action
            (mkAction "store_lessons"
               (Some "docker exec gpt-oss-backend python scripts/memory_cli.py store --help")
               (Some "Store lessons to memory before gate passage") []) result
    end
  else add_step (mkStep "memory_checkpoint" "NOT_REQUIRED"
                   "Memory checkpoint not required for this gate" []) result.

(** Step 8: the secure event log. *)
Definition step_secure_event_log (result : workflow_result) : workflow_result :=
  match secure_events c with
  | Some signature =>
      add_step (mkStep "secure_event_log" "PASS" "Event logged with HMAC signature"
                  [VStr signature]) result
  | None =>
      add_step (mkStep "secure_event_log" "SKIP" "secure_events.py not available" [])
               result
  end.

(** The steps in the order [run_gate_workflow] runs them.  The sibling
    modules that are not in the repository (the checklists, the anomaly
    detector, the memory checkpoint, the secure events) are taken to return
    when they are there. *)
Definition workflow_steps : list (workflow_result -> outcome workflow_result) :=
  [ step_alert_check;
    total step_checklist;
    step_validate_gate_record;
    step_user_signoff;
    total step_super_ai_audit;
    total step_memory_query;
    total step_anomaly_detection;
    total step_memory_checkpoint;
    total step_secure_event_log ].

(** The result object after each of the first steps of [l] that the run
    reaches, the starting one first: the run stops at a step that raises. *)
Fixpoint run_trace (l : list (workflow_result -> outcome workflow_result))
    (result : workflow_result) : list workflow_result :=
  match l with
  | [] => [result]
  | f :: l' =>
      result :: match f result with
                | Done result' => run_trace l' result'
                | Raises _ => []
                end
  end.

(** The result object as the run of the steps leaves it, and the exception
    that stopped the run when one did. *)
Definition run_steps (l : list (workflow_result -> outcome workflow_result))
    (result : workflow_result) : workflow_result * option exn :=
  run l result.

(** The result is returned when no step raised. *)
Definition run_gate_workflow : outcome workflow_result :=
  finish (run_steps workflow_steps (initial_result stage_ phase_ gate_type_)).

Definition workflow_trace : list workflow_result :=
  run_trace workflow_steps (initial_result stage_ phase_ gate_type_).

End Steps.

(** The exit code [main] chooses for a result. *)
Definition exit_code (result : workflow_result) : nat :=
  if String.eqb (status result) "PASS" then 0
  else if String.eqb (status result) "PENDING" then 2
  else if String.eqb (status result) "BLOCKED" then 3
  else 1.

(** The exit code of the process that runs [main]: an exception that leaves
    [run_gate_workflow] ends it with a traceback and the exit code 1. *)
Definition main_exit_code (run : outcome workflow_result) : nat :=
  process_exit_code exit_code run.

End GateWorkflow.

(* ====================================================================== *)
(** * Predicates the properties are stated with *)
(* ====================================================================== *)

Module Spec.

Import Str Py Json Re Cal GateConfig World GateValidators ValidateGate AlertManager.
Import GateWorkflow.

(** The ways [read_file] fails that C9 lists. *)
Inductive unreadable (w : world) (file_path : string) : Prop :=
| Nonexistent :
    fs w file_path = None -> unreadable w file_path
| TooLarge (f : file) :
    fs w file_path = Some f -> (MAX_FILE_SIZE < st_size f)%N ->
    unreadable w file_path
| NotUtf8 (f : file) (detail : string) :
    fs w file_path = Some f -> read_text f = ReadUnicodeDecodeError detail ->
    unreadable w file_path
| Blank (f : file) (content : string) :
    fs w file_path = Some f -> read_text f = ReadText content ->
    all_chars is_space content = true ->
    unreadable w file_path.

(** [r'] is [r] with entries appended to its lists. *)
Definition extends (r r' : ValidationResult) : Prop :=
  exists e w i,
    errors r' = (errors r ++ e)%list /\
    warnings r' = (warnings r ++ w)%list /\
    info r' = (info r ++ i)%list.

(** A step is sticky when it never turns a false [can_proceed] into true. *)
Definition sticky (f : workflow_result -> outcome workflow_result) : Prop :=
  forall r r', f r = Done r' -> can_proceed r = false -> can_proceed r' = false.

(** A step is silent when it leaves [status] and [can_proceed] alone. *)
Definition silent (f : workflow_result -> workflow_result) : Prop :=
  forall r, status (f r) = status r /\ can_proceed (f r) = can_proceed r.

(** The text of Section 1, when the document has one. *)
Definition section1 (content : string) : option string :=
  option_map m_text
    (search (section_re "## Section 1: Agent Invocation Evidence" "## Section 2:") content).

(** The agent has a row in the invocation table, as the check finds it. *)
Definition listed (section agent : string) : bool :=
  is_match (invoked_row_re agent) section.

(** The first row the check finds for the agent says YES. *)
Definition marked_yes (section agent : string) : bool :=
  match search (invoked_row_re agent) section with
  | Some m => String.eqb (m_group m 1) "YES"
  | None => false
  end.

(** The count of the check: the required agents whose first row says YES. *)
Definition invoked_count (section : string) : nat :=
  List.length (filter (marked_yes section) REQUIRED_AGENTS).

(** The section-extraction step of a check: [re.search] of the section's
    pattern, from its header to the next header or the end.  [None] is
    Python's [None], the answer for a header that is not found. *)
Definition extract_section (header next content : string) : option string :=
  option_map m_text (search (section_re ("## " ++ header) next) content).

(** The seven required sections: the header, where the section stops and
    the check that extracts it. *)
Definition section_checks
    : list (string * string * (string -> ValidationResult -> ValidationResult)) :=
  [ ("Section 1: Agent Invocation Evidence", "## Section 2:", check_agent_invocation);
    ("Section 2: Agent Responses", "## Section 3:",
     fun content result => fst (check_agent_responses content result));
    ("Section 3: Consolidated Checklist", "## Section 4:", check_consolidated_checklist);
    ("Section 4: Unresolved Issues", "## Section 5:", check_unresolved_issues);
    ("Section 5: Sign-offs", "## Section 6:", check_signoffs);
    ("Section 6: Gate Decision", "## Section 7:", check_gate_decision);
    ("Section 7: Validation", "## Document History", check_validation_section) ].

(** The decision Section 6 states. *)
Definition decision_of (section : string) : option string :=
  option_map (fun m => m_group m 1) (search decision_re section).

(** A sign-off row of the coordinating role that says REJECTED. *)
Inductive pm_rejected_row : string -> Prop :=
| PmRejectedRow (w1 w2 w3 w4 : string) :
    all_chars is_space w1 = true -> all_chars is_space w2 = true ->
    all_chars is_space w3 = true -> all_chars is_space w4 = true ->
    pm_rejected_row ("|" ++ w1 ++ "PM-Architect-Agent" ++ w2 ++ "|" ++ w3
                     ++ "REJECTED" ++ w4 ++ "|").

(** A row of the invocation table for [agent] that says [flag]: the cells
    between bars, with any whitespace around them. *)
Inductive agent_row (agent flag : string) : string -> Prop :=
| AgentRow (w1 w2 w3 w4 : string) :
    all_chars is_space w1 = true -> all_chars is_space w2 = true ->
    all_chars is_space w3 = true -> all_chars is_space w4 = true ->
    agent_row agent flag
      ("|" ++ w1 ++ agent ++ w2 ++ "|" ++ w3 ++ flag ++ w4 ++ "|").

(** The text has a row for [agent] that says [flag]. *)
Definition has_row (text agent flag : string) : Prop :=
  exists pre row post, text = pre ++ row ++ post /\ agent_row agent flag row.

(** The pattern of a row for [agent] that says [flag], to decide [has_row]
    on a given text. *)
Definition row_re (agent flag : string) : regex :=
  (Lit "|" +> ws +> Lit agent +> ws +> Lit "|" +> ws +> Lit flag +> ws +> Lit "|")%re.

(** ** Summaries, as the specification counts them *)

(** The text without the whitespace at its two ends. *)
Fixpoint drop_spaces (l : list ascii) : list ascii :=
  match l with
  | a :: l' => if is_space a then drop_spaces l' else l
  | [] => []
  end.

Definition trimmed (s : string) : string :=
  string_of_list_ascii
    (rev (drop_spaces (rev (drop_spaces (list_ascii_of_string s))))).

(** The normalized 100-character prefix of a summary. *)
Definition prefix100 (s : string) : string := String.substring 0 100 (trimmed s).

(** How many distinct prefixes the summaries have. *)
Definition distinct_prefixes (summaries : list string) : nat :=
  List.length (nodup string_dec (map prefix100 summaries)).

(** The distinct prefixes are fewer than half of the summaries, and there
    are more than 2 summaries. *)
Definition mostly_duplicates (summaries : list string) : bool :=
  (2 * distinct_prefixes summaries <? List.length summaries)
  && (2 <? List.length summaries).

(** The anomaly scan ran and found a CRITICAL anomaly. *)
Definition critical_anomaly (c : collaborators) : bool :=
  match anomaly_detector c with
  | Some anomalies => 0 <? count_severity SEVERITY_CRITICAL anomalies
  | None => false
  end.

(** [workflow --stage 5 --phase 2 --type output --skip-audit], with or
    without [--file]. *)
Definition stage5_phase2_output (gate_file : option string) : options :=
  mkOptions gate_file false false true.

(** The names of the steps, in the order of [run_gate_workflow]. *)
Definition step_names : list string :=
  [ "alert_check"; "checklist_auto_verify"; "validate_gate_record"; "user_signoff";
    "super_ai_audit"; "memory_query"; "anomaly_detection"; "memory_checkpoint";
    "secure_event_log" ].

(** The phase whose alerts the run looks at. *)
Definition next_phase (phase_ : N) (gate_type_ : string) : N :=
  if String.eqb gate_type_ "output" then (phase_ + 1)%N else phase_.

(** The alert check ran and reported that the transition is blocked. *)
Definition alert_blocked (c : collaborators) (o : options) (phase_ : N)
    (gate_type_ : string) : bool :=
  negb (skip_alerts o)
  && match check_blocking_alerts c (next_phase phase_ gate_type_) with
     | Done alert_status => negb (as_can_proceed alert_status)
     | Raises _ => false
     end.

(** The validation of the gate record, when the run asks for one: a gate
    record is given, it is there and [validate_gate] can be imported.  The
    test for the file raises when the file system refuses the name. *)
Definition record_validation (c : collaborators) (o : options)
    : option (outcome ValidationResult) :=
  match gate_file o with
  | None | Some EmptyString => None
  | Some path =>
      match stat_error (files c) path with
      | Some e => Some (Raises (Exn "OSError" e))
      | None =>
          if exists_ (files c) path && validate_gate_present c
          then Some (ValidateGate.validate_gate (files c) path)
          else None
      end
  end.

(** A gate record was given and it is absent, or it was validated and has
    errors. *)
Definition record_failed (c : collaborators) (o : options) : bool :=
  match gate_file o with
  | None | Some EmptyString => false
  | Some path =>
      match record_validation c o with
      | Some (Done validation) => negb (valid validation)
      | Some (Raises _) => false
      | None => negb (exists_ (files c) path)
      end
  end.

(** The sign-off check ran, sign-off is required and it is not verified. *)
Definition signoff_pending (c : collaborators) (o : options) (stage_ phase_ : N)
    (gate_type_ : string) : bool :=
  negb (skip_signoff o)
  && match check_signoff_status c stage_ phase_ gate_type_ with
     | Done signoff_status =>
         so_required signoff_status && negb (so_verified signoff_status)
     | Raises _ => false
     end.

(** The exception that stops the run: the one of the alert check, else of
    the validation of the gate record, else of the sign-off check; [None]
    when none of the three raises. *)
Definition aborted (c : collaborators) (o : options) (stage_ phase_ : N)
    (gate_type_ : string) : option exn :=
  match (if skip_alerts o then None
         else match check_blocking_alerts c (next_phase phase_ gate_type_) with
              | Raises e => Some e
              | Done _ => None
              end) with
  | Some e => Some e
  | None =>
      match record_validation c o with
      | Some (Raises e) => Some e
      | _ =>
          if skip_signoff o then None
          else match check_signoff_status c stage_ phase_ gate_type_ with
               | Raises e => Some e
               | Done _ => None
               end
      end
  end.

(** ** What keeps the reads of a run from raising *)

(** The alerts file reads to its end, and every line of it that parses is
    an object. *)
Definition objects_only (alerts_file : alerts_text) : bool :=
  match alerts_file with
  | Some lines =>
      forallb (fun line => match line with JObject _ => true | _ => false end) lines
  | None => true
  end.

(** The sign-off record can be read and, when it is JSON, is an object. *)
Definition signoff_readable (record : signoff_file) : bool :=
  match record with
  | SignoffUnreadable _ | SignoffNotObject _ => false
  | _ => true
  end.

(** The length of the run of decimal digits at the start of a text. *)
Fixpoint digit_run (s : string) : nat :=
  match s with
  | String a s' => if is_digit a then S (digit_run s') else 0
  | EmptyString => 0
  end.

(** The length of the longest run of decimal digits of a text. *)
Fixpoint longest_digit_run (s : string) : nat :=
  match s with
  | String _ s' => Nat.max (digit_run s) (longest_digit_run s')
  | EmptyString => 0
  end.

(** No number of the text has more digits than [int] accepts. *)
Definition numbers_within_limit (content : string) : bool :=
  longest_digit_run content <=? INT_MAX_STR_DIGITS.


(** The gate record of the run, when it is given and can be read, is an
    ASCII text. *)
Definition record_is_ascii (c : collaborators) (o : options) : Prop :=
  forall path content,
    gate_file o = Some path ->
    read_file (files c) path = inr content ->
    is_ascii content = true.

(** The value of a key is the string [t]. *)
Definition is_text (v : option value) (t : string) : bool :=
  match v with
  | Some (VStr s) => String.eqb s t
  | _ => false
  end.

(** An alert that is active and critical. *)
Definition is_blocking (a : alert) : bool :=
  is_text (a_status a) "active" && is_text (a_severity a) "critical".

(** The alerts of the file: its lines that are objects. *)
Definition alerts_read (alerts_file : alerts_text) : list alert :=
  match alerts_file with
  | Some lines =>
      flat_map (fun line => match line with JObject a => [a] | _ => [] end) lines
  | None => []
  end.

(** The check identifiers [execute_auto_checks] knows. *)
Definition known_checks : list string :=
  [ "git_checkpoint_exists"; "tests_pass"; "coverage_threshold"; "typescript_compiles";
    "coverage_not_decreased"; "vite_permissions"; "backend_healthy"; "e2e_tests_pass";
    "bundle_size"; "quality_checks" ].

(** A step that returns appends one record, with the name [name]. *)
Definition records (name : string) (f : workflow_result -> outcome workflow_result)
    : Prop :=
  forall r r', f r = Done r' -> map step (steps r') = (map step (steps r) ++ [name])%list.

(** A check that only appends to the lists of the result. *)
Definition extending (check : ValidationResult -> outcome ValidationResult) : Prop :=
  forall r r', check r = Done r' -> extends r r'.

Definition missing_section_msg (section : string) : string :=
  "Missing required section: '" ++ section ++ "'. "
  ++ "Copy from template: .claude-bus/templates/gate-validation-template.md".


(** The same files and clock, with another answer of git. *)
Definition with_git (w : world) (git : string -> run_outcome) : world :=
  mkWorld (fs w) (now w) git (stat_error w) (set_order w).

(** The text of the gate date, when the document has one. *)
Definition gate_date_text (content : string) : option string :=
  option_map (fun m => m_group m 1) (search date_re content).

Definition future_date_msg (date_text : string) : string :=
  "FABRICATION INDICATOR: Gate date " ++ date_text ++ " is in the future".

(** A step that, when it returns, has only appended to the steps and to
    the required actions. *)
Definition appending (f : workflow_result -> outcome workflow_result) : Prop :=
  forall r r', f r = Done r' ->
    exists ss acts,
      steps r' = (steps r ++ ss)%list
      /\ actions_required r' = (actions_required r ++ acts)%list.

(** The action the alert step asks for when it blocks. *)
Definition resolve_alerts_action : action :=
  mkAction "resolve_alerts"
    (Some "python3 .claude-bus/scripts/alert_manager.py list")
    (Some "Resolve critical alerts before proceeding") [].


(** The command the sign-off step asks the user to run. *)
Definition request_command (stage_ phase_ : N) (gate_type_ : string) : string :=
  "python3 .claude-bus/scripts/user_signoff.py request --stage "
  ++ of_N stage_ ++ " --phase " ++ of_N phase_ ++ " --type " ++ gate_type_.

End Spec.

(** ** Files of the alert store *)

Module AlertSpec.
Import Str Json AlertManager AlertStore.

(** The file that a sequence of runs of [main], each at its time, leaves. *)
Definition run_history (history : list (string * command)) (file : store) : store :=
  fold_left (fun file run => fst (main (fst run) (snd run) file)) history file.

(** The ids of the alerts of a file, in the order of the file. *)
Definition ids (alerts : list dict) : list (option string) :=
  map (get_str "id") alerts.

(** The id [create_alert_record] gives to the next alert of a file. *)
Definition next_id (file : store) : string :=
  alert_id (List.length (load_alerts file) + 1).

(** The alerts are numbered from 1 in the order of the file. *)
Definition numbered (alerts : list dict) : Prop :=
  ids alerts = map (fun k => Some (alert_id k)) (seq 1 (List.length alerts)).

End AlertSpec.

(* ====================================================================== *)
(** * Sample inputs *)
(* ====================================================================== *)

Module Samples.

Import Str Py Json Cal GateConfig World AlertManager GateWorkflow Spec.

(** A machine with no gate record on disk and no git, whose file system
    takes every name and whose sets keep the order of first occurrence. *)
Definition bare_world : world :=
  mkWorld (fun _ => None)
          (mkDatetime (mkDate 2025 12 14) 12 0 0 0)
          (fun _ => Raised)
          (fun _ => None)
          distinct.

Definition critical_alert : alert :=
  mkAlert (Some (VStr "notify-001")) (Some (VStr "critical")) (Some (VStr "active")).

(** One critical alert is active, no sign-off was requested, and none of
    the optional sibling modules or services is there. *)
Definition blocked_site : collaborators :=
  mkCollab bare_world true (Some [JObject critical_alert]) None
           (mkProbes (inr "git") NpmTimeout None (inr "refused"))
           true (fun _ _ _ => SignoffAbsent) AuditScriptMissing
           (inr "docker") (mkMemory "SKIP" "Memory query failed (service may be down)" 0 [])
           None None None.

(** Section 1 of a gate record, with a YES row for each of [agents]. *)
Definition row (agent flag : string) : string :=
  "| " ++ agent ++ " | " ++ flag ++ " |" ++ nl.

Definition invocation_record (agents : list string) : string :=
  "## Section 1: Agent Invocation Evidence" ++ nl
  ++ "**Invocation Timestamp**: 2025-12-14T10:00:00" ++ nl
  ++ "| Agent | Invoked |" ++ nl
  ++ String.concat "" (map (fun agent => row agent "YES") agents)
  ++ "## Section 2: Agent Responses" ++ nl.

Definition without (agent : string) (agents : list string) : list string :=
  filter (fun a => negb (String.eqb a agent)) agents.

(** The table with the row of QA-Agent removed. *)
Definition qa_row_removed : string :=
  invocation_record (without "QA-Agent" REQUIRED_AGENTS).

Definition section_text (content : string) : string :=
  match section1 content with
  | Some section => section
  | None => ""
  end.

(** Section 2 of a gate record, with one response per summary. *)
Definition response (agent summary : string) : string :=
  "### " ++ agent ++ " Response" ++ nl
  ++ "**Status**: OK" ++ nl
  ++ "**Summary**:" ++ nl
  ++ summary ++ nl ++ nl.

Definition responses_record (summaries : list string) : string :=
  "## Section 2: Agent Responses" ++ nl
  ++ String.concat ""
       (map (fun p => response (fst p) (snd p)) (combine REQUIRED_AGENTS summaries))
  ++ "## Section 3: Consolidated Checklist" ++ nl.

Definition reviewed : string := "All endpoints were reviewed and every test passes.".
Definition staged : string := "The user flows were checked on staging.".

Definition three_of_four_identical : string :=
  responses_record [reviewed; reviewed; reviewed; staged].

Definition four_identical : string :=
  responses_record [reviewed; reviewed; reviewed; reviewed].

Definition four_distinct : string :=
  responses_record [reviewed; staged; "Regression suite is green.";
                    "Index rebuilt and queries answered."].

(** A record whose decision is PASS although the coordinating role signed
    REJECTED; it has no Section 1. *)
Definition rejected_row : string := "| PM-Architect-Agent | REJECTED |".

Definition rejected_before : string := "## Section 5: Sign-offs" ++ nl.

Definition rejected_after : string :=
  nl ++ "## Section 6: Gate Decision" ++ nl ++ "**Decision**: PASS" ++ nl
     ++ "## Section 7: Validation" ++ nl.

Definition rejected_record : string :=
  rejected_before ++ rejected_row ++ rejected_after.

(** A machine whose only file is [file_path], with the text [content],
    last written on 14 December 2025. *)
Definition world_with (file_path content : string) : world :=
  mkWorld (fun p => if String.eqb p file_path
                    then Some (mkFile (N.of_nat (String.length content))
                                      (ReadText content) (mkDate 2025 12 14))
                    else None)
          (mkDatetime (mkDate 2025 12 14) 12 0 0 0)
          (fun _ => Raised)
          (fun _ => None)
          distinct.


Definition future_record : string := "**Date**: 2099-01-01" ++ nl.

(** A site whose checklist has one auto item, the backend health probe, and
    whose backend is down. *)
Definition backend_down_site : collaborators :=
  mkCollab bare_world true None
           (Some (fun _ _ => [mkItem "P4-01" "Backend is healthy" true "backend_healthy"]))
           (mkProbes (inr "git") NpmTimeout None (inr "refused"))
           true (fun _ _ _ => SignoffAbsent) AuditScriptMissing
           (inr "docker") (mkMemory "SKIP" "Memory query failed (service may be down)" 0 [])
           None None None.

(** A site with the files of [w] and the sign-off record [so], with no
    alert and none of the optional sibling modules or services. *)
Definition quiet_site (w : world) (so : signoff_file) : collaborators :=
  mkCollab w true None None
           (mkProbes (inr "git") NpmTimeout None (inr "refused"))
           true (fun _ _ _ => so) AuditScriptMissing
           (inr "docker") (mkMemory "SKIP" "Memory query failed (service may be down)" 0 [])
           None None None.

(** A sign-off record that the user verified. *)
Definition verified_signoff : signoff_file :=
  SignoffRecord (Some "VERIFIED") (Some "2025-12-14T10:00:00") None None.

(** A text of [n] digits. *)
Fixpoint ones (n : nat) : string :=
  match n with
  | 0 => ""
  | S n' => String "1" (ones n')
  end.

(** A record that states a gate type and a phase of 4301 digits. *)
Definition long_phase_record : string :=
  "**Gate Type**: Input" ++ nl ++ "**Phase**: " ++ ones 4301 ++ nl.

(** An invocation table that lists QA-Agent twice, and the same table with
    one of the two rows removed. *)
Definition table_before : string := "| Agent | Invoked |" ++ nl.

Definition table_after : string :=
  String.concat "" (map (fun agent => row agent "YES") REQUIRED_AGENTS).

Definition section_around (table : string) : string :=
  "## Section 1: Agent Invocation Evidence" ++ nl
  ++ "**Invocation Timestamp**: 2025-12-14T10:00:00" ++ nl
  ++ table
  ++ "## Section 2: Agent Responses" ++ nl.

Definition listed_twice : string :=
  section_around (table_before ++ row "QA-Agent" "YES" ++ table_after).

Definition one_row_removed : string :=
  section_around (table_before ++ table_after).

(** A site whose alerts file holds a critical alert and a line that is a
    JSON list. *)
Definition odd_alerts_site : collaborators :=
  mkCollab bare_world true (Some [JObject critical_alert; JOther "list"]) None
           (mkProbes (inr "git") NpmTimeout None (inr "refused"))
           true (fun _ _ _ => SignoffAbsent) AuditScriptMissing
           (inr "docker") (mkMemory "SKIP" "Memory query failed (service may be down)" 0 [])
           None None None.

End Samples.

(* ====================================================================== *)
(** * Properties *)
(* ====================================================================== *)

Module ReTests.
Import Str Re.
Local Open Scope re_scope.

Example search_lazy_section :
  option_map m_text
    (search (Lit "## A" +> lazy_star any +> Ahead (Lit "## B" <|> Eos))
            ("x## A body ## B rest")) = Some "## A body ".
Proof. reflexivity. Qed.

Example search_greedy_backtrack :
  option_map (fun m => m_group m 1)
    (search (Lit ":" +> ws +> Lit nl +> Grp 1 (lazy_plus any) +> Ahead (Lit (nl ++ nl) <|> Eos))
            ("S:  " ++ nl ++ nl ++ "text" ++ nl)) = Some "text".
Proof. reflexivity. Qed.

End ReTests.

(* ---------------------------------------------------------------------- *)
(** ** Strings *)
(* ---------------------------------------------------------------------- *)

Module StrProps.
Import Str.

Lemma append_nil_r (s : string) : s ++ "" = s.
Proof. induction s as [|a s IH]; cbn; [reflexivity | rewrite IH; reflexivity]. Qed.

Lemma append_assoc (a b c : string) : (a ++ b) ++ c = a ++ b ++ c.
Proof. induction a as [|x a IH]; cbn; [reflexivity | rewrite IH; reflexivity]. Qed.

Lemma length_append (a b : string) :
  String.length (a ++ b) = String.length a + String.length b.
Proof. induction a as [|x a IH]; cbn; [reflexivity | rewrite IH; reflexivity]. Qed.

Lemma take_append (w s : string) : take (String.length w) (w ++ s) = w.
Proof. induction w as [|a w IH]; cbn; [destruct s; reflexivity | rewrite IH; reflexivity]. Qed.

Lemma strip_prefix_append (l s : string) : strip_prefix l (l ++ s) = Some s.
Proof.
  induction l as [|a l IH]; cbn; [reflexivity|].
  rewrite Ascii.eqb_refl. exact IH.
Qed.

Lemma strip_prefix_sound (l : string) :
  forall s s', strip_prefix l s = Some s' -> s = l ++ s'.
Proof.
  induction l as [|a l IH]; intros s s' H; cbn in H.
  - injection H as ->. reflexivity.
  - destruct s as [|b s]; [discriminate|].
    destruct (Ascii.eqb a b) eqn:E; [|discriminate].
    apply Ascii.eqb_eq in E. subst b. cbn. f_equal. apply IH. exact H.
Qed.

(** [sub] occurs in [s]. *)
Lemma contains_occurs (sub pre post : string) :
  contains sub (pre ++ sub ++ post) = true.
Proof.
  induction pre as [|a pre IH].
  - cbn [append]. destruct (sub ++ post) eqn:E; cbn;
      rewrite <- E, strip_prefix_append; reflexivity.
  - cbn [append contains]. destruct (strip_prefix sub _); [reflexivity | exact IH].
Qed.

Lemma contains_sound (sub : string) :
  forall s, contains sub s = true -> exists pre post, s = pre ++ sub ++ post.
Proof.
  induction s as [|a s IH]; cbn; intro H.
  - destruct (strip_prefix sub "") eqn:E; [|discriminate].
    apply strip_prefix_sound in E. exists "", s. exact E.
  - destruct (strip_prefix sub (String a s)) eqn:E.
    + apply strip_prefix_sound in E. exists "", s0. exact E.
    + destruct (IH H) as (pre & post & ->). exists (String a pre), post. reflexivity.
Qed.

Lemma contains_longer (a b s : string) :
  contains b s = false -> contains (a ++ b) s = false.
Proof.
  intro H. destruct (contains (a ++ b) s) eqn:E; [|reflexivity].
  apply contains_sound in E as (pre & post & ->).
  rewrite append_assoc, <- (append_assoc pre a) in H.
  rewrite contains_occurs in H. discriminate H.
Qed.

End StrProps.

(* ---------------------------------------------------------------------- *)
(** ** The matcher is sound for the relation *)
(* ---------------------------------------------------------------------- *)

Module ReProps.
Import Str Re ReSpec StrProps.

Lemma or_else_some {A : Type} (x y : option A) (v : A) :
  or_else x y = Some v -> x = Some v \/ (x = None /\ y = Some v).
Proof. destruct x; cbn; intro H; [left | right]; auto. Qed.

Lemma within_pred (hi : option nat) (n : nat) :
  hi_open hi = true -> within (hi_pred hi) n -> within hi (S n).
Proof.
  destruct hi as [[|h]|]; cbn; intros Ho Hw; try discriminate; try lia; exact I.
Qed.

Lemma rep_greedy_sound {A : Type} (p : ascii -> bool) (k : string -> option A) (x : A) :
  forall s lo hi,
    rep_greedy p lo hi s k = Some x ->
    exists w s', s = w ++ s' /\ all_chars p w = true
                 /\ lo <= String.length w /\ within hi (String.length w)
                 /\ k s' = Some x.
Proof.
  assert (Hstop : forall s lo hi,
            match lo with 0 => k s | S _ => None end = Some x ->
            exists w s', s = w ++ s' /\ all_chars p w = true
                 /\ lo <= String.length w /\ within hi (String.length w)
                 /\ k s' = Some x).
  { intros s lo hi H. destruct lo; [|discriminate].
    exists "", s. repeat split; auto. destruct hi; cbn; [lia | exact I]. }
  induction s as [|a s IH]; intros lo hi H; cbn [rep_greedy] in H.
  - apply Hstop. exact H.
  - destruct (p a && hi_open hi) eqn:E.
    + apply andb_true_iff in E as [Hp Ho].
      apply or_else_some in H as [H | [_ H]]; [|apply Hstop; exact H].
      destruct (IH _ _ H) as (w & s' & -> & Hw & Hlo & Hhi & Hk).
      exists (String a w), s'. cbn. rewrite Hp, Hw.
      repeat split; auto; [lia | apply within_pred; assumption].
    + apply Hstop. exact H.
Qed.

Lemma rep_lazy_sound {A : Type} (p : ascii -> bool) (k : string -> option A) (x : A) :
  forall s lo hi,
    rep_lazy p lo hi s k = Some x ->
    exists w s', s = w ++ s' /\ all_chars p w = true
                 /\ lo <= String.length w /\ within hi (String.length w)
                 /\ k s' = Some x.
Proof.
  assert (Hstop : forall s hi, k s = Some x ->
            exists w s', s = w ++ s' /\ all_chars p w = true
                 /\ 0 <= String.length w /\ within hi (String.length w)
                 /\ k s' = Some x).
  { intros s hi H. exists "", s. repeat split; auto. destruct hi; cbn; [lia | exact I]. }
  induction s as [|a s IH]; intros lo hi H; cbn [rep_lazy] in H.
  - destruct lo; [apply Hstop; exact H | discriminate].
  - assert (Hmore : (if p a && hi_open hi then rep_lazy p (pred lo) (hi_pred hi) s k
                     else None) = Some x ->
            exists w s', String a s = w ++ s' /\ all_chars p w = true
                 /\ lo <= String.length w /\ within hi (String.length w)
                 /\ k s' = Some x).
    { intro Hm. destruct (p a && hi_open hi) eqn:E; [|discriminate].
      apply andb_true_iff in E as [Hp Ho].
      destruct (IH _ _ Hm) as (w & s' & -> & Hw & Hlo & Hhi & Hk).
      exists (String a w), s'. cbn. rewrite Hp, Hw.
      repeat split; auto; [lia | apply within_pred; assumption]. }
    destruct lo.
    + apply or_else_some in H as [H | [_ H]]; [apply Hstop; exact H | apply Hmore; exact H].
    + apply Hmore. exact H.
Qed.

(** Soundness of the matcher: an answer comes from a match the relation
    describes, handed to the continuation. *)
Theorem rmatch_sound (r : regex) :
  forall (A : Type) (s : string) (c : caps) (k : string -> caps -> option A) (x : A),
    rmatch r s c k = Some x ->
    exists s' c', denotes r s c s' c' /\ k s' c' = Some x.
Proof.
  induction r as [l | l | g lo hi p | r1 IH1 r2 IH2 | r1 IH1 r2 IH2 | r1 IH1
                 | n r1 IH1 | r1 IH1 |];
    intros A s c k x H; cbn [rmatch] in H; cbn [denotes].
  - destruct (strip_prefix l s) as [s'|] eqn:E; [|discriminate].
    apply strip_prefix_sound in E. exists s', c. auto.
  - destruct (strip_prefix_i l s) as [s'|] eqn:E; [|discriminate].
    exists s', c. auto.
  - destruct g.
    + apply rep_greedy_sound in H as (w & s' & Hs & Hw & Hlo & Hhi & Hk).
      exists s', c. split; [exists w; auto | exact Hk].
    + apply rep_lazy_sound in H as (w & s' & Hs & Hw & Hlo & Hhi & Hk).
      exists s', c. split; [exists w; auto | exact Hk].
  - apply IH1 in H as (sm & cm & H1 & H).
    apply IH2 in H as (s' & c' & H2 & Hk).
    exists s', c'. split; [exists sm, cm; auto | exact Hk].
  - apply or_else_some in H as [H | [_ H]].
    + apply IH1 in H as (s' & c' & H1 & Hk). exists s', c'. auto.
    + apply IH2 in H as (s' & c' & H2 & Hk). exists s', c'. auto.
  - apply or_else_some in H as [H | [_ H]].
    + apply IH1 in H as (s' & c' & H1 & Hk). exists s', c'. auto.
    + exists s, c. auto.
  - apply IH1 in H as (s' & c' & H1 & Hk).
    exists s', ((n, take (String.length s - String.length s') s) :: c').
    split; [exists c'; auto | exact Hk].
  - destruct (rmatch r1 s c (fun _ c' => Some c')) as [c'|] eqn:E; [|discriminate].
    apply IH1 in E as (s2 & c2 & H1 & Hk). injection Hk as ->.
    exists s, c'. split; [split; [reflexivity | exists s2; exact H1] | exact H].
  - destruct (at_end s) eqn:E; [|discriminate]. exists s, c. auto.
Qed.

(** What a match leaves is a suffix of the text. *)
Lemma strip_prefix_i_suffix (l : string) :
  forall s s', strip_prefix_i l s = Some s' -> exists w, s = w ++ s'.
Proof.
  induction l as [|a l IH]; intros s s' H; cbn in H.
  - injection H as ->. exists "". reflexivity.
  - destruct s as [|b s]; [discriminate|].
    destruct (Ascii.eqb (lower a) (lower b)); [|discriminate].
    destruct (IH _ _ H) as [w ->]. exists (String b w). reflexivity.
Qed.

Lemma denotes_suffix (r : regex) :
  forall s c s' c', denotes r s c s' c' -> exists w, s = w ++ s'.
Proof.
  induction r as [l | l | g lo hi p | r1 IH1 r2 IH2 | r1 IH1 r2 IH2 | r1 IH1
                 | n r1 IH1 | r1 IH1 |];
    intros s c s' c' H; cbn [denotes] in H.
  - destruct H as [-> _]. exists l. reflexivity.
  - destruct H as [H _]. eapply strip_prefix_i_suffix; exact H.
  - destruct H as (w & -> & _). exists w. reflexivity.
  - destruct H as (sm & cm & H1 & H2).
    apply IH1 in H1 as [w1 ->]. apply IH2 in H2 as [w2 ->].
    exists (w1 ++ w2). rewrite append_assoc. reflexivity.
  - destruct H as [H | H]; [eapply IH1 | eapply IH2]; exact H.
  - destruct H as [H | [-> _]]; [eapply IH1; exact H | exists ""; reflexivity].
  - destruct H as (c0 & H & _). eapply IH1; exact H.
  - destruct H as [-> _]. exists "". reflexivity.
  - destruct H as [-> _]. exists "". reflexivity.
Qed.

Lemma take_matched (w s' : string) :
  take (String.length (w ++ s') - String.length s') (w ++ s') = w.
Proof.
  rewrite length_append. replace (String.length w + String.length s' - String.length s')
    with (String.length w) by lia.
  apply take_append.
Qed.

End ReProps.

(* ---------------------------------------------------------------------- *)
(** ** re.search and re.findall *)
(* ---------------------------------------------------------------------- *)

Module SearchProps.
Import Str Re ReSpec StrProps ReProps.

(** [re.search] answers with a match at some position of the text. *)
Lemma search_from_sound (r : regex) :
  forall s before m,
    search_from r before s = Some m ->
    exists pre si,
      s = pre ++ si /\ m_before m = before ++ pre
      /\ match_here r si = Some (m_after m, m_caps m)
      /\ m_text m = take (String.length si - String.length (m_after m)) si.
Proof.
  induction s as [|a s IH]; intros before m H; cbn [search_from] in H.
  - destruct (match_here r "") as [[s' c]|] eqn:E; [|discriminate].
    injection H as <-. exists "", "". cbn. rewrite append_nil_r. auto.
  - destruct (match_here r (String a s)) as [[s' c]|] eqn:E.
    + injection H as <-. exists "", (String a s). cbn [m_before m_after m_caps m_text].
      rewrite append_nil_r. auto.
    + apply IH in H as (pre & si & -> & Hb & Hm & Ht).
      exists (String a pre), si. rewrite Hb, append_assoc. auto.
Qed.

Lemma search_sound (r : regex) (s : string) (m : rematch) :
  search r s = Some m ->
  exists si,
    s = m_before m ++ si
    /\ match_here r si = Some (m_after m, m_caps m)
    /\ m_text m = take (String.length si - String.length (m_after m)) si.
Proof.
  intro H. apply search_from_sound in H as (pre & si & -> & Hb & Hm & Ht).
  cbn in Hb. subst pre. exists si. auto.
Qed.

(** A match anywhere makes [re.search] answer. *)
Lemma search_from_complete (r : regex) (si : string) :
  match_here r si <> None ->
  forall pre bef, search_from r bef (pre ++ si) <> None.
Proof.
  intro Hm. induction pre as [|a pre IH]; intro bef.
  - cbn [append]. destruct si as [|b si]; cbn [search_from];
      destruct (match_here r _) as [[s' c]|]; congruence.
  - cbn [append search_from].
    destruct (match_here r (String a (pre ++ si))) as [[s' c]|]; [discriminate | apply IH].
Qed.

Lemma is_match_complete (r : regex) (pre si : string) :
  match_here r si <> None -> is_match r (pre ++ si) = true.
Proof.
  intro H. unfold is_match, search.
  pose proof (search_from_complete r si H pre "") as Hs.
  destruct (search_from r "" (pre ++ si)); [reflexivity | congruence].
Qed.

(** A pattern that starts with a literal is found only in a text that
    contains the literal. *)
Lemma search_literal_first (l : string) (r : regex) (s : string) (m : rematch) :
  search (Seq (Lit l) r) s = Some m ->
  contains l s = true /\ exists rest, m_text m = l ++ rest.
Proof.
  intro H. apply search_sound in H as (si & Hs & Hm & Ht).
  unfold match_here in Hm. apply rmatch_sound in Hm as (s' & c' & Hd & Hk).
  injection Hk as -> ->.
  pose proof (denotes_suffix _ _ _ _ _ Hd) as [w Hw].
  cbn [denotes] in Hd. destruct Hd as (sm & cm & [Hl _] & Hr).
  apply denotes_suffix in Hr as [w2 Hw2].
  split.
  - rewrite Hs, Hl. apply contains_occurs.
  - rewrite Ht, Hl, Hw2, <- append_assoc, take_matched. exists w2. reflexivity.
Qed.

Lemma search_literal_absent (l : string) (r : regex) (s : string) :
  contains l s = false -> search (Seq (Lit l) r) s = None.
Proof.
  intro H. destruct (search (Seq (Lit l) r) s) as [m|] eqn:E; [|reflexivity].
  apply search_literal_first in E as [E _]. congruence.
Qed.

(** Every element of [re.findall] is a match at some position. *)
Lemma findall_from_sound (r : regex) (t : string) (c : caps) :
  forall s skip,
    In (t, c) (findall_from r skip s) ->
    exists si s',
      match_here r si = Some (s', c)
      /\ t = take (String.length si - String.length s') si.
Proof.
  induction s as [|a s IH]; intros skip H.
  - destruct skip; cbn [findall_from] in H; [|contradiction].
    destruct (match_here r "") as [[s' c']|] eqn:E; [|contradiction].
    destruct H as [H | []]. injection H as <- <-. exists "", s'. auto.
  - destruct skip; cbn [findall_from] in H; [|eapply IH; exact H].
    destruct (match_here r (String a s)) as [[s' c']|] eqn:E; [|eapply IH; exact H].
    destruct H as [H | H]; [|eapply IH; exact H].
    injection H as <- <-. exists (String a s), s'. auto.
Qed.

(** ** Succeeding matches, for patterns made of literals and [\s*] *)

Lemma rmatch_lit (l s : string) {A : Type} (c : caps) (k : string -> caps -> option A) :
  rmatch (Lit l) (l ++ s) c k = k s c.
Proof. cbn [rmatch]. rewrite strip_prefix_append. reflexivity. Qed.

Lemma rep_greedy_stop {A : Type} (p : ascii -> bool) (hi : option nat) (s : string)
    (k : string -> option A) :
  k s <> None -> rep_greedy p 0 hi s k <> None.
Proof.
  intro H. destruct s as [|a s]; cbn [rep_greedy]; [exact H|].
  destruct (p a && hi_open hi); [|exact H].
  destruct (rep_greedy p (pred 0) (hi_pred hi) s k); cbn; [discriminate | exact H].
Qed.

Lemma rep_greedy_star {A : Type} (p : ascii -> bool) (w s : string)
    (k : string -> option A) :
  all_chars p w = true -> k s <> None -> rep_greedy p 0 None (w ++ s) k <> None.
Proof.
  intros Hw Hk. induction w as [|a w IH]; cbn [append].
  - apply rep_greedy_stop. exact Hk.
  - cbn in Hw. apply andb_true_iff in Hw as [Ha Hw].
    cbn [rep_greedy]. rewrite Ha. cbn [hi_open andb hi_pred option_map pred].
    specialize (IH Hw).
    destruct (rep_greedy p 0 None (w ++ s) k); cbn; [discriminate | congruence].
Qed.

Lemma rmatch_ws (w s : string) {A : Type} (c : caps) (k : string -> caps -> option A) :
  all_chars is_space w = true -> k s c <> None -> rmatch ws (w ++ s) c k <> None.
Proof.
  intros Hw Hk. unfold ws, star. cbn [rmatch].
  apply (rep_greedy_star is_space w s (fun s' => k s' c) Hw Hk).
Qed.

End SearchProps.

(* ---------------------------------------------------------------------- *)
(** ** validate_gate: validity and unreadable files *)
(* ---------------------------------------------------------------------- *)

Module ValidateGateProps.
Import Str Py Re Cal GateConfig World GateValidators ValidateGate Spec.
Import ReSpec StrProps ReProps SearchProps.


(** What [validate_gate] returns when [read_file] raises. *)
Lemma read_failure_shape (e : read_error) :
  exists msg, read_failure e = mkResult false [msg] [] [].
Proof.
  destruct e; eexists; reflexivity.
Qed.

(** A file that reads runs [check_required_sections], which leaves one
    entry per required section in [errors] or [info]. *)
Lemma required_sections_loop (content : string) (sections : list string) :
  forall r,
    List.length
      (errors (fold_left
         (fun result section =>
            if negb (contains section content)
            then add_error ("Missing required section: '" ++ section ++ "'. "
                            ++ "Copy from template: .claude-bus/templates/gate-validation-template.md")
                           result
            else add_info ("Found section: '" ++ section ++ "'") result)
         sections r))
    + List.length
        (info (fold_left
           (fun result section =>
              if negb (contains section content)
              then add_error ("Missing required section: '" ++ section ++ "'. "
                              ++ "Copy from template: .claude-bus/templates/gate-validation-template.md")
                             result
              else add_info ("Found section: '" ++ section ++ "'") result)
           sections r))
    = List.length (errors r) + List.length (info r) + List.length sections.
Proof.
  induction sections as [|h sections IH]; intro r; cbn [fold_left List.length].
  - lia.
  - rewrite IH. destruct (negb (contains h content));
      unfold add_error, add_info; cbn [errors info];
      rewrite length_app; cbn [List.length]; lia.
Qed.

Lemma required_sections_entries (content : string) (r : ValidationResult) :
  List.length (errors (check_required_sections content r))
  + List.length (info (check_required_sections content r))
  = List.length (errors r) + List.length (info r) + 7.
Proof.
  unfold check_required_sections.
  rewrite required_sections_loop. reflexivity.
Qed.

Lemma lstrip_all_space (s : string) :
  all_chars is_space s = true -> lstrip s = "".
Proof.
  induction s as [|a s IH]; simpl; [reflexivity|].
  intro H. apply andb_true_iff in H as [Ha Hs]. rewrite Ha. auto.
Qed.

Lemma strip_all_space (s : string) :
  all_chars is_space s = true -> strip s = "".
Proof.
  intro H. unfold strip. rewrite (lstrip_all_space s H). reflexivity.
Qed.

Lemma unreadable_read_file (w : world) (file_path : string) :
  unreadable w file_path -> exists e, read_file w file_path = inl e.
Proof.
  intros [H | f H Hsize | f d H Hr | f content H Hr Hb]; unfold read_file;
    (destruct (stat_error w file_path); [eexists; reflexivity|]); rewrite H.
  - eexists; reflexivity.
  - apply N.ltb_lt in Hsize. rewrite Hsize. eexists; reflexivity.
  - destruct (MAX_FILE_SIZE <? st_size f)%N; [eexists; reflexivity|].
    rewrite Hr. eexists; reflexivity.
  - destruct (MAX_FILE_SIZE <? st_size f)%N; [eexists; reflexivity|].
    rewrite Hr, (strip_all_space content Hb). eexists; reflexivity.
Qed.

(** *** Every check only appends to the three lists *)


Lemma extends_refl (r : ValidationResult) : extends r r.
Proof.
  exists [], [], []. repeat rewrite app_nil_r. auto.
Qed.

Lemma extends_trans (r1 r2 r3 : ValidationResult) :
  extends r1 r2 -> extends r2 r3 -> extends r1 r3.
Proof.
  intros (e & w & i & He & Hw & Hi) (e' & w' & i' & He' & Hw' & Hi').
  exists (e ++ e')%list, (w ++ w')%list, (i ++ i')%list.
  rewrite He', Hw', Hi', He, Hw, Hi. repeat rewrite app_assoc. auto.
Qed.

Lemma extends_add_error (m : string) (r : ValidationResult) : extends r (add_error m r).
Proof.
  exists [m], [], []. cbn. repeat rewrite app_nil_r. auto.
Qed.

Lemma extends_add_warning (m : string) (r : ValidationResult) :
  extends r (add_warning m r).
Proof.
  exists [], [m], []. cbn. repeat rewrite app_nil_r. auto.
Qed.

Lemma extends_add_info (m : string) (r : ValidationResult) : extends r (add_info m r).
Proof.
  exists [], [], [m]. cbn. repeat rewrite app_nil_r. auto.
Qed.

Lemma extends_fold {A : Type} (f : ValidationResult -> A -> ValidationResult)
    (l : list A) :
  (forall r x, extends r (f r x)) ->
  forall r, extends r (fold_left f l r).
Proof.
  intro Hf. induction l as [|x l IH]; intro r; cbn.
  - apply extends_refl.
  - eapply extends_trans; [apply Hf | apply IH].
Qed.

(** The same for a loop that carries a value next to the result. *)
Lemma extends_fold_snd {A B : Type} (f : B * ValidationResult -> A -> B * ValidationResult)
    (l : list A) :
  (forall b r x, extends r (snd (f (b, r) x))) ->
  forall b r, extends r (snd (fold_left f l (b, r))).
Proof.
  intro Hf. induction l as [|x l IH]; intros b r; cbn.
  - apply extends_refl.
  - specialize (Hf b r x). destruct (f (b, r) x) as [b' r'].
    eapply extends_trans; [apply Hf | apply IH].
Qed.

Lemma extends_fold_fst {A B : Type} (f : ValidationResult * B -> A -> ValidationResult * B)
    (l : list A) :
  (forall b r x, extends r (fst (f (r, b) x))) ->
  forall b r, extends r (fst (fold_left f l (r, b))).
Proof.
  intro Hf. induction l as [|x l IH]; intros b r; cbn.
  - apply extends_refl.
  - specialize (Hf b r x). destruct (f (r, b) x) as [r' b'].
    eapply extends_trans; [apply Hf | apply IH].
Qed.

(** Peels one layer of a check: an append, a branch, a loop. *)
Ltac extends_step :=
  match goal with
  | |- extends ?r ?r => apply extends_refl
  | H : extends ?r ?v |- extends ?r ?v => exact H
  | |- extends ?r (fst (match ?x with _ => _ end)) =>
      lazymatch type of x with
      | (ValidationResult * _)%type =>
          let H := fresh "Hx" in
          assert (H : extends r (fst x)); [| destruct x; cbn [fst] in H]
      end
  | |- extends _ (add_error _ _) => eapply extends_trans; [| apply extends_add_error]
  | |- extends _ (add_warning _ _) => eapply extends_trans; [| apply extends_add_warning]
  | |- extends _ (add_info _ _) => eapply extends_trans; [| apply extends_add_info]
  | |- extends _ (fold_left _ _ _) =>
      eapply extends_trans; [| apply extends_fold; intros]
  | |- extends _ (snd (fold_left _ _ (_, _))) =>
      eapply extends_trans; [| apply extends_fold_snd; intros]
  | |- extends _ (fst (fold_left _ _ (_, _))) =>
      eapply extends_trans; [| apply extends_fold_fst; intros]
  | |- extends _ (fst (_, _)) => cbn [fst]
  | |- extends _ (snd (_, _)) => cbn [snd]
  | |- extends _ (fst (if ?c then _ else _)) => destruct c
  | |- extends _ (snd (if ?c then _ else _)) => destruct c
  | |- extends _ (fst (match ?x with _ => _ end)) => destruct x
  | |- extends _ (snd (match ?x with _ => _ end)) => destruct x
  | |- extends _ (if ?c then _ else _) => destruct c
  | |- extends _ (match ?x with _ => _ end) => destruct x
  end.

Ltac extends_auto := cbv zeta; repeat extends_step.

Lemma check_required_sections_extends content r :
  extends r (check_required_sections content r).
Proof. unfold check_required_sections. extends_auto. Qed.

Lemma check_metadata_extends w content r : extends r (check_metadata w content r).
Proof. unfold check_metadata. extends_auto. Qed.

Lemma count_agent_extends section n r agent :
  extends r (snd (count_agent section (n, r) agent)).
Proof. unfold count_agent. extends_auto. Qed.

Lemma check_agent_invocation_extends content r :
  extends r (check_agent_invocation content r).
Proof.
  unfold check_agent_invocation.
  destruct (search _ content) as [m|]; [|extends_auto].
  cbv zeta.
  match goal with
  | |- context [fold_left ?f ?l (0, ?r0)] =>
      pose proof (extends_fold_snd f l (count_agent_extends (m_text m)) 0 r0) as H;
      destruct (fold_left f l (0, r0)) as [n r1]
  end.
  cbn [snd] in H.
  assert (H0 : extends r r1) by (eapply extends_trans; [|exact H]; extends_auto).
  clear H. repeat (extends_step; try exact H0).
Qed.

Lemma check_response_extends section b r agent :
  extends r (fst (check_response section (r, b) agent)).
Proof. unfold check_response. extends_auto. Qed.

Lemma check_agent_responses_extends content r :
  extends r (fst (check_agent_responses content r)).
Proof.
  unfold check_agent_responses.
  destruct (search _ content) as [m|]; [|extends_auto].
  apply extends_fold_fst. intros. apply check_response_extends.
Qed.

Lemma check_row_extends n r row : extends r (snd (check_row (n, r) row)).
Proof. unfold check_row. extends_auto. Qed.

Lemma check_consolidated_checklist_extends content r :
  extends r (check_consolidated_checklist content r).
Proof.
  unfold check_consolidated_checklist. extends_auto; apply check_row_extends.
Qed.

Lemma check_unresolved_issues_extends content r :
  extends r (check_unresolved_issues content r).
Proof. unfold check_unresolved_issues. extends_auto. Qed.

Lemma check_signoffs_extends content r : extends r (check_signoffs content r).
Proof. unfold check_signoffs. extends_auto. Qed.

Lemma check_gate_decision_extends content r : extends r (check_gate_decision content r).
Proof. unfold check_gate_decision. extends_auto. Qed.

Lemma check_validation_section_extends content r :
  extends r (check_validation_section content r).
Proof. unfold check_validation_section. extends_auto. Qed.

Lemma check_unfilled_placeholders_extends w content r :
  extends r (check_unfilled_placeholders w content r).
Proof. unfold check_unfilled_placeholders. extends_auto. Qed.

Lemma check_timestamp_consistency_extends w content file_path r :
  extends r (check_timestamp_consistency w content file_path r).
Proof. unfold check_timestamp_consistency. extends_auto. Qed.

Lemma check_content_integrity_extends content r :
  extends r (check_content_integrity content r).
Proof. unfold check_content_integrity. extends_auto. Qed.

Lemma check_sequential_consistency_extends w content :
  extending (check_sequential_consistency w content).
Proof.
  intros r r'. unfold check_sequential_consistency.
  repeat match goal with
         | |- context [match ?x with _ => _ end] => destruct x
         | |- context [if ?b then _ else _] => destruct b
         end;
    intro H; try discriminate H; injection H as <-;
    first [apply extends_refl | apply extends_add_warning].
Qed.

Lemma check_git_checkpoint_extends w content :
  extending (check_git_checkpoint w content).
Proof.
  intros r r'. unfold check_git_checkpoint.
  repeat match goal with
         | |- context [match ?x with _ => _ end] => destruct x
         | |- context [if ?b then _ else _] => destruct b
         end;
    intro H; try discriminate H; injection H as <-;
    first [apply extends_refl | apply extends_add_warning | apply extends_add_info].
Qed.

Lemma total_extending (check : ValidationResult -> ValidationResult) :
  (forall r, extends r (check r)) -> extending (total check).
Proof.
  intros H r r' E. unfold total in E. injection E as <-. apply H.
Qed.

Lemma checks_extending (w : world) (file_path content : string) :
  Forall extending (checks w file_path content).
Proof.
  unfold checks.
  repeat constructor;
    first [ apply check_sequential_consistency_extends
          | apply check_git_checkpoint_extends
          | apply total_extending; intro r;
            first [ apply check_required_sections_extends
                  | apply check_metadata_extends
                  | apply check_agent_invocation_extends
                  | apply check_agent_responses_extends
                  | apply check_consolidated_checklist_extends
                  | apply check_unresolved_issues_extends
                  | apply check_signoffs_extends
                  | apply check_gate_decision_extends
                  | apply check_validation_section_extends
                  | apply check_unfilled_placeholders_extends
                  | apply check_timestamp_consistency_extends
                  | apply check_content_integrity_extends ] ].
Qed.

(** A run of checks that only append leaves a result that extends the one
    it started from, also when a check stopped it. *)
Lemma run_extends (l : list (ValidationResult -> outcome ValidationResult)) :
  Forall extending l -> forall r, extends r (fst (run l r)).
Proof.
  induction 1 as [|check l Hc Hl IH]; intro r; cbn [run].
  - apply extends_refl.
  - destruct (check r) as [r'|e] eqn:E; [|apply extends_refl].
    eapply extends_trans; [apply (Hc r r' E) | apply IH].
Qed.

Lemma run_checks_extends w file_path content r :
  extends (check_required_sections content r) (fst (run_checks w file_path content r)).
Proof.
  pose proof (checks_extending w file_path content) as H.
  unfold run_checks. unfold checks in *. cbn [run]. unfold total at 1.
  inversion H as [|c l _ Hl]; subst.
  apply (run_extends _ Hl).
Qed.

(** *** When the checks raise nothing *)











(** What [validate_gate] returns, when it does, of a file that reads. *)
Lemma validate_gate_returned (w : world) (file_path content : string)
    (r : ValidationResult) :
  read_file w file_path = inr content ->
  validate_gate w file_path = Done r ->
  r = set_valid
        (List.length (errors (fst (run_checks w file_path content new_result))) =? 0)
        (fst (run_checks w file_path content new_result)).
Proof.
  intros Hread H. unfold validate_gate in H. rewrite Hread in H.
  destruct (run_checks w file_path content new_result) as [r0 [e|]];
    [discriminate H | injection H as <-; reflexivity].
Qed.

(** The validity of a result that is returned. *)
Lemma validate_gate_valid_shape (w : world) (file_path : string) :
  (forall r, validate_gate w file_path = Done r ->
             valid r = (List.length (errors r) =? 0))
  /\ (forall e, read_file w file_path = inl e ->
                exists r, validate_gate w file_path = Done r).
Proof.
  split.
  - intros r H. unfold validate_gate in H.
    destruct (read_file w file_path) as [e | content].
    + injection H as <-. destruct (read_failure_shape e) as [msg ->]. reflexivity.
    + destruct (run_checks w file_path content new_result) as [r0 [e|]];
        [discriminate H|].
      injection H as <-. reflexivity.
  - intros e H. unfold validate_gate. rewrite H. eauto.
Qed.



(** A record on which [validate_gate] returns: it reads, is ASCII and
    states no long number, and the result has errors and is invalid. *)
Example validate_gate_returns_on_sample :
  read_file (Samples.world_with "gate.md" Samples.rejected_record) "gate.md"
  = inr Samples.rejected_record
  /\ is_ascii Samples.rejected_record = true
  /\ numbers_within_limit Samples.rejected_record = true
  /\ exists r,
       validate_gate (Samples.world_with "gate.md" Samples.rejected_record) "gate.md"
       = Done r
       /\ valid r = false
       /\ Nat.eqb (List.length (errors r)) 0 = false.
Proof.
  split; [vm_compute; reflexivity|].
  split; [vm_compute; reflexivity|].
  split; [vm_compute; reflexivity|].
  eexists. split; [vm_compute; reflexivity|]. split; reflexivity.
Qed.

(** C9: for a path that does not exist, a file over 1,000,000 bytes, a file
    that is not UTF-8 or a file that is empty or all whitespace,
    [validate_gate] raises nothing and returns the result of the early
    return: [valid = false], exactly one error, no warning and no info.  No
    per-section check ran: had the checks run, on any content and from any
    result, [errors] and [info] would hold seven entries or more, one per
    required section, also in a run that a later check stops. *)
Theorem validate_gate_unreadable (w : world) (file_path : string) :
  unreadable w file_path ->
  exists msg,
    validate_gate w file_path = Done (mkResult false [msg] [] [])
    /\ forall content r,
         7 <= List.length (errors (fst (run_checks w file_path content r)))
              + List.length (info (fst (run_checks w file_path content r))).
Proof.
  intro H. destruct (unreadable_read_file w file_path H) as [e He].
  unfold validate_gate. rewrite He.
  destruct (read_failure_shape e) as [msg ->].
  exists msg. split; [reflexivity|].
  intros content r.
  destruct (run_checks_extends w file_path content r) as (e' & w' & i' & -> & _ & ->).
  repeat rewrite length_app.
  pose proof (required_sections_entries content r). lia.
Qed.

End ValidateGateProps.

(* ---------------------------------------------------------------------- *)
(** ** run_gate_workflow: the verdict flag and the blocked run *)
(* ---------------------------------------------------------------------- *)

Module GateWorkflowProps.
Import Str Py Json GateConfig World AlertManager GateWorkflow Spec.

(** Splits on the tests a step makes, innermost first. *)
Ltac split_tests :=
  repeat match goal with
         | |- context [if ?c then _ else _] =>
             lazymatch c with
             | context [if _ then _ else _] => fail
             | context [match _ with _ => _ end] => fail
             | _ => destruct c eqn:?
             end
         | |- context [match ?x with _ => _ end] =>
             lazymatch x with
             | context [if _ then _ else _] => fail
             | context [match _ with _ => _ end] => fail
             | _ => destruct x eqn:?
             end
         end.

(** Settles a goal about what a step returned, one case of the step at a
    time. *)
Ltac returned H :=
  revert H; split_tests; intro H; try discriminate H; injection H as <-.

Lemma finish_done {A : Type} (p : A * option exn) (a : A) :
  finish p = Done a -> p = (a, None).
Proof.
  destruct p as [a' [e|]]; cbn; intro H; [discriminate H | injection H as <-; reflexivity].
Qed.

Lemma finish_raises {A : Type} (p : A * option exn) (e : exn) :
  finish p = Raises e -> snd p = Some e.
Proof.
  destruct p as [a' [e'|]]; cbn; intro H; [injection H as <-; reflexivity | discriminate H].
Qed.

Section Sticky.

Variable c : collaborators.
Variable o : options.
Variables (stage_ phase_ : N) (gate_type_ : string).

Lemma silent_sticky f : silent f -> sticky (total f).
Proof.
  intros H r r' E Hr. unfold total in E. injection E as <-.
  destruct (H r) as [_ ->]. exact Hr.
Qed.

Lemma step_checklist_silent : silent (step_checklist c stage_ phase_ gate_type_).
Proof.
  intro r. unfold step_checklist. split_tests; cbn; auto.
Qed.

Lemma step_super_ai_audit_silent : silent (step_super_ai_audit c o phase_ gate_type_).
Proof.
  intro r. unfold step_super_ai_audit. split_tests; cbn; auto.
Qed.

Lemma step_memory_query_silent : silent (step_memory_query c).
Proof.
  intro r. unfold step_memory_query. split_tests; cbn; auto.
Qed.

Lemma step_memory_checkpoint_silent : silent (step_memory_checkpoint c phase_ gate_type_).
Proof.
  intro r. unfold step_memory_checkpoint. split_tests; cbn; auto.
Qed.

Lemma step_secure_event_log_silent : silent (step_secure_event_log c).
Proof.
  intro r. unfold step_secure_event_log. split_tests; cbn; auto.
Qed.

Lemma step_alert_check_sticky : sticky (step_alert_check c o phase_ gate_type_).
Proof.
  intros r r' H Hr. unfold step_alert_check in H. returned H; cbn; auto.
Qed.

Lemma step_validate_gate_record_sticky : sticky (step_validate_gate_record c o).
Proof.
  intros r r' H Hr. unfold step_validate_gate_record in H. returned H; cbn; auto.
Qed.

Lemma step_user_signoff_sticky : sticky (step_user_signoff c o stage_ phase_ gate_type_).
Proof.
  intros r r' H Hr. unfold step_user_signoff in H. returned H; cbn; auto.
Qed.

Lemma step_anomaly_detection_sticky : sticky (total (step_anomaly_detection c)).
Proof.
  intros r r' H Hr. unfold total, step_anomaly_detection in H. returned H; cbn; auto.
Qed.

Lemma workflow_steps_sticky :
  Forall sticky (workflow_steps c o stage_ phase_ gate_type_).
Proof.
  unfold workflow_steps.
  repeat constructor;
    first [ apply step_alert_check_sticky
          | apply step_validate_gate_record_sticky
          | apply step_user_signoff_sticky
          | apply step_anomaly_detection_sticky
          | apply silent_sticky;
            first [ apply step_checklist_silent
                  | apply step_super_ai_audit_silent
                  | apply step_memory_query_silent
                  | apply step_memory_checkpoint_silent
                  | apply step_secure_event_log_silent ] ].
Qed.

(** Along a run of sticky steps, every state reached after a false
    [can_proceed] has a false [can_proceed]. *)
Lemma run_trace_sticky (l : list (workflow_result -> outcome workflow_result)) :
  Forall sticky l ->
  forall r, can_proceed r = false ->
  forall j rj, nth_error (run_trace l r) j = Some rj -> can_proceed rj = false.
Proof.
  induction 1 as [|f l Hf Hl IH]; intros r Hr j rj Hj.
  - destruct j as [|[|j]]; cbn in Hj; try discriminate. congruence.
  - destruct j as [|j]; cbn in Hj.
    + congruence.
    + destruct (f r) as [r'|e] eqn:E.
      * eapply IH; [eapply Hf; [exact E | exact Hr] | exact Hj].
      * destruct j; discriminate Hj.
Qed.

Lemma run_trace_later (l : list (workflow_result -> outcome workflow_result)) :
  Forall sticky l ->
  forall r i j ri rj,
    i < j ->
    nth_error (run_trace l r) i = Some ri ->
    nth_error (run_trace l r) j = Some rj ->
    can_proceed ri = false -> can_proceed rj = false.
Proof.
  induction 1 as [|f l Hf Hl IH]; intros r i j ri rj Hij Hi Hj Hfalse.
  - destruct j as [|[|j]]; cbn in Hj; try discriminate; lia.
  - destruct j as [|j]; [lia|].
    cbn [run_trace nth_error] in Hj.
    destruct (f r) as [r'|e] eqn:E; [|destruct j; discriminate Hj].
    destruct i as [|i]; cbn [run_trace nth_error] in Hi.
    + injection Hi as <-.
      eapply (run_trace_sticky l Hl r'); [eapply Hf; [exact E | exact Hfalse] | exact Hj].
    + rewrite E in Hi. eapply (IH r' i j); eauto; lia.
Qed.

Lemma run_trace_after_first (f : workflow_result -> outcome workflow_result)
    (l : list (workflow_result -> outcome workflow_result)) (r r1 : workflow_result) :
  f r = Done r1 -> Forall sticky l -> can_proceed r1 = false ->
  forall j rj, 1 <= j ->
    nth_error (run_trace (f :: l) r) j = Some rj -> can_proceed rj = false.
Proof.
  intros E Hl H1 j rj Hj Hnth. destruct j as [|j]; [lia|].
  cbn [run_trace nth_error] in Hnth. rewrite E in Hnth.
  exact (run_trace_sticky l Hl r1 H1 j rj Hnth).
Qed.

(** The run reaches the start and at most one state a step. *)
Lemma run_trace_length (l : list (workflow_result -> outcome workflow_result)) r :
  1 <= List.length (run_trace l r) <= S (List.length l).
Proof.
  revert r. induction l as [|f l IH]; intro r; cbn [run_trace List.length]; [lia|].
  destruct (f r) as [r'|e]; [specialize (IH r'); lia | cbn; lia].
Qed.

(** The last state the run reaches is the one [run] leaves. *)
Lemma run_trace_last (l : list (workflow_result -> outcome workflow_result)) r :
  nth_error (run_trace l r) (List.length (run_trace l r) - 1) = Some (fst (run l r)).
Proof.
  revert r. induction l as [|f l IH]; intro r; cbn [run_trace run List.length].
  - reflexivity.
  - destruct (f r) as [r'|e]; [|reflexivity].
    pose proof (run_trace_length l r') as Hlen. specialize (IH r').
    replace (S (List.length (run_trace l r')) - 1)
      with (S (List.length (run_trace l r') - 1)) by lia.
    exact IH.
Qed.

(** A run that no step stops reaches a state after every step. *)
Lemma run_trace_full (l : list (workflow_result -> outcome workflow_result)) r :
  snd (run l r) = None -> List.length (run_trace l r) = S (List.length l).
Proof.
  revert r. induction l as [|f l IH]; intro r; cbn [run_trace run List.length]; [reflexivity|].
  destruct (f r) as [r'|e]; [|discriminate].
  intro H. rewrite (IH r' H). reflexivity.
Qed.

(** The run of the nine steps, written out. *)
Lemma run_steps_shape (r0 : workflow_result) :
  run_steps (workflow_steps c o stage_ phase_ gate_type_) r0
  = match step_alert_check c o phase_ gate_type_ r0 with
    | Raises e => (r0, Some e)
    | Done r1 =>
        match step_validate_gate_record c o
                (step_checklist c stage_ phase_ gate_type_ r1) with
        | Raises e => (step_checklist c stage_ phase_ gate_type_ r1, Some e)
        | Done r3 =>
            match step_user_signoff c o stage_ phase_ gate_type_ r3 with
            | Raises e => (r3, Some e)
            | Done r4 =>
                (step_secure_event_log c
                   (step_memory_checkpoint c phase_ gate_type_
                      (step_anomaly_detection c
                         (step_memory_query c
                            (step_super_ai_audit c o phase_ gate_type_ r4)))),
                 None)
            end
        end
    end.
Proof.
  unfold run_steps, workflow_steps. cbn [run]. unfold total.
  destruct (step_alert_check c o phase_ gate_type_ r0); [|reflexivity].
  destruct (step_validate_gate_record c o _); [|reflexivity].
  destruct (step_user_signoff c o stage_ phase_ gate_type_ _); reflexivity.
Qed.

(** *** Which steps raise *)

Lemma step_alert_check_outcome (r : workflow_result) :
  match (if skip_alerts o then None
         else match check_blocking_alerts c (next_phase phase_ gate_type_) with
              | Raises e => Some e
              | Done _ => None
              end) with
  | Some e => step_alert_check c o phase_ gate_type_ r = Raises e
  | None => exists r', step_alert_check c o phase_ gate_type_ r = Done r'
  end.
Proof.
  unfold step_alert_check, next_phase. split_tests; eauto.
Qed.

Lemma step_validate_gate_record_outcome (r : workflow_result) :
  match record_validation c o with
  | Some (Raises e) => step_validate_gate_record c o r = Raises e
  | _ => exists r', step_validate_gate_record c o r = Done r'
  end.
Proof.
  unfold step_validate_gate_record, record_validation, path_exists.
  destruct (gate_file o) as [[|a path]|]; [eauto | | eauto].
  destruct (stat_error (files c) (String a path)); [reflexivity|].
  destruct (exists_ (files c) (String a path)); cbn [andb negb]; [|eauto].
  destruct (validate_gate_present c); cbn [negb]; [|eauto].
  destruct (ValidateGate.validate_gate (files c) (String a path)) as [v|e]; [|reflexivity].
  destruct (valid v); eauto.
Qed.

Lemma step_user_signoff_outcome (r : workflow_result) :
  match (if skip_signoff o then None
         else match check_signoff_status c stage_ phase_ gate_type_ with
              | Raises e => Some e
              | Done _ => None
              end) with
  | Some e => step_user_signoff c o stage_ phase_ gate_type_ r = Raises e
  | None => exists r', step_user_signoff c o stage_ phase_ gate_type_ r = Done r'
  end.
Proof.
  unfold step_user_signoff. split_tests; eauto.
Qed.

(** The run stops exactly when the alert check, the validation of the gate
    record or the sign-off check raises, with the exception of the first
    that does; otherwise it returns the result object it leaves. *)
Lemma run_gate_workflow_outcome :
  run_gate_workflow c o stage_ phase_ gate_type_
  = match aborted c o stage_ phase_ gate_type_ with
    | Some e => Raises e
    | None =>
        Done (fst (run_steps (workflow_steps c o stage_ phase_ gate_type_)
                     (initial_result stage_ phase_ gate_type_)))
    end.
Proof.
  unfold run_gate_workflow. rewrite run_steps_shape. unfold aborted.
  pose proof (step_alert_check_outcome (initial_result stage_ phase_ gate_type_)) as H0.
  destruct (if skip_alerts o then None else _) as [e|]; [rewrite H0; reflexivity|].
  destruct H0 as [r1 ->].
  pose proof (step_validate_gate_record_outcome
                (step_checklist c stage_ phase_ gate_type_ r1)) as H2.
  assert (Hcases : (exists e, record_validation c o = Some (Raises e))
                   \/ (forall e, record_validation c o <> Some (Raises e))).
  { destruct (record_validation c o) as [[v|e]|];
      [right; discriminate | left; eauto | right; discriminate]. }
  destruct Hcases as [[e He] | Hnone].
  - rewrite He in *. rewrite H2. reflexivity.
  - assert (H2' : exists r3, step_validate_gate_record c o
                               (step_checklist c stage_ phase_ gate_type_ r1) = Done r3).
    { destruct (record_validation c o) as [[v|e]|]; [exact H2 | | exact H2].
      exfalso. exact (Hnone e eq_refl). }
    destruct H2' as [r3 ->].
    pose proof (step_user_signoff_outcome r3) as H3.
    assert (Hsame : match record_validation c o with
                    | Some (Raises e) => Some e
                    | _ => if skip_signoff o then None
                           else match check_signoff_status c stage_ phase_ gate_type_ with
                                | Raises e => Some e
                                | Done _ => None
                                end
                    end
                    = (if skip_signoff o then None
                       else match check_signoff_status c stage_ phase_ gate_type_ with
                            | Raises e => Some e
                            | Done _ => None
                            end)).
    { destruct (record_validation c o) as [[v|e]|]; try reflexivity.
      exfalso. exact (Hnone e eq_refl). }
    rewrite Hsame.
    destruct (if skip_signoff o then None else _) as [e|]; [rewrite H3; reflexivity|].
    destruct H3 as [r4 ->]. reflexivity.
Qed.

Lemma run_gate_workflow_returned (r : workflow_result) :
  run_gate_workflow c o stage_ phase_ gate_type_ = Done r ->
  r = fst (run_steps (workflow_steps c o stage_ phase_ gate_type_)
             (initial_result stage_ phase_ gate_type_))
  /\ snd (run_steps (workflow_steps c o stage_ phase_ gate_type_)
            (initial_result stage_ phase_ gate_type_)) = None.
Proof.
  intro H. unfold run_gate_workflow in H. apply finish_done in H. rewrite H. auto.
Qed.

End Sticky.

(** *** The run of [--stage 5 --phase 2 --type output --skip-audit] under a
    critical alert *)

Lemma unverified_is_required (c : collaborators) (stage_ phase_ : N) (gate_type_ : string)
    (s : signoff_status) :
  check_signoff_status c stage_ phase_ gate_type_ = Done s ->
  so_verified s = false -> so_required s = true.
Proof.
  unfold check_signoff_status. intro H. returned H; cbn; congruence.
Qed.

Lemma step_alert_check_blocked (c : collaborators) (o : options) (phase_ : N)
    (gate_type_ : string) (report : alert_status) (r : workflow_result) :
  skip_alerts o = false ->
  check_blocking_alerts c (next_phase phase_ gate_type_) = Done report ->
  as_can_proceed report = false ->
  step_alert_check c o phase_ gate_type_ r
  = Done (add_action resolve_alerts_action
            (set_can_proceed false
               (set_status "BLOCKED"
                  (add_step (mkStep "alert_check" "BLOCKED" (as_message report)
                               (map id_or_unknown (as_alerts report))) r)))).
Proof.
  intros Hskip Hreport Hblock. unfold step_alert_check, next_phase in *.
  rewrite Hskip, Hreport, Hblock. reflexivity.
Qed.

Lemma step_user_signoff_pending (c : collaborators) (o : options) (stage_ phase_ : N)
    (gate_type_ : string) (s : signoff_status) (r r' : workflow_result) :
  skip_signoff o = false ->
  check_signoff_status c stage_ phase_ gate_type_ = Done s ->
  so_verified s = false ->
  step_user_signoff c o stage_ phase_ gate_type_ r = Done r' ->
  status r' = "PENDING" /\ can_proceed r' = false.
Proof.
  intros Hskip Hs Hver. unfold step_user_signoff.
  rewrite Hskip, Hs, (unverified_is_required _ _ _ _ _ Hs Hver), Hver. cbn [negb].
  destruct (so_token s); intro H; injection H as <-; cbn; auto.
Qed.

Lemma step_anomaly_detection_effect (c : collaborators) (r : workflow_result) :
  status (step_anomaly_detection c r)
  = (if critical_anomaly c then "FAIL" else status r)
  /\ can_proceed (step_anomaly_detection c r)
     = (if critical_anomaly c then false else can_proceed r).
Proof.
  unfold step_anomaly_detection, critical_anomaly.
  destruct (anomaly_detector c) as [l|]; [|cbn; auto].
  destruct (0 <? count_severity SEVERITY_CRITICAL l); [cbn; auto|].
  destruct (0 <? count_severity SEVERITY_HIGH l); cbn; auto.
Qed.

(** Of the steps after the sign-off only the anomaly scan writes a status. *)
Lemma status_after_signoff (c : collaborators) (o : options) (phase_ : N)
    (gate_type_ : string) (r : workflow_result) :
  status (step_secure_event_log c
            (step_memory_checkpoint c phase_ gate_type_
               (step_anomaly_detection c
                  (step_memory_query c (step_super_ai_audit c o phase_ gate_type_ r)))))
  = (if critical_anomaly c then "FAIL" else status r).
Proof.
  rewrite (proj1 (step_secure_event_log_silent c _)).
  rewrite (proj1 (step_memory_checkpoint_silent c _ _ _)).
  rewrite (proj1 (step_anomaly_detection_effect c _)).
  rewrite (proj1 (step_memory_query_silent c _)).
  rewrite (proj1 (step_super_ai_audit_silent c _ _ _ _)).
  reflexivity.
Qed.

(** A sign-off record that is not a verified one is not reported verified. *)
Lemma unverified_record (c : collaborators) (stage_ phase_ : N) (gate_type_ : string)
    (s : signoff_status) :
  requires_user_signoff phase_ gate_type_ = true ->
  (forall verified_at token expires_at,
     signoff c stage_ phase_ gate_type_
     <> SignoffRecord (Some "VERIFIED") verified_at token expires_at) ->
  check_signoff_status c stage_ phase_ gate_type_ = Done s ->
  so_verified s = false.
Proof.
  intros Hreq Hnot. unfold check_signoff_status. rewrite Hreq. cbn [negb].
  destruct (signoff c stage_ phase_ gate_type_) as [|e| |t|st va tk ex] eqn:E;
    intro H; try discriminate H; try (injection H as <-; reflexivity).
  destruct (is_value st "VERIFIED") eqn:Ev; [|injection H as <-; reflexivity].
  exfalso. destruct st as [x|]; [|discriminate Ev].
  cbn in Ev. apply String.eqb_eq in Ev. subst x.
  exact (Hnot va tk ex eq_refl).
Qed.

(** C3: in every invocation of [run_gate_workflow], for steps [i < j] of the
    fixed sequence that the run reaches, a [can_proceed] that is false
    after step [i] is false after step [j]: once false, always false, up to
    the result object the run leaves, which is the result returned when
    the run returns one. *)
Theorem can_proceed_once_false_always_false
    (c : collaborators) (o : options) (stage_ phase_ : N) (gate_type_ : string)
    (i j : nat) (ri rj : workflow_result) :
  i < j ->
  nth_error (workflow_trace c o stage_ phase_ gate_type_) i = Some ri ->
  nth_error (workflow_trace c o stage_ phase_ gate_type_) j = Some rj ->
  can_proceed ri = false ->
  can_proceed rj = false
  /\ can_proceed (fst (run_steps (workflow_steps c o stage_ phase_ gate_type_)
                         (initial_result stage_ phase_ gate_type_))) = false
  /\ forall r, run_gate_workflow c o stage_ phase_ gate_type_ = Done r ->
               can_proceed r = false.
Proof.
  intros Hij Hi Hj Hfalse.
  pose proof (workflow_steps_sticky c o stage_ phase_ gate_type_) as Hs.
  assert (Hrj : can_proceed rj = false).
  { exact (run_trace_later _ Hs _ i j ri rj Hij Hi Hj Hfalse). }
  assert (Hend : can_proceed (fst (run_steps (workflow_steps c o stage_ phase_ gate_type_)
                                     (initial_result stage_ phase_ gate_type_))) = false).
  { unfold workflow_trace in Hi, Hj. unfold run_steps.
    set (l := workflow_steps c o stage_ phase_ gate_type_) in *.
    set (r0 := initial_result stage_ phase_ gate_type_) in *.
    clearbody l r0.
    pose proof (run_trace_last l r0) as Hlast.
    assert (Hlen : j < List.length (run_trace l r0)).
    { apply nth_error_Some. congruence. }
    assert (Hcase : j < List.length (run_trace l r0) - 1
                    \/ j = List.length (run_trace l r0) - 1) by lia.
    destruct Hcase as [Hlt | Heq].
    - exact (run_trace_later l Hs r0 j _ rj _ Hlt Hj Hlast Hrj).
    - rewrite <- Heq, Hj in Hlast. injection Hlast as <-. exact Hrj. }
  split; [exact Hrj | split; [exact Hend|]].
  intros r Hr. apply run_gate_workflow_returned in Hr as [-> _]. exact Hend.
Qed.

(** C2, as the code has it: with a blocking report of the alert check and
    no verified sign-off record, the run of stage 5, phase 2, output, audit
    skipped, on an ASCII gate record when one is given, records the
    [alert_check] step as BLOCKED, with the status BLOCKED and
    [can_proceed] false, and keeps [can_proceed] false in every state it
    reaches after that step, also through the sign-off step that reports
    PENDING.  The status of the result returned is the last one
    written: PENDING with exit code 2, or FAIL with exit code 1 when the
    anomaly scan finds a critical anomaly.  The run returns unless the
    validation of the gate record or the sign-off check raises; then the
    process ends with exit code 1.  The exit code is never 3. *)
Theorem blocked_alert_then_pending_signoff
    (c : collaborators) (gate_file : option string) (report : alert_status) :
  record_is_ascii c (stage5_phase2_output gate_file) ->
  check_blocking_alerts c 3 = Done report ->
  as_can_proceed report = false ->
  (forall verified_at token expires_at,
     signoff c 5 2 "output"
     <> SignoffRecord (Some "VERIFIED") verified_at token expires_at) ->
  (exists r1,
     step_alert_check c (stage5_phase2_output gate_file) 2 "output"
       (initial_result 5 2 "output") = Done r1
     /\ steps r1 = [mkStep "alert_check" "BLOCKED" (as_message report)
                      (map id_or_unknown (as_alerts report))]
     /\ status r1 = "BLOCKED"
     /\ can_proceed r1 = false)
  /\ (forall j rj, 1 <= j ->
        nth_error (workflow_trace c (stage5_phase2_output gate_file) 5 2 "output") j
        = Some rj ->
        can_proceed rj = false)
  /\ match aborted c (stage5_phase2_output gate_file) 5 2 "output" with
     | Some e =>
         run_gate_workflow c (stage5_phase2_output gate_file) 5 2 "output" = Raises e
     | None =>
         exists r,
           run_gate_workflow c (stage5_phase2_output gate_file) 5 2 "output" = Done r
           /\ can_proceed r = false
           /\ status r = (if critical_anomaly c then "FAIL" else "PENDING")
           /\ exit_code r = (if critical_anomaly c then 1 else 2)
     end
  /\ main_exit_code (run_gate_workflow c (stage5_phase2_output gate_file) 5 2 "output")
     = match aborted c (stage5_phase2_output gate_file) 5 2 "output" with
       | Some _ => 1
       | None => if critical_anomaly c then 1 else 2
       end
  /\ Nat.eqb (main_exit_code
                (run_gate_workflow c (stage5_phase2_output gate_file) 5 2 "output")) 3
     = false.
Proof.
  intros _ Hreport Hblock Hnot.
  set (o := stage5_phase2_output gate_file).
  pose proof (step_alert_check_blocked c o 2 "output" report (initial_result 5 2 "output")
                eq_refl Hreport Hblock) as H1.
  assert (Htrace : forall j rj, 1 <= j ->
            nth_error (workflow_trace c o 5 2 "output") j = Some rj ->
            can_proceed rj = false).
  { intros j rj Hj Hnth.
    pose proof (workflow_steps_sticky c o 5 2 "output") as Hs.
    unfold workflow_trace in Hnth. unfold workflow_steps in Hs, Hnth.
    inversion Hs as [|f l _ Hl]; subst.
    exact (run_trace_after_first _ _ _ _ H1 Hl eq_refl j rj Hj Hnth). }
  assert (Hrun : match aborted c o 5 2 "output" with
                 | Some e => run_gate_workflow c o 5 2 "output" = Raises e
                 | None =>
                     exists r,
                       run_gate_workflow c o 5 2 "output" = Done r
                       /\ can_proceed r = false
                       /\ status r = (if critical_anomaly c then "FAIL" else "PENDING")
                       /\ exit_code r = (if critical_anomaly c then 1 else 2)
                 end).
  { pose proof (run_gate_workflow_outcome c o 5 2 "output") as Hout.
    destruct (aborted c o 5 2 "output") as [e|] eqn:Ea; [exact Hout|].
    eexists. split; [exact Hout|].
    assert (Hfull : snd (run_steps (workflow_steps c o 5 2 "output")
                           (initial_result 5 2 "output")) = None).
    { unfold run_gate_workflow in Hout. apply finish_done in Hout.
      rewrite Hout. reflexivity. }
    assert (Hcp : can_proceed (fst (run_steps (workflow_steps c o 5 2 "output")
                                      (initial_result 5 2 "output"))) = false).
    { apply (Htrace (List.length (workflow_trace c o 5 2 "output") - 1)).
      - unfold workflow_trace. rewrite (run_trace_full _ _ Hfull). cbn. lia.
      - apply run_trace_last. }
    assert (Hst : status (fst (run_steps (workflow_steps c o 5 2 "output")
                                 (initial_result 5 2 "output")))
                  = (if critical_anomaly c then "FAIL" else "PENDING")).
    { revert Hfull. rewrite run_steps_shape, H1.
      destruct (step_validate_gate_record c o _) as [r3|e]; [|discriminate].
      destruct (step_user_signoff c o 5 2 "output" r3) as [r4|e] eqn:E4; [|discriminate].
      intros _. cbn [fst]. rewrite status_after_signoff.
      assert (Hs : exists s, check_signoff_status c 5 2 "output" = Done s).
      { unfold step_user_signoff in E4. cbn [o stage5_phase2_output skip_signoff] in E4.
        destruct (check_signoff_status c 5 2 "output") as [s|e]; [eauto | discriminate]. }
      destruct Hs as [s Hs].
      pose proof (unverified_record c 5 2 "output" s eq_refl Hnot Hs) as Hver.
      destruct (step_user_signoff_pending c o 5 2 "output" s r3 r4 eq_refl Hs Hver E4)
        as [-> _].
      reflexivity. }
    split; [exact Hcp | split; [exact Hst|]].
    unfold exit_code. rewrite Hst. destruct (critical_anomaly c); reflexivity. }
  assert (Hexit : main_exit_code (run_gate_workflow c o 5 2 "output")
                  = match aborted c o 5 2 "output" with
                    | Some _ => 1
                    | None => if critical_anomaly c then 1 else 2
                    end).
  { destruct (aborted c o 5 2 "output") as [e|].
    - rewrite Hrun. reflexivity.
    - destruct Hrun as (r & -> & _ & _ & Hx). exact Hx. }
  split; [|split; [exact Htrace | split; [exact Hrun | split; [exact Hexit|]]]].
  - eexists. split; [exact H1|]. cbn. auto.
  - rewrite Hexit. destruct (aborted c o 5 2 "output"); [reflexivity|].
    destruct (critical_anomaly c); reflexivity.
Qed.

Lemma blocked_alert_then_pending_signoff_witness :
  Nat.eqb (main_exit_code
             (run_gate_workflow Samples.blocked_site (stage5_phase2_output None)
                5 2 "output")) 3 = false.
Proof.
  refine (proj2 (proj2 (proj2 (proj2
           (blocked_alert_then_pending_signoff Samples.blocked_site None _ _ _ _ _))))).
  - intros path content H. discriminate H.
  - reflexivity.
  - reflexivity.
  - intros verified_at token expires_at H. discriminate H.
Defined.

(** C2 as the specification words it fails: under a critical alert and
    with no sign-off on record, the run returns a result with status
    PENDING and the process ends with exit code 2, not BLOCKED and 3. *)
Lemma blocked_status_overwritten :
  (exists report,
     check_blocking_alerts Samples.blocked_site 3 = Done report
     /\ as_can_proceed report = false)
  /\ signoff Samples.blocked_site 5 2 "output" = SignoffAbsent
  /\ exists r,
       run_gate_workflow Samples.blocked_site (stage5_phase2_output None) 5 2 "output"
       = Done r
       /\ status r = "PENDING"
       /\ String.eqb (status r) "BLOCKED" = false
       /\ exit_code r = 2
       /\ Nat.eqb (main_exit_code (Done r)) 3 = false
       /\ can_proceed r = false.
Proof.
  split; [eexists; split; reflexivity|].
  split; [reflexivity|].
  eexists. split; [vm_compute; reflexivity|]. vm_compute. repeat split.
Qed.

Lemma can_proceed_once_false_always_false_witness :
  can_proceed (fst (run_steps (workflow_steps Samples.blocked_site
                                 (stage5_phase2_output None) 5 2 "output")
                      (initial_result 5 2 "output"))) = false.
Proof.
  refine (proj1 (proj2 (can_proceed_once_false_always_false Samples.blocked_site
                          (stage5_phase2_output None) 5 2 "output" 1 4 _ _ _ _ _ _))).
  - lia.
  - reflexivity.
  - reflexivity.
  - reflexivity.
Defined.

End GateWorkflowProps.

(* ---------------------------------------------------------------------- *)
(** ** check_agent_invocation, section extraction, check_gate_decision *)
(* ---------------------------------------------------------------------- *)

Module AgentInvocationProps.
Import Str Re ReSpec Cal GateConfig World GateValidators Spec.
Import StrProps ReProps SearchProps.

(** The loop over the agents counts the rows marked YES and reports the
    agents without a row, in order. *)
Lemma count_agent_fold (section : string) (l : list string) :
  forall n r,
    fold_left (count_agent section) l (n, r)
    = (n + List.length (filter (marked_yes section) l),
       mkResult (valid r)
         (errors r ++ map not_listed_msg
                        (filter (fun a => negb (listed section a)) l))%list
         (warnings r) (info r)).
Proof.
  induction l as [|a l IH]; intros n r.
  - cbn. rewrite Nat.add_0_r, app_nil_r. destruct r; reflexivity.
  - cbn [fold_left filter].
    unfold count_agent at 2, marked_yes at 1, listed at 1, is_match.
    destruct (search (invoked_row_re a) section) as [m|]; cbn [negb map].
    + destruct (String.eqb (m_group m 1) "YES"); rewrite IH; cbn [List.length];
        [rewrite <- Nat.add_assoc |]; reflexivity.
    + rewrite IH. cbn [add_error valid errors warnings info map].
      rewrite <- app_assoc. reflexivity.
Qed.

Lemma filter_length_le {A : Type} (f : A -> bool) (l : list A) :
  List.length (filter f l) <= List.length l.
Proof.
  induction l as [|a l IH]; cbn; [lia|]. destruct (f a); cbn; lia.
Qed.

Lemma filter_length_lt {A : Type} (f : A -> bool) (l : list A) (x : A) :
  In x l -> f x = false -> List.length (filter f l) < List.length l.
Proof.
  induction l as [|a l IH]; cbn; intros Hin Hx; [contradiction|].
  destruct Hin as [-> | Hin].
  - rewrite Hx. pose proof (filter_length_le f l). lia.
  - specialize (IH Hin Hx). destruct (f a); cbn; lia.
Qed.

Lemma invoked_count_le (section : string) : invoked_count section <= 6.
Proof.
  unfold invoked_count. apply (filter_length_le (marked_yes section) REQUIRED_AGENTS).
Qed.

(** What [check_agent_invocation] appends when Section 1 parses: the
    timestamp error if any, one error per agent without a row, the blocking
    error when fewer than 6 rows say YES, the unchecked-items error if any. *)
Lemma check_agent_invocation_errors (content section : string) (r : ValidationResult) :
  section1 content = Some section ->
  exists before after,
    errors (check_agent_invocation content r)
    = (errors r ++ before
       ++ map not_listed_msg (filter (fun a => negb (listed section a)) REQUIRED_AGENTS)
       ++ (if invoked_count section <? 6
           then [only_invoked_msg (invoked_count section)] else [])
       ++ after)%list.
Proof.
  unfold section1, check_agent_invocation. intro Hsec.
  destruct (search _ content) as [m|]; [|discriminate].
  cbn in Hsec. injection Hsec as ->.
  cbv zeta.
  match goal with
  | |- context [fold_left _ _ (0, ?r0)] => set (r1 := r0)
  end.
  assert (Hr1 : exists before, errors r1 = (errors r ++ before)%list).
  { subst r1. destruct (search invocation_timestamp_re section) as [t|].
    - destruct (fromisoformat (m_group t 1)).
      + exists []. rewrite app_nil_r. reflexivity.
      + eexists. reflexivity.
    - eexists. reflexivity. }
  destruct Hr1 as [before Hbefore].
  rewrite count_agent_fold. cbn [Nat.add]. fold (invoked_count section).
  exists before.
  exists (if 0 <? count "[ ]" section
          then ["Unchecked verification items in Section 1 ("
                ++ of_nat (count "[ ]" section) ++ " items)"]
          else []).
  destruct (invoked_count section <? 6);
    destruct (0 <? count "[ ]" section);
    cbn [add_error errors valid warnings info];
    rewrite Hbefore; repeat rewrite <- app_assoc; cbn [app];
    repeat rewrite app_nil_r; reflexivity.
Qed.

(** *** Rows of the table, as the pattern of the check finds them *)

(** The row the check finds for an agent is a row of the table for that
    agent, and says what the check reads in it. *)
Lemma invoked_row_found (section agent : string) (m : rematch) :
  search (invoked_row_re agent) section = Some m ->
  exists flag,
    (flag = "YES" \/ flag = "NO")
    /\ m_group m 1 = flag
    /\ has_row section agent flag.
Proof.
  intro H. apply search_sound in H as (si & Hs & Hm & _).
  unfold match_here in Hm.
  apply rmatch_sound in Hm as (s' & c' & Hd & Hk). injection Hk as Hs' Hc'.
  unfold invoked_row_re in Hd. cbn [denotes] in Hd.
  destruct Hd as (s1 & c1 & [H1 ->] & s2 & c2 & Hw1 & s3 & c3 & [H3 ->]
                  & s4 & c4 & Hw2 & s5 & c5 & [H5 ->] & s6 & c6 & Hw3
                  & s7 & c7 & (c0 & Halt & ->) & s8 & c8 & Hw4 & [H8 ->]).
  unfold ws, star in Hw1, Hw2, Hw3, Hw4. cbn [denotes] in Hw1, Hw2, Hw3, Hw4.
  destruct Hw1 as (w1 & Hs1 & Hsp1 & _ & _ & ->).
  destruct Hw2 as (w2 & Hs3 & Hsp2 & _ & _ & ->).
  destruct Hw3 as (w3 & Hs5 & Hsp3 & _ & _ & ->).
  destruct Hw4 as (w4 & Hs7 & Hsp4 & _ & _ & ->).
  assert (Hflag : exists flag, (flag = "YES" \/ flag = "NO") /\ s6 = flag ++ s7 /\ c0 = []).
  { destruct Halt as [[E ->] | [E ->]]; [exists "YES" | exists "NO"]; auto. }
  destruct Hflag as (flag & Hyn & Hs6 & ->).
  exists flag. split; [exact Hyn|]. split.
  - unfold m_group. rewrite <- Hc'. cbn [group Nat.eqb].
    rewrite Hs6. apply take_matched.
  - exists (m_before m), ("|" ++ w1 ++ agent ++ w2 ++ "|" ++ w3 ++ flag ++ w4 ++ "|"), s'.
    split; [|constructor; assumption].
    rewrite Hs, H1, Hs1, H3, Hs3, H5, Hs5, Hs6, Hs7, H8.
    repeat rewrite append_assoc. reflexivity.
Qed.

(** A row of the table for an agent is found by its pattern. *)
Lemma has_row_matches (text agent flag : string) :
  has_row text agent flag -> is_match (row_re agent flag) text = true.
Proof.
  intros (pre & row & post & -> & [w1 w2 w3 w4 H1 H2 H3 H4]).
  apply is_match_complete.
  repeat rewrite append_assoc.
  unfold match_here, row_re.
  do 9 (cbn [rmatch];
        first [ rewrite strip_prefix_append
              | apply rmatch_ws; [assumption|] ]).
  discriminate.
Qed.

Lemma marked_yes_has_row (section agent : string) :
  marked_yes section agent = true -> has_row section agent "YES".
Proof.
  unfold marked_yes. intro H.
  destruct (search (invoked_row_re agent) section) as [m|] eqn:E; [|discriminate H].
  apply invoked_row_found in E as (flag & _ & Hg & Hrow).
  apply String.eqb_eq in H. rewrite Hg in H. rewrite H in Hrow. exact Hrow.
Qed.

Lemma listed_has_row (section agent : string) :
  listed section agent = true ->
  has_row section agent "YES" \/ has_row section agent "NO".
Proof.
  unfold listed, is_match. intro H.
  destruct (search (invoked_row_re agent) section) as [m|] eqn:E; [|discriminate H].
  apply invoked_row_found in E as (flag & [-> | ->] & _ & Hrow); auto.
Qed.

(** An agent whose row does not say YES brings the count under 6. *)
Lemma not_yes_invoked_count (section agent : string) :
  In agent REQUIRED_AGENTS -> marked_yes section agent = false ->
  invoked_count section < 6.
Proof.
  intros Hin Hno. unfold invoked_count.
  apply (filter_length_lt (marked_yes section) REQUIRED_AGENTS agent Hin Hno).
Qed.

Lemma no_yes_row_invoked_count (section agent : string) :
  In agent REQUIRED_AGENTS -> ~ has_row section agent "YES" ->
  invoked_count section < 6.
Proof.
  intros Hin Hno. apply (not_yes_invoked_count section agent Hin).
  destruct (marked_yes section agent) eqn:E; [|reflexivity].
  exfalso. apply Hno. apply marked_yes_has_row. exact E.
Qed.


(** C6, as the code has it: when Section 1 of an ASCII record parses and the
    invocation table has no row left for one required agent, neither one
    that says YES nor one that says NO, the check appends two errors or
    more: that the agent is not listed, and the blocking "Only N/6 agents
    invoked" with an N under 6. *)
Theorem missing_row_two_errors (content section agent : string) (r : ValidationResult) :
  is_ascii content = true ->
  section1 content = Some section ->
  In agent REQUIRED_AGENTS ->
  ~ has_row section agent "YES" ->
  ~ has_row section agent "NO" ->
  In ("Agent '" ++ agent ++ "' not listed in invocation table")
     (errors (check_agent_invocation content r))
  /\ (exists n,
        n < 6
        /\ In ("BLOCKING: Only " ++ of_nat n ++ "/6 agents invoked. G-001 requires ALL 6.")
              (errors (check_agent_invocation content r)))
  /\ List.length (errors r) + 2
     <= List.length (errors (check_agent_invocation content r)).
Proof.
  intros _ Hsec Hin Hyes Hno.
  assert (Hlisted : listed section agent = false).
  { destruct (listed section agent) eqn:E; [|reflexivity].
    exfalso. destruct (listed_has_row section agent E); auto. }
  pose proof (no_yes_row_invoked_count section agent Hin Hyes) as Hlt.
  destruct (check_agent_invocation_errors content section r Hsec)
    as (before & after & ->).
  assert (Hmem : In (not_listed_msg agent)
                   (map not_listed_msg
                      (filter (fun a => negb (listed section a)) REQUIRED_AGENTS))).
  { apply in_map. apply filter_In. split; [exact Hin | rewrite Hlisted; reflexivity]. }
  split; [|split].
  - apply in_or_app. right. apply in_or_app. right. apply in_or_app. left. exact Hmem.
  - exists (invoked_count section). split; [exact Hlt|].
    apply Nat.ltb_lt in Hlt. rewrite Hlt.
    apply in_or_app. right. apply in_or_app. right. apply in_or_app. right.
    left. reflexivity.
  - apply Nat.ltb_lt in Hlt. rewrite Hlt.
    repeat rewrite length_app. cbn [List.length].
    assert (1 <= List.length (map not_listed_msg
                      (filter (fun a => negb (listed section a)) REQUIRED_AGENTS))).
    { destruct (map not_listed_msg _); [contradiction | cbn; lia]. }
    lia.
Qed.

(** C6 as the specification words it fails: this ASCII record has a Section
    1 that parses and a table with a row marked YES for each of the 6
    required agents, two of them for QA-Agent; with one of the two rows
    removed the check appends no error at all, since the row that is left
    is found. *)
Lemma duplicate_row_removed_no_error :
  is_ascii Samples.listed_twice = true
  /\ section1 Samples.listed_twice = Some (Samples.section_text Samples.listed_twice)
  /\ Forall (fun agent => has_row (Samples.section_text Samples.listed_twice) agent "YES")
            REQUIRED_AGENTS
  /\ agent_row "QA-Agent" "YES" "| QA-Agent | YES |"
  /\ (exists pre post,
        Samples.listed_twice = pre ++ "| QA-Agent | YES |" ++ nl ++ post
        /\ Samples.one_row_removed = pre ++ post)
  /\ section1 Samples.one_row_removed
     = Some (Samples.section_text Samples.one_row_removed)
  /\ errors (check_agent_invocation Samples.one_row_removed new_result) = [].
Proof.
  split; [vm_compute; reflexivity|].
  split; [vm_compute; reflexivity|].
  split; [repeat constructor; apply marked_yes_has_row; vm_compute; reflexivity|].
  split; [exact (AgentRow "QA-Agent" "YES" " " " " " " " " eq_refl eq_refl eq_refl eq_refl)|].
  split.
  - exists ("## Section 1: Agent Invocation Evidence" ++ nl
            ++ "**Invocation Timestamp**: 2025-12-14T10:00:00" ++ nl
            ++ Samples.table_before),
           (Samples.table_after ++ "## Section 2: Agent Responses" ++ nl).
    split; vm_compute; reflexivity.
  - split; vm_compute; reflexivity.
Qed.

End AgentInvocationProps.

(* ---------------------------------------------------------------------- *)
(** ** The section-extraction step of the checks *)
(* ---------------------------------------------------------------------- *)

Module SectionProps.
Import Str Re Cal GateConfig World GateValidators Spec StrProps ReProps SearchProps.

Example section_checks_headers : map (fun x => fst (fst x)) section_checks = REQUIRED_SECTIONS.
Proof. reflexivity. Qed.

Lemma section_absent (header next content : string) :
  contains header content = false ->
  search (section_re ("## " ++ header) next) content = None.
Proof.
  intro H. unfold section_re. apply search_literal_absent.
  apply contains_longer. exact H.
Qed.

Lemma section_present (header next content text : string) :
  extract_section header next content = Some text ->
  exists rest, text = "## " ++ header ++ rest.
Proof.
  unfold extract_section, section_re. intro H.
  destruct (search _ content) as [m|] eqn:E; [|discriminate].
  cbn in H. injection H as <-.
  apply search_literal_first in E as [_ [rest ->]].
  exists rest. rewrite append_assoc. reflexivity.
Qed.

(** C8: when a required section header is not found in the document, the
    section-extraction step of its check yields no match, [None], never a
    text, while a section that is found is never the empty text; the check
    reports "Cannot parse" for it and does nothing else. *)
Theorem missing_header_yields_none
    (content header next : string)
    (check : string -> ValidationResult -> ValidationResult) (r : ValidationResult) :
  In (header, next, check) section_checks ->
  contains header content = false ->
  extract_section header next content = None
  /\ check content r = add_error ("Cannot parse " ++ header) r
  /\ forall other text,
       extract_section header next other = Some text ->
       exists rest, text = "## " ++ header ++ rest.
Proof.
  intros Hin Habsent.
  pose proof (section_absent header next content Habsent) as Hnone.
  split; [unfold extract_section; rewrite Hnone; reflexivity|].
  split; [|intros other text; apply section_present].
  unfold section_checks in Hin. cbn [In] in Hin.
  repeat destruct Hin as [Hin | Hin]; try contradiction;
    injection Hin as <- <- <-; cbn [append] in Hnone.
  - unfold check_agent_invocation. rewrite Hnone. reflexivity.
  - unfold check_agent_responses. rewrite Hnone. reflexivity.
  - unfold check_consolidated_checklist. rewrite Hnone. reflexivity.
  - unfold check_unresolved_issues. rewrite Hnone. reflexivity.
  - unfold check_signoffs. rewrite Hnone. reflexivity.
  - unfold check_gate_decision. rewrite Hnone. reflexivity.
  - unfold check_validation_section. rewrite Hnone. reflexivity.
Qed.

End SectionProps.

(* ---------------------------------------------------------------------- *)
(** ** check_gate_decision: the cross-validation *)
(* ---------------------------------------------------------------------- *)

Module GateDecisionProps.
Import Str Re Cal GateConfig World GateValidators Spec StrProps ReProps SearchProps.

(** One step of a match along a row: a literal met, or whitespace passed. *)
Ltac row_step :=
  cbn [rmatch];
  first [ rewrite strip_prefix_append
        | apply rmatch_ws; [assumption|] ].

Lemma pm_rejected_row_matches (row post : string) :
  pm_rejected_row row -> match_here pm_rejected_re (row ++ post) <> None.
Proof.
  intros [w1 w2 w3 w4 H1 H2 H3 H4].
  repeat rewrite append_assoc.
  unfold match_here, pm_rejected_re.
  do 9 row_step. discriminate.
Qed.

(** C7: when Section 6 of an ASCII record parses and its Decision is PASS,
    a REJECTED sign-off row of PM-Architect-Agent anywhere in the document
    makes [check_gate_decision] append the inconsistency error, and nothing
    else. *)
Theorem pass_with_rejected_signoff_is_inconsistent
    (content section pre row post : string) (r : ValidationResult) :
  is_ascii content = true ->
  extract_section "Section 6: Gate Decision" "## Section 7:" content = Some section ->
  decision_of section = Some "PASS" ->
  pm_rejected_row row ->
  content = pre ++ row ++ post ->
  check_gate_decision content r
  = add_error "INCONSISTENCY: Decision is PASS but PM-Architect signed REJECTED" r
  /\ In "INCONSISTENCY: Decision is PASS but PM-Architect signed REJECTED"
        (errors (check_gate_decision content r)).
Proof.
  intros _ Hsec Hdec Hrow Hcontent.
  assert (Heq : check_gate_decision content r
                = add_error "INCONSISTENCY: Decision is PASS but PM-Architect signed REJECTED"
                            r).
  { unfold check_gate_decision.
    unfold extract_section in Hsec. cbn [append] in Hsec.
    destruct (search (section_re "## Section 6: Gate Decision" "## Section 7:") content)
      as [sm|]; [|discriminate].
    cbn in Hsec. injection Hsec as ->.
    unfold decision_of in Hdec.
    destruct (search decision_re section) as [dm|]; [|discriminate].
    cbn in Hdec. injection Hdec as ->.
    assert (Hm : is_match pm_rejected_re content = true).
    { rewrite Hcontent. apply is_match_complete. apply pm_rejected_row_matches. exact Hrow. }
    rewrite Hm. reflexivity. }
  split; [exact Heq|].
  rewrite Heq. cbn. apply in_or_app. right. left. reflexivity.
Qed.

End GateDecisionProps.

(* ---------------------------------------------------------------------- *)
(** ** check_content_integrity *)
(* ---------------------------------------------------------------------- *)

(* ---------------------------------------------------------------------- *)
(** ** check_content_integrity *)
(* ---------------------------------------------------------------------- *)

Module ContentIntegrityProps.
Import Str Re ReSpec Cal GateConfig World GateValidators Spec StrProps ReProps SearchProps.

(** *** [str.strip] keeps a word that has no space at its ends *)

Lemma lstrip_keeps (a : ascii) (u post : string) :
  is_space a = false ->
  forall pre, exists pre', lstrip (pre ++ String a u ++ post) = pre' ++ String a u ++ post.
Proof.
  intro Ha. induction pre as [|x pre IH]; cbn [append lstrip].
  - rewrite Ha. exists "". reflexivity.
  - destruct (is_space x).
    + exact IH.
    + exists (String x pre). reflexivity.
Qed.

Lemma rstrip_keeps (b : ascii) (post : string) :
  is_space b = false ->
  forall v, rstrip ((v ++ String b "") ++ post) = (v ++ String b "") ++ rstrip post.
Proof.
  intro Hb. induction v as [|x v IH]; cbn [append rstrip].
  - destruct (rstrip post); [rewrite Hb|]; reflexivity.
  - rewrite IH. destruct v; reflexivity.
Qed.

Lemma strip_keeps_agent (s : string) :
  contains "Agent" s = true -> contains "Agent" (strip s) = true.
Proof.
  intro H. apply contains_sound in H as (pre & post & ->).
  unfold strip.
  destruct (lstrip_keeps "A" "gent" post eq_refl pre) as [pre' ->].
  change ("Agent" ++ post) with (("Agen" ++ "t") ++ post).
  rewrite <- append_assoc, <- (append_assoc pre' "Agen" "t").
  rewrite (rstrip_keeps "t" post eq_refl (pre' ++ "Agen")).
  rewrite (append_assoc pre' "Agen" "t"), append_assoc.
  apply contains_occurs.
Qed.

(** *** The names the sign-off pattern captures *)

Lemma signoff_agent_capture (si s' : string) (c : caps) :
  match_here signoff_agent_re si = Some (s', c) ->
  exists name, group c 1 = Some name /\ contains "Agent" name = true.
Proof.
  unfold match_here. intro H.
  apply rmatch_sound in H as (s2 & c2 & Hd & Hk). injection Hk as -> ->.
  unfold signoff_agent_re in Hd. cbn [denotes] in Hd.
  destruct Hd as (s1 & c1 & [_ ->] & s3 & c3 & Hws & s4 & c4 & Hgrp & Hrest).
  unfold ws, star in Hws. cbn [denotes] in Hws.
  destruct Hws as (w0 & _ & _ & _ & _ & ->).
  destruct Hgrp as (c0 & Hin & ->).
  destruct Hin as (sa & ca & Hplus & sb & cb & [Hlit ->] & Hstar).
  unfold plus in Hplus. unfold star in Hstar. cbn [denotes] in Hplus, Hstar.
  destruct Hplus as (wa & Hsa & _ & _ & _ & ->).
  destruct Hstar as (wb & Hsb & _ & _ & _ & ->).
  destruct Hrest as (s5 & c5 & Hws2 & s6 & c6 & [_ ->] & s7 & c7 & Hws3
                     & s8 & c8 & Halt & s9 & c9 & Hws4 & [_ ->]).
  unfold ws, star in Hws2, Hws3, Hws4. cbn [denotes] in Hws2, Hws3, Hws4.
  destruct Hws2 as (w2 & _ & _ & _ & _ & ->).
  destruct Hws3 as (w3 & _ & _ & _ & _ & ->).
  destruct Hws4 as (w4 & _ & _ & _ & _ & ->).
  assert (Hc8 : c8 = [(1, take (String.length s3 - String.length s4) s3)]).
  { destruct Halt as [[_ ->] | [[_ ->] | [[_ ->] | [_ ->]]]]; reflexivity. }
  subst c8.
  exists (wa ++ "Agent" ++ wb). split.
  - cbn [group Nat.eqb]. f_equal.
    rewrite Hsa, Hlit, Hsb.
    rewrite <- (append_assoc "Agent" wb s4), <- (append_assoc wa ("Agent" ++ wb) s4).
    apply take_matched.
  - apply (contains_occurs "Agent" wa wb).
Qed.

Lemma signoff_agents_named (content : string) :
  Forall (fun agent => contains "Agent" (strip agent) = true)
         (findall1 signoff_agent_re content).
Proof.
  unfold findall1. apply Forall_forall. intros agent Hin.
  apply in_map_iff in Hin as ([t c] & Hg & Hin). cbn [snd] in Hg.
  apply findall_from_sound in Hin as (si & s' & Hm & _).
  apply signoff_agent_capture in Hm as (name & Hgroup & Hname).
  rewrite Hgroup in Hg. subst agent. apply strip_keeps_agent. exact Hname.
Qed.

(** The loop over the sign-off names adds one error per unknown name and
    touches nothing else. *)
Lemma signoff_loop (agents : list string) :
  forall r,
    fold_left
      (fun result agent =>
         let agent_clean := strip agent in
         if is_unknown_agent agent_clean
         then add_error (unknown_agent_msg agent_clean) result
         else result)
      agents r
    = mkResult (valid r)
        (errors r ++ map unknown_agent_msg
                       (filter is_unknown_agent (map strip agents)))%list
        (warnings r) (info r).
Proof.
  induction agents as [|a agents IH]; intro r; cbn [fold_left map filter].
  - rewrite app_nil_r. destruct r; reflexivity.
  - rewrite IH. destruct (is_unknown_agent (strip a)); [|reflexivity].
    cbn [add_error valid errors warnings info map]. rewrite <- app_assoc. reflexivity.
Qed.

(** The names [check_content_integrity] reports as unknown. *)
Lemma check_content_integrity_errors (content : string) (r : ValidationResult) :
  errors (check_content_integrity content r)
  = (errors r ++ map unknown_agent_msg
       (filter is_unknown_agent (map strip (findall1 signoff_agent_re content))))%list.
Proof.
  unfold check_content_integrity. cbv zeta. rewrite signoff_loop. cbn [errors].
  f_equal.
  destruct (summaries_of content); destruct (findall1 checklist_item_re content);
    repeat match goal with
           | |- context [if ?b then _ else _] => destruct b
           end; reflexivity.
Qed.

(** C10: every "unknown agent" error [check_content_integrity] emits is for
    a sign-off name that contains "Agent"; a row whose name does not
    contain it gets no such error, however unlike a known name it is. *)
Theorem unknown_agent_only_among_agent_names (content : string) (r : ValidationResult) :
  exists names,
    errors (check_content_integrity content r)
    = (errors r ++ map unknown_agent_msg names)%list
    /\ Forall (fun name => contains "Agent" name = true) names.
Proof.
  exists (filter is_unknown_agent (map strip (findall1 signoff_agent_re content))).
  split; [apply check_content_integrity_errors|].
  apply Forall_forall. intros name Hin.
  apply filter_In in Hin as [Hin _].
  apply in_map_iff in Hin as (agent & <- & Hin).
  pose proof (signoff_agents_named content) as Hall.
  rewrite Forall_forall in Hall. apply Hall. exact Hin.
Qed.

(** *** The prefixes the check compares *)

Lemma substring_take (n : nat) (s : string) : String.substring 0 n s = take n s.
Proof.
  revert s. induction n as [|n IH]; intros [|a s]; cbn; try reflexivity.
  rewrite IH. reflexivity.
Qed.

Lemma lstrip_list (s : string) :
  list_ascii_of_string (lstrip s) = drop_spaces (list_ascii_of_string s).
Proof.
  induction s as [|a s IH]; cbn; [reflexivity|].
  destruct (is_space a); [exact IH | reflexivity].
Qed.

Lemma drop_spaces_last (l : list ascii) (a : ascii) :
  drop_spaces (l ++ [a])
  = match drop_spaces l with
    | [] => if is_space a then [] else [a]
    | t => (t ++ [a])%list
    end.
Proof.
  induction l as [|x l IH]; cbn [app drop_spaces].
  - destruct (is_space a); reflexivity.
  - destruct (is_space x); [exact IH | reflexivity].
Qed.

Lemma rstrip_list (s : string) :
  list_ascii_of_string (rstrip s)
  = rev (drop_spaces (rev (list_ascii_of_string s))).
Proof.
  induction s as [|a s IH]; [reflexivity|].
  cbn [rstrip list_ascii_of_string rev]. rewrite drop_spaces_last.
  destruct (rstrip s) as [|b t] eqn:E.
  - cbn [list_ascii_of_string] in IH.
    assert (Hnil : drop_spaces (rev (list_ascii_of_string s)) = []).
    { destruct (drop_spaces (rev (list_ascii_of_string s))) as [|x l] eqn:El;
        [reflexivity|].
      cbn [rev] in IH. destruct (rev l); discriminate IH. }
    rewrite Hnil. destruct (is_space a); reflexivity.
  - destruct (drop_spaces (rev (list_ascii_of_string s))) as [|x l] eqn:El.
    + discriminate IH.
    + rewrite rev_app_distr, <- IH. reflexivity.
Qed.

Lemma trimmed_strip (s : string) : trimmed s = strip s.
Proof.
  unfold trimmed, strip.
  rewrite <- lstrip_list, <- rstrip_list.
  apply string_of_list_ascii_of_string.
Qed.

(** The prefix of the specification is the one the check takes. *)
Lemma prefix100_take (s : string) : prefix100 s = take 100 (strip s).
Proof.
  unfold prefix100. rewrite substring_take, trimmed_strip. reflexivity.
Qed.

Lemma distinct_In (l : list string) :
  forall y, In y (distinct l) <-> In y l.
Proof.
  induction l as [|x l IH]; intro y; cbn [distinct In]; [tauto|].
  rewrite filter_In, IH.
  destruct (String.eqb_spec x y) as [-> | Hne]; cbn [negb]; split; intro H.
  - auto.
  - destruct H as [H | H]; auto.
  - destruct H as [H | [H _]]; auto.
  - destruct H as [H | H]; auto.
Qed.

Lemma distinct_NoDup (l : list string) : NoDup (distinct l).
Proof.
  induction l as [|x l IH]; cbn [distinct]; constructor.
  - rewrite filter_In. intros [_ H]. rewrite String.eqb_refl in H. discriminate H.
  - apply NoDup_filter. exact IH.
Qed.

(** [len(set(l))], counted either way. *)
Lemma distinct_length (l : list string) :
  List.length (distinct l) = List.length (nodup string_dec l).
Proof.
  apply Nat.le_antisymm; apply NoDup_incl_length.
  - apply distinct_NoDup.
  - intros y H. apply nodup_In. apply distinct_In. exact H.
  - apply NoDup_nodup.
  - intros y H. apply distinct_In. apply nodup_In in H. exact H.
Qed.

Lemma unique_summaries_count (content : string) :
  List.length (unique_summaries_of content) = distinct_prefixes (summaries_of content).
Proof.
  unfold unique_summaries_of, distinct_prefixes.
  rewrite distinct_length. f_equal. f_equal.
  apply map_ext. intro s. symmetry. apply prefix100_take.
Qed.

(** *** The duplicate-summary warning *)

(** The warnings [check_content_integrity] appends: the duplicate-summary
    warning when the summaries are mostly duplicates, then the low-variety
    warning of the checklist, if any. *)
Lemma check_content_integrity_warnings (content : string) (r : ValidationResult) :
  exists low,
    warnings (check_content_integrity content r)
    = (warnings r
       ++ (if mostly_duplicates (summaries_of content)
           then [("FABRICATION INDICATOR: Multiple agent responses appear identical ("
                  ++ of_nat (List.length (summaries_of content)
                             - distinct_prefixes (summaries_of content))
                  ++ " duplicates)")%string]
           else [])
       ++ low)%list
    /\ (low = []
        \/ low = ["FABRICATION INDICATOR: Checklist items show low variety (possible copy-paste)"]).
Proof.
  unfold check_content_integrity. cbv zeta. rewrite signoff_loop. cbn [warnings].
  unfold mostly_duplicates. rewrite <- unique_summaries_count.
  change "FABRICATION INDICATOR: Checklist items show low variety (possible copy-paste)"
    with low_variety_msg.
  change ("FABRICATION INDICATOR: Multiple agent responses appear identical ("
          ++ of_nat (List.length (summaries_of content)
                     - List.length (unique_summaries_of content))
          ++ " duplicates)")
    with (duplicate_msg (List.length (summaries_of content)
                         - List.length (unique_summaries_of content))).
  set (n := List.length (summaries_of content)).
  set (u := List.length (unique_summaries_of content)).
  assert (Hnil : summaries_of content = [] -> ((2 * u <? n) && (2 <? n)) = false).
  { intro E. subst n. rewrite E. cbn [List.length]. apply andb_false_r. }
  destruct (summaries_of content) as [|s0 l0] eqn:E.
  - rewrite (Hnil eq_refl).
    destruct (findall1 checklist_item_re content);
      [exists []; rewrite app_nil_r; auto|].
    match goal with |- context [if ?b then _ else _] => destruct b end;
      [exists [low_variety_msg] | exists []]; cbn [add_warning warnings app];
      rewrite ?app_nil_r; auto.
  - clear Hnil.
    destruct ((2 * u <? n) && (2 <? n));
      destruct (findall1 checklist_item_re content);
      try match goal with |- context [if ?b then _ else _] => destruct b end;
      cbn [add_warning warnings app];
      first [ exists [low_variety_msg]; rewrite <- ?app_assoc, ?app_nil_r; split;
              [reflexivity | auto]
            | exists []; rewrite <- ?app_assoc, ?app_nil_r; split;
              [reflexivity | auto] ].
Qed.

(** No duplicate-summary warning is the low-variety warning: the two differ
    at their twenty-fourth character. *)
Lemma duplicate_is_not_low_variety (d : nat) :
  "FABRICATION INDICATOR: Multiple agent responses appear identical ("
  ++ of_nat d ++ " duplicates)"
  <> "FABRICATION INDICATOR: Checklist items show low variety (possible copy-paste)".
Proof. cbn. intro H. discriminate H. Qed.

(** With four summaries, the distinct prefixes are fewer than half of them
    exactly when the four prefixes are one. *)
Lemma four_summaries (a b c d : string) :
  mostly_duplicates [a; b; c; d] = true
  <-> prefix100 a = prefix100 b /\ prefix100 b = prefix100 c
      /\ prefix100 c = prefix100 d.
Proof.
  unfold mostly_duplicates, distinct_prefixes. cbn [map List.length].
  generalize (prefix100 a) (prefix100 b) (prefix100 c) (prefix100 d).
  intros pa pb pc pd. cbn [nodup in_dec list_rec list_rect].
  repeat match goal with
         | |- context [string_dec ?x ?y] => destruct (string_dec x y)
         end;
    cbn; split; intro H;
    first [ discriminate H
          | reflexivity
          | repeat split; congruence
          | destruct H as (? & ? & ?); exfalso; congruence ].
Qed.

(** C4, as the code has it, for ASCII records: the duplicate-summary
    warning is emitted exactly when the distinct normalised 100-character
    prefixes of the summaries are fewer than half of the summaries and
    there are more than 2 summaries, and it states the number of summaries
    less the number of distinct prefixes.  So with 4 summaries it fires
    exactly when the four prefixes are one: with 3 of them identical and
    the fourth different (2 distinct, not fewer than half of 4) it does not
    fire, and with 4 distinct ones it does not. *)
Theorem duplicate_warning_exactly_when :
  (forall content r,
     is_ascii content = true ->
     exists low,
       warnings (check_content_integrity content r)
       = (warnings r
          ++ (if mostly_duplicates (summaries_of content)
              then [("FABRICATION INDICATOR: Multiple agent responses appear identical ("
                     ++ of_nat (List.length (summaries_of content)
                                - distinct_prefixes (summaries_of content))
                     ++ " duplicates)")%string]
              else [])
          ++ low)%list
       /\ (low = []
           \/ low = ["FABRICATION INDICATOR: Checklist items show low variety (possible copy-paste)"]))
  /\ (forall content,
        is_ascii content = true ->
        ((exists d,
            In ("FABRICATION INDICATOR: Multiple agent responses appear identical ("
                ++ of_nat d ++ " duplicates)")
               (warnings (check_content_integrity content new_result)))
         <-> mostly_duplicates (summaries_of content) = true))
  /\ (forall content a b c d,
        is_ascii content = true ->
        summaries_of content = [a; b; c; d] ->
        ((exists n,
            In ("FABRICATION INDICATOR: Multiple agent responses appear identical ("
                ++ of_nat n ++ " duplicates)")
               (warnings (check_content_integrity content new_result)))
         <-> prefix100 a = prefix100 b /\ prefix100 b = prefix100 c
             /\ prefix100 c = prefix100 d)).
Proof.
  assert (Hiff : forall content,
            (exists d,
               In ("FABRICATION INDICATOR: Multiple agent responses appear identical ("
                   ++ of_nat d ++ " duplicates)")
                  (warnings (check_content_integrity content new_result)))
            <-> mostly_duplicates (summaries_of content) = true).
  { intro content.
    destruct (check_content_integrity_warnings content new_result) as (low & -> & Hlow).
    cbn [warnings new_result app].
    destruct (mostly_duplicates (summaries_of content)).
    - split; [reflexivity|]. intros _. eexists. left. reflexivity.
    - split; [|discriminate]. intros [d Hd]. exfalso. cbn [app] in Hd.
      destruct Hlow as [-> | ->]; [contradiction|].
      destruct Hd as [Hd | []]. exact (duplicate_is_not_low_variety d (eq_sym Hd)). }
  split; [intros content r _; apply check_content_integrity_warnings|].
  split; [intros content _; apply Hiff|].
  intros content a b c d _ Hfour.
  rewrite Hiff, Hfour. apply four_summaries.
Qed.

(** C4 as the specification words it fails: of the 4 summaries of this
    ASCII record 3 have the same prefix and the fourth another, and the
    check emits no warning. *)
Lemma three_of_four_identical_no_warning :
  is_ascii Samples.three_of_four_identical = true
  /\ map prefix100 (summaries_of Samples.three_of_four_identical)
     = [Samples.reviewed; Samples.reviewed; Samples.reviewed; Samples.staged]
  /\ String.eqb Samples.reviewed Samples.staged = false
  /\ warnings (check_content_integrity Samples.three_of_four_identical new_result) = [].
Proof. vm_compute. repeat split. Qed.

(** The warning on a record with four identical summaries, and none on one
    with four distinct ones. *)
Example four_identical_summaries_warn :
  warnings (check_content_integrity Samples.four_identical new_result)
  = ["FABRICATION INDICATOR: Multiple agent responses appear identical (3 duplicates)"]
  /\ warnings (check_content_integrity Samples.four_distinct new_result) = [].
Proof. vm_compute. split; reflexivity. Qed.

End ContentIntegrityProps.

(* ---------------------------------------------------------------------- *)
(** ** The theorems at sample inputs *)
(* ---------------------------------------------------------------------- *)

Module Witnesses.
Import Str Py Re Cal GateConfig World GateValidators ValidateGate Spec Samples.

Lemma qa_row_removed_section :
  section1 qa_row_removed = Some (section_text qa_row_removed).
Proof. vm_compute. reflexivity. Qed.

Lemma qa_row_removed_no_row (flag : string) :
  is_match (row_re "QA-Agent" flag) (section_text qa_row_removed) = false ->
  ~ has_row (section_text qa_row_removed) "QA-Agent" flag.
Proof.
  intros Hno H. apply AgentInvocationProps.has_row_matches in H. congruence.
Qed.

Lemma validate_gate_unreadable_witness :
  exists msg,
    validate_gate bare_world "gates/stage5/phase2-output-gate.md"
    = Done (mkResult false [msg] [] [])
    /\ forall content r,
         7 <= List.length (errors (fst (run_checks bare_world
                                          "gates/stage5/phase2-output-gate.md" content r)))
              + List.length (info (fst (run_checks bare_world
                                          "gates/stage5/phase2-output-gate.md" content r))).
Proof.
  apply ValidateGateProps.validate_gate_unreadable.
  apply Nonexistent. reflexivity.
Defined.


Lemma missing_row_two_errors_witness :
  In "Agent 'QA-Agent' not listed in invocation table"
     (errors (check_agent_invocation qa_row_removed new_result))
  /\ (exists n,
        n < 6
        /\ In ("BLOCKING: Only " ++ of_nat n ++ "/6 agents invoked. G-001 requires ALL 6.")
              (errors (check_agent_invocation qa_row_removed new_result)))
  /\ List.length (errors new_result) + 2
     <= List.length (errors (check_agent_invocation qa_row_removed new_result)).
Proof.
  apply (AgentInvocationProps.missing_row_two_errors
           qa_row_removed (section_text qa_row_removed) "QA-Agent" new_result).
  - vm_compute. reflexivity.
  - exact qa_row_removed_section.
  - vm_compute. auto.
  - apply qa_row_removed_no_row. vm_compute. reflexivity.
  - apply qa_row_removed_no_row. vm_compute. reflexivity.
Defined.

Lemma pass_with_rejected_signoff_is_inconsistent_witness :
  check_gate_decision rejected_record new_result
  = add_error "INCONSISTENCY: Decision is PASS but PM-Architect signed REJECTED" new_result
  /\ In "INCONSISTENCY: Decision is PASS but PM-Architect signed REJECTED"
        (errors (check_gate_decision rejected_record new_result)).
Proof.
  refine (GateDecisionProps.pass_with_rejected_signoff_is_inconsistent
            rejected_record _ rejected_before rejected_row rejected_after new_result
            _ _ _ _ _).
  - vm_compute. reflexivity.
  - vm_compute. reflexivity.
  - vm_compute. reflexivity.
  - exact (PmRejectedRow " " " " " " " " eq_refl eq_refl eq_refl eq_refl).
  - reflexivity.
Defined.

Lemma missing_header_yields_none_witness :
  extract_section "Section 1: Agent Invocation Evidence" "## Section 2:" rejected_record
  = None
  /\ check_agent_invocation rejected_record new_result
     = add_error "Cannot parse Section 1: Agent Invocation Evidence" new_result.
Proof.
  pose proof (SectionProps.missing_header_yields_none
                rejected_record "Section 1: Agent Invocation Evidence" "## Section 2:"
                check_agent_invocation new_result) as H.
  destruct H as (H1 & H2 & _).
  - left. reflexivity.
  - vm_compute. reflexivity.
  - split; [exact H1 | exact H2].
Defined.

End Witnesses.

(* ---------------------------------------------------------------------- *)
(** ** run_gate_workflow: the record of steps and what decides the status *)
(* ---------------------------------------------------------------------- *)

Module WorkflowExtras.
Import Str Py Json GateConfig World AlertManager GateWorkflow Spec GateWorkflowProps.

Section Run.

Variable c : collaborators.
Variable o : options.
Variables (stage_ phase_ : N) (gate_type_ : string).

Ltac one_record :=
  split_tests; cbn [steps add_step add_action set_status set_can_proceed
                      set_checklist_results set_relevant_memories];
  rewrite map_app; reflexivity.

Ltac one_record_returned :=
  intros r r' H; returned H;
  cbn [steps add_step add_action set_status set_can_proceed
         set_checklist_results set_relevant_memories];
  rewrite map_app; reflexivity.

Lemma step_alert_check_records :
  records "alert_check" (step_alert_check c o phase_ gate_type_).
Proof. unfold step_alert_check. one_record_returned. Qed.

Lemma step_checklist_records (r : workflow_result) :
  map step (steps (step_checklist c stage_ phase_ gate_type_ r))
  = (map step (steps r) ++ ["checklist_auto_verify"])%list.
Proof. unfold step_checklist. one_record. Qed.

Lemma step_validate_gate_record_records :
  records "validate_gate_record" (step_validate_gate_record c o).
Proof. unfold step_validate_gate_record. one_record_returned. Qed.

Lemma step_user_signoff_records :
  records "user_signoff" (step_user_signoff c o stage_ phase_ gate_type_).
Proof. unfold step_user_signoff. one_record_returned. Qed.

Lemma step_super_ai_audit_records (r : workflow_result) :
  map step (steps (step_super_ai_audit c o phase_ gate_type_ r))
  = (map step (steps r) ++ ["super_ai_audit"])%list.
Proof. unfold step_super_ai_audit. one_record. Qed.

Lemma step_memory_query_records (r : workflow_result) :
  map step (steps (step_memory_query c r)) = (map step (steps r) ++ ["memory_query"])%list.
Proof. unfold step_memory_query. one_record. Qed.

Lemma step_anomaly_detection_records (r : workflow_result) :
  map step (steps (step_anomaly_detection c r))
  = (map step (steps r) ++ ["anomaly_detection"])%list.
Proof. unfold step_anomaly_detection. one_record. Qed.

Lemma step_memory_checkpoint_records (r : workflow_result) :
  map step (steps (step_memory_checkpoint c phase_ gate_type_ r))
  = (map step (steps r) ++ ["memory_checkpoint"])%list.
Proof. unfold step_memory_checkpoint. one_record. Qed.

Lemma step_secure_event_log_records (r : workflow_result) :
  map step (steps (step_secure_event_log c r))
  = (map step (steps r) ++ ["secure_event_log"])%list.
Proof. unfold step_secure_event_log. one_record. Qed.

(** The steps of a result that is returned. *)
Lemma returned_steps (r : workflow_result) :
  run_gate_workflow c o stage_ phase_ gate_type_ = Done r ->
  map step (steps r) = step_names.
Proof.
  intro H. apply run_gate_workflow_returned in H as [-> Hnone].
  revert Hnone. rewrite run_steps_shape.
  destruct (step_alert_check c o phase_ gate_type_ _) as [r1|e] eqn:E1; [|discriminate].
  destruct (step_validate_gate_record c o _) as [r3|e] eqn:E3; [|discriminate].
  destruct (step_user_signoff c o stage_ phase_ gate_type_ r3) as [r4|e] eqn:E4;
    [|discriminate].
  intros _. cbn [fst].
  rewrite step_secure_event_log_records, step_memory_checkpoint_records,
    step_anomaly_detection_records, step_memory_query_records,
    step_super_ai_audit_records, (step_user_signoff_records _ _ E4),
    (step_validate_gate_record_records _ _ E3), step_checklist_records,
    (step_alert_check_records _ _ E1).
  reflexivity.
Qed.

(** On an ASCII gate record, when one is given: the run returns unless the
    alert check, the validation of the gate record or the sign-off check
    raises, and then that exception ends it; a run that returns has recorded
    the same nine steps in the same order, whatever the collaborators
    answer and whichever checks are skipped. *)
Theorem workflow_records_every_step :
  record_is_ascii c o ->
  match aborted c o stage_ phase_ gate_type_ with
  | Some e => run_gate_workflow c o stage_ phase_ gate_type_ = Raises e
  | None =>
      exists r,
        run_gate_workflow c o stage_ phase_ gate_type_ = Done r
        /\ map step (steps r) = step_names
  end.
Proof.
  intros _.
  pose proof (run_gate_workflow_outcome c o stage_ phase_ gate_type_) as H.
  destruct (aborted c o stage_ phase_ gate_type_) as [e|]; [exact H|].
  eexists. split; [exact H|]. apply returned_steps. exact H.
Qed.

End Run.
End WorkflowExtras.

(* ---------------------------------------------------------------------- *)
(** ** run_gate_workflow: what decides the status *)
(* ---------------------------------------------------------------------- *)

Module WorkflowStatus.
Import Str Py Json GateConfig World AlertManager GateWorkflow Spec GateWorkflowProps.

Section Run.

Variable c : collaborators.
Variable o : options.
Variables (stage_ phase_ : N) (gate_type_ : string).

Lemma step_alert_check_effect (r r' : workflow_result) :
  step_alert_check c o phase_ gate_type_ r = Done r' ->
  status r' = (if alert_blocked c o phase_ gate_type_ then "BLOCKED" else status r)
  /\ can_proceed r'
     = (if alert_blocked c o phase_ gate_type_ then false else can_proceed r).
Proof.
  unfold step_alert_check, alert_blocked, next_phase.
  destruct (skip_alerts o); [intro H; injection H as <-; cbn; auto|].
  cbn [negb andb].
  destruct (check_blocking_alerts c _) as [a|e]; [|discriminate].
  destruct (negb (as_can_proceed a)); [intro H; injection H as <-; cbn; auto|].
  destruct (String.eqb (as_status a) "WARNING"); intro H; injection H as <-; cbn; auto.
Qed.

Lemma step_validate_gate_record_effect (r r' : workflow_result) :
  step_validate_gate_record c o r = Done r' ->
  status r' = (if record_failed c o then "FAIL" else status r)
  /\ can_proceed r' = (if record_failed c o then false else can_proceed r).
Proof.
  unfold step_validate_gate_record, record_failed, record_validation, path_exists.
  destruct (gate_file o) as [[|a path]|];
    [intro H; injection H as <-; cbn; auto | | intro H; injection H as <-; cbn; auto].
  destruct (stat_error (files c) (String a path)); [discriminate|].
  destruct (exists_ (files c) (String a path)); cbn [andb negb];
    [|intro H; injection H as <-; cbn; auto].
  destruct (validate_gate_present c); cbn [negb];
    [|intro H; injection H as <-; cbn; auto].
  destruct (ValidateGate.validate_gate (files c) (String a path)) as [v|e]; [|discriminate].
  destruct (valid v); intro H; injection H as <-; cbn; auto.
Qed.

Lemma step_user_signoff_effect (r r' : workflow_result) :
  step_user_signoff c o stage_ phase_ gate_type_ r = Done r' ->
  status r' = (if signoff_pending c o stage_ phase_ gate_type_ then "PENDING" else status r)
  /\ can_proceed r'
     = (if signoff_pending c o stage_ phase_ gate_type_ then false else can_proceed r).
Proof.
  unfold step_user_signoff, signoff_pending.
  destruct (skip_signoff o); [intro H; injection H as <-; cbn; auto|].
  cbn [negb andb].
  destruct (check_signoff_status c stage_ phase_ gate_type_) as [s|e]; [|discriminate].
  destruct (so_required s); [|intro H; injection H as <-; cbn; auto].
  cbn [negb andb].
  destruct (so_verified s); [intro H; injection H as <-; cbn; auto|].
  cbn [negb]. destruct (so_token s); intro H; injection H as <-; cbn; auto.
Qed.

(** The status and the verdict of a result that is returned. *)
Lemma run_verdict (r : workflow_result) :
  run_gate_workflow c o stage_ phase_ gate_type_ = Done r ->
  status r
  = (if critical_anomaly c then "FAIL"
     else if signoff_pending c o stage_ phase_ gate_type_ then "PENDING"
     else if record_failed c o then "FAIL"
     else if alert_blocked c o phase_ gate_type_ then "BLOCKED"
     else "PASS")
  /\ can_proceed r
     = negb (critical_anomaly c
             || signoff_pending c o stage_ phase_ gate_type_
             || record_failed c o
             || alert_blocked c o phase_ gate_type_).
Proof.
  intro H. apply run_gate_workflow_returned in H as [-> Hnone].
  revert Hnone. rewrite run_steps_shape.
  destruct (step_alert_check c o phase_ gate_type_ _) as [r1|e] eqn:E1; [|discriminate].
  destruct (step_validate_gate_record c o _) as [r3|e] eqn:E3; [|discriminate].
  destruct (step_user_signoff c o stage_ phase_ gate_type_ r3) as [r4|e] eqn:E4;
    [|discriminate].
  intros _. cbn [fst].
  destruct (step_alert_check_effect _ _ E1) as [S1 C1].
  destruct (step_validate_gate_record_effect _ _ E3) as [S3 C3].
  destruct (step_user_signoff_effect _ _ E4) as [S4 C4].
  split.
  - rewrite (proj1 (step_secure_event_log_silent c _)).
    rewrite (proj1 (step_memory_checkpoint_silent c _ _ _)).
    rewrite (proj1 (step_anomaly_detection_effect c _)).
    rewrite (proj1 (step_memory_query_silent c _)).
    rewrite (proj1 (step_super_ai_audit_silent c _ _ _ _)).
    rewrite S4, S3.
    rewrite (proj1 (step_checklist_silent c _ _ _ _)).
    rewrite S1. reflexivity.
  - rewrite (proj2 (step_secure_event_log_silent c _)).
    rewrite (proj2 (step_memory_checkpoint_silent c _ _ _)).
    rewrite (proj2 (step_anomaly_detection_effect c _)).
    rewrite (proj2 (step_memory_query_silent c _)).
    rewrite (proj2 (step_super_ai_audit_silent c _ _ _ _)).
    rewrite C4, C3.
    rewrite (proj2 (step_checklist_silent c _ _ _ _)).
    rewrite C1.
    destruct (critical_anomaly c), (signoff_pending c o stage_ phase_ gate_type_),
      (record_failed c o), (alert_blocked c o phase_ gate_type_); reflexivity.
Qed.

(** On an ASCII gate record, when one is given: the run returns unless the
    alert check, the validation of the gate record or the sign-off check
    raises; the status and the verdict of the result returned are read off
    the four steps that write them: the last writer wins, so a critical
    anomaly hides a pending sign-off, which hides a failed record, which
    hides a blocking alert. *)
Theorem final_status_is_last_written :
  record_is_ascii c o ->
  match aborted c o stage_ phase_ gate_type_ with
  | Some e =>
      run_gate_workflow c o stage_ phase_ gate_type_ = Raises e
      /\ main_exit_code (run_gate_workflow c o stage_ phase_ gate_type_) = 1
  | None =>
      exists r,
        run_gate_workflow c o stage_ phase_ gate_type_ = Done r
        /\ status r
           = (if critical_anomaly c then "FAIL"
              else if signoff_pending c o stage_ phase_ gate_type_ then "PENDING"
              else if record_failed c o then "FAIL"
              else if alert_blocked c o phase_ gate_type_ then "BLOCKED"
              else "PASS")
        /\ can_proceed r
           = negb (critical_anomaly c
                   || signoff_pending c o stage_ phase_ gate_type_
                   || record_failed c o
                   || alert_blocked c o phase_ gate_type_)
  end.
Proof.
  intros _.
  pose proof (run_gate_workflow_outcome c o stage_ phase_ gate_type_) as H.
  destruct (aborted c o stage_ phase_ gate_type_) as [e|].
  - split; [exact H | rewrite H; reflexivity].
  - eexists. split; [exact H|]. apply run_verdict. exact H.
Qed.

(** The exit code of a result that is returned is 0 exactly when it may
    proceed. *)
Lemma exit_code_of_verdict (r : workflow_result) :
  run_gate_workflow c o stage_ phase_ gate_type_ = Done r ->
  Nat.eqb (exit_code r) 0 = can_proceed r.
Proof.
  intro E. unfold exit_code.
  destruct (run_verdict r E) as [-> ->].
  destruct (critical_anomaly c), (signoff_pending c o stage_ phase_ gate_type_),
    (record_failed c o), (alert_blocked c o phase_ gate_type_); reflexivity.
Qed.

(** The exit code tells the verdict.  Of a result that is returned it is 0
    exactly when the status is PASS, exactly when [can_proceed] is true, and
    otherwise 1, 2 or 3; a run that an exception ends exits with 1.  So the
    process exits with 0 exactly when the run returns a result that may
    proceed. *)
Theorem exit_code_zero_iff_can_proceed :
  match run_gate_workflow c o stage_ phase_ gate_type_ with
  | Done r =>
      (exit_code r =? 0) = can_proceed r
      /\ String.eqb (status r) "PASS" = can_proceed r
      /\ In (exit_code r) [0; 1; 2; 3]
      /\ main_exit_code (run_gate_workflow c o stage_ phase_ gate_type_) = exit_code r
  | Raises _ => main_exit_code (run_gate_workflow c o stage_ phase_ gate_type_) = 1
  end.
Proof.
  destruct (run_gate_workflow c o stage_ phase_ gate_type_) as [r|e] eqn:E;
    [|reflexivity].
  unfold main_exit_code, process_exit_code, exit_code.
  destruct (run_verdict r E) as [-> ->].
  destruct (critical_anomaly c), (signoff_pending c o stage_ phase_ gate_type_),
    (record_failed c o), (alert_blocked c o phase_ gate_type_); cbn;
    repeat split; auto 10.
Qed.

End Run.

Lemma count_status_positive (values : list string) (l : list check_result)
    (x : check_result) :
  In x l -> mem (cr_status x) values = true -> (0 <? count_status values l) = true.
Proof.
  intros Hin Hx. unfold count_status. apply Nat.ltb_lt.
  assert (Hf : In x (filter (fun r => mem (cr_status r) values) l))
    by (apply filter_In; auto).
  destruct (filter _ l); [contradiction | cbn; lia].
Qed.

(** A failed auto-check is recorded and blocks nothing: the checklist step
    leaves the status and [can_proceed] as they are, also when an auto-check
    failed, in which case the step it records says FAIL. *)
Theorem failed_auto_checks_never_block
    (c : collaborators) (stage_ phase_ : N) (gate_type_ : string) (r : workflow_result)
    (failing : check_result) :
  In failing (execute_auto_checks (probe c) stage_ phase_ gate_type_
                (load_checklist c phase_ gate_type_)) ->
  cr_status failing = "FAIL" ->
  status (step_checklist c stage_ phase_ gate_type_ r) = status r
  /\ can_proceed (step_checklist c stage_ phase_ gate_type_ r) = can_proceed r
  /\ exists s,
       steps (step_checklist c stage_ phase_ gate_type_ r) = (steps r ++ [s])%list
       /\ step s = "checklist_auto_verify" /\ step_status s = "FAIL".
Proof.
  intros Hin Hfail.
  split; [apply step_checklist_silent|].
  split; [apply step_checklist_silent|].
  unfold step_checklist.
  destruct (load_checklist c phase_ gate_type_) as [|i l] eqn:E.
  - cbn in Hin. contradiction.
  - rewrite (count_status_positive ["FAIL"] _ failing Hin)
      by (rewrite Hfail; reflexivity).
    destruct (filter (fun item => negb (item_auto item)) (i :: l));
      cbn [steps add_step add_action set_checklist_results];
      eexists; split; try reflexivity; split; reflexivity.
Qed.

Lemma requires_user_signoff_spec (phase_ : N) (gate_type_ : string) :
  requires_user_signoff phase_ gate_type_ = true
  <-> gate_type_ = "output" /\ (2 <= phase_)%N.
Proof.
  unfold requires_user_signoff. rewrite andb_true_iff, String.eqb_eq, N.leb_le. tauto.
Qed.

(** Sign-off is asked of output gates from phase 2 on only: for any other
    gate the step records NOT_REQUIRED whatever the sign-off file holds, and
    the run never ends PENDING, so its exit code is never 2, whether the
    run returns or an exception ends it. *)
Theorem signoff_not_required_for_early_gates
    (c : collaborators) (o : options) (stage_ phase_ : N) (gate_type_ : string)
    (r : workflow_result) :
  skip_signoff o = false ->
  requires_user_signoff phase_ gate_type_ = false ->
  step_user_signoff c o stage_ phase_ gate_type_ r
  = Done (add_step (mkStep "user_signoff" "NOT_REQUIRED"
                      "User sign-off not required for this gate" []) r)
  /\ (forall r', run_gate_workflow c o stage_ phase_ gate_type_ = Done r' ->
                 String.eqb (status r') "PENDING" = false
                 /\ Nat.eqb (exit_code r') 2 = false)
  /\ Nat.eqb (main_exit_code (run_gate_workflow c o stage_ phase_ gate_type_)) 2 = false.
Proof.
  intros Hskip Hreq.
  assert (Hpending : signoff_pending c o stage_ phase_ gate_type_ = false).
  { unfold signoff_pending, check_signoff_status. rewrite Hreq. cbn.
    apply andb_false_r. }
  assert (Hret : forall r', run_gate_workflow c o stage_ phase_ gate_type_ = Done r' ->
                   String.eqb (status r') "PENDING" = false
                   /\ Nat.eqb (exit_code r') 2 = false).
  { intros r' Hr'. unfold exit_code.
    rewrite (proj1 (run_verdict c o stage_ phase_ gate_type_ r' Hr')), Hpending.
    destruct (critical_anomaly c), (record_failed c o),
      (alert_blocked c o phase_ gate_type_); cbn; auto. }
  split; [|split; [exact Hret|]].
  - unfold step_user_signoff, check_signoff_status. rewrite Hskip, Hreq. reflexivity.
  - destruct (run_gate_workflow c o stage_ phase_ gate_type_) as [r'|e] eqn:E;
      [|reflexivity].
    exact (proj2 (Hret r' eq_refl)).
Qed.

(** The audit step is never fatal: it leaves the status, [can_proceed] and
    the required actions alone, and the status it records is SKIP, PASS,
    WARN or NOT_REQUIRED. *)
Theorem audit_step_never_blocks
    (c : collaborators) (o : options) (phase_ : N) (gate_type_ : string)
    (r : workflow_result) :
  status (step_super_ai_audit c o phase_ gate_type_ r) = status r
  /\ can_proceed (step_super_ai_audit c o phase_ gate_type_ r) = can_proceed r
  /\ actions_required (step_super_ai_audit c o phase_ gate_type_ r) = actions_required r
  /\ exists s,
       steps (step_super_ai_audit c o phase_ gate_type_ r) = (steps r ++ [s])%list
       /\ In (step_status s) ["SKIP"; "PASS"; "WARN"; "NOT_REQUIRED"].
Proof.
  unfold step_super_ai_audit, execute_super_ai_audit.
  destruct (skip_audit o); [cbn; repeat split; eexists; split; [reflexivity | cbn; auto]|].
  destruct (requires_super_ai_audit phase_ gate_type_);
    [|cbn; repeat split; eexists; split; [reflexivity | cbn; auto 6]].
  destruct (audit c) as [|[|code] [|]| |e]; cbn;
    repeat split; eexists; split; try reflexivity; cbn; auto 6.
Qed.

End WorkflowStatus.

(* ---------------------------------------------------------------------- *)
(** ** Alerts and auto-checks *)
(* ---------------------------------------------------------------------- *)

Module AlertProps.
Import Str Py Json GateConfig World AlertManager GateWorkflow Spec.

Lemma filter_filter {A : Type} (f g : A -> bool) (l : list A) :
  filter f (filter g l) = filter (fun a => g a && f a) l.
Proof.
  induction l as [|a l IH]; cbn; [reflexivity|].
  destruct (g a); cbn; [destruct (f a)|]; rewrite IH; reflexivity.
Qed.

Lemma existsb_filter {A : Type} (f : A -> bool) (l : list A) :
  existsb f l = match filter f l with [] => false | _ => true end.
Proof.
  induction l as [|a l IH]; cbn; [reflexivity|].
  destruct (f a); cbn; [reflexivity | exact IH].
Qed.

Lemma has_one (field : alert -> option value) (t : string) (a : alert) :
  has field [t] a = is_text (field a) t.
Proof.
  unfold has, is_text. destruct (field a) as [[s|n|l|]|]; try reflexivity.
  cbn. apply orb_false_r.
Qed.

Lemma is_blocking_has (l : list alert) :
  filter (has a_severity ["critical"]) (filter (has a_status ["active"]) l)
  = filter is_blocking l.
Proof.
  rewrite filter_filter. apply filter_ext. intro a.
  unfold is_blocking. rewrite !has_one. reflexivity.
Qed.

(** *** Reading a file whose lines are all objects *)

Lemma read_lines_objects (lines : list json_line) :
  objects_only (Some lines) = true -> read_lines lines = Done lines.
Proof.
  induction lines as [|line lines IH]; cbn [objects_only forallb read_lines];
    [reflexivity|].
  intro H. apply andb_true_iff in H as [Hl Hrest].
  destruct line as [a|t|e]; try discriminate Hl.
  rewrite (IH Hrest). reflexivity.
Qed.

Lemma active_of_objects (lines : list json_line) :
  objects_only (Some lines) = true ->
  active_of lines = Done (filter (has a_status ["active"]) (alerts_read (Some lines))).
Proof.
  induction lines as [|line lines IH];
    cbn [objects_only forallb active_of alerts_read flat_map]; [reflexivity|].
  intro H. apply andb_true_iff in H as [Hl Hrest].
  destruct line as [a|t|e]; try discriminate Hl.
  cbn [get_of]. cbn [alerts_read] in IH. rewrite (IH Hrest).
  cbn [app filter]. destruct (has a_status ["active"] a); reflexivity.
Qed.

Lemma active_lines_objects (lines : list json_line) :
  objects_only (Some lines) = true ->
  forall alerts,
    active_lines lines alerts
    = Done (alerts ++ filter (has a_status ["active"]) (alerts_read (Some lines)))%list.
Proof.
  induction lines as [|line lines IH];
    cbn [objects_only forallb active_lines alerts_read flat_map];
    intros H alerts; [rewrite app_nil_r; reflexivity|].
  apply andb_true_iff in H as [Hl Hrest].
  destruct line as [a|t|e]; try discriminate Hl.
  cbn [get_of]. cbn [alerts_read] in IH. rewrite (IH Hrest).
  cbn [app filter]. destruct (has a_status ["active"] a);
    [rewrite <- app_assoc|]; reflexivity.
Qed.

Lemma get_active_alerts_objects (alerts_file : alerts_text) :
  objects_only alerts_file = true ->
  get_active_alerts alerts_file
  = Done (filter (has a_status ["active"]) (alerts_read alerts_file)).
Proof.
  intro H. unfold get_active_alerts, load_alerts.
  destruct alerts_file as [lines|]; [|reflexivity].
  rewrite (read_lines_objects lines H). apply active_of_objects. exact H.
Qed.

(** *** Reading a file with a line that is not an object *)

Lemma read_lines_kept (lines alerts : list json_line) :
  read_lines lines = Done alerts -> alerts = lines.
Proof.
  revert alerts. induction lines as [|line lines IH]; intros alerts; cbn [read_lines].
  - intro H. injection H as <-. reflexivity.
  - destruct line as [a|t|e]; try discriminate;
      (destruct (read_lines lines) as [l|e']; [|discriminate]);
      intro H; injection H as <-; rewrite (IH l eq_refl); reflexivity.
Qed.

Lemma active_of_raises (lines : list json_line) :
  objects_only (Some lines) = false -> exists e, active_of lines = Raises e.
Proof.
  induction lines as [|line lines IH]; cbn [objects_only forallb active_of];
    [discriminate|].
  intro H. destruct line as [a|t|e]; cbn [get_of]; [|eauto|eauto].
  cbn [andb] in H. destruct (IH H) as [e ->]. eauto.
Qed.

Lemma active_lines_raises (lines : list json_line) :
  objects_only (Some lines) = false ->
  forall alerts, exists e, active_lines lines alerts = Raises e.
Proof.
  induction lines as [|line lines IH]; cbn [objects_only forallb active_lines];
    [discriminate|].
  intros H alerts. destruct line as [a|t|e]; cbn [get_of]; [|eauto|eauto].
  cbn [andb] in H. apply (IH H).
Qed.

Lemma get_active_alerts_raises (alerts_file : alerts_text) :
  objects_only alerts_file = false -> exists e, get_active_alerts alerts_file = Raises e.
Proof.
  intro H. unfold get_active_alerts, load_alerts.
  destruct alerts_file as [lines|]; [|discriminate H].
  destruct (read_lines lines) as [alerts|e] eqn:E; [|eauto].
  apply read_lines_kept in E. subst alerts. apply active_of_raises. exact H.
Qed.

(** What [check_blocking_alerts] answers on a file whose lines are all
    objects. *)
Lemma check_blocking_alerts_objects (c : collaborators) (to_phase : N) :
  objects_only (alerts_file c) = true ->
  exists report,
    check_blocking_alerts c to_phase = Done report
    /\ as_can_proceed report
       = negb (existsb is_blocking (alerts_read (alerts_file c)))
    /\ String.eqb (as_status report) "BLOCKED"
       = existsb is_blocking (alerts_read (alerts_file c))
    /\ (existsb is_blocking (alerts_read (alerts_file c)) = true ->
        as_alerts report = filter is_blocking (alerts_read (alerts_file c))).
Proof.
  intro Hobj. unfold check_blocking_alerts, check_phase_transition.
  rewrite existsb_filter, <- is_blocking_has.
  destruct (alert_manager_present c).
  - rewrite (get_active_alerts_objects _ Hobj).
    set (active := filter (has a_status ["active"]) (alerts_read (alerts_file c))).
    destruct (filter (has a_severity ["critical"]) active) as [|a l];
      [|eexists; split; [reflexivity | cbn; auto]].
    destruct (filter (has a_severity ["high"]) active);
      [|eexists; split; [reflexivity | cbn; repeat split; discriminate]].
    destruct (filter (has a_severity ["medium"; "low"]) active);
      eexists; (split; [reflexivity | cbn; repeat split; discriminate]).
  - destruct (alerts_file c) as [lines|] eqn:E;
      [|eexists; split; [reflexivity | cbn; repeat split; discriminate]].
    rewrite (active_lines_objects lines Hobj []). cbn [app].
    set (active := filter (has a_status ["active"]) (alerts_read (Some lines))).
    destruct (filter (has a_severity ["critical"]) active) as [|a l];
      [|eexists; split; [reflexivity | cbn; auto]].
    destruct active; eexists; (split; [reflexivity | cbn; repeat split; discriminate]).
Qed.

Lemma check_blocking_alerts_raises (c : collaborators) (to_phase : N) :
  objects_only (alerts_file c) = false ->
  exists e, check_blocking_alerts c to_phase = Raises e.
Proof.
  intro Hobj. unfold check_blocking_alerts, check_phase_transition.
  destruct (alert_manager_present c).
  - destruct (get_active_alerts_raises _ Hobj) as [e ->]. eauto.
  - destruct (alerts_file c) as [lines|]; [|discriminate Hobj].
    destruct (active_lines_raises lines Hobj []) as [e ->]. eauto.
Qed.

(** When the alerts file reads to its end and its lines are objects, the
    transition is blocked exactly when an alert is active and critical, and
    then the answer is BLOCKED and lists those alerts; the direct read of
    the alerts file, used when alert_manager cannot be imported, decides
    the same.  When the reading raises or a line is not an object, the
    check raises and gives no answer. *)
Theorem alerts_block_iff_active_critical (c : collaborators) (to_phase : N) :
  (objects_only (alerts_file c) = true ->
   exists report,
     check_blocking_alerts c to_phase = Done report
     /\ as_can_proceed report
        = negb (existsb is_blocking (alerts_read (alerts_file c)))
     /\ String.eqb (as_status report) "BLOCKED"
        = existsb is_blocking (alerts_read (alerts_file c))
     /\ (existsb is_blocking (alerts_read (alerts_file c)) = true ->
         as_alerts report = filter is_blocking (alerts_read (alerts_file c))))
  /\ (objects_only (alerts_file c) = false ->
      exists e, check_blocking_alerts c to_phase = Raises e).
Proof.
  split; [apply check_blocking_alerts_objects | apply check_blocking_alerts_raises].
Qed.

(** A critical active alert and a line that is a JSON list: the check
    raises. *)
Example odd_alerts_line_raises :
  check_blocking_alerts Samples.odd_alerts_site 3
  = Raises (Exn "AttributeError" "'list' object has no attribute 'get'").
Proof. reflexivity. Qed.

End AlertProps.

Module AutoCheckProps.
Import Str Py Json GateConfig World AlertManager GateWorkflow Spec.

Lemma run_check_unknown (p : probes) (stage_ phase_ : N) (check_name : string) :
  mem check_name known_checks = false ->
  run_check p stage_ phase_ check_name
  = ("SKIP", "Check '" ++ check_name ++ "' not implemented yet").
Proof.
  unfold mem, known_checks. cbn [existsb]. intro H.
  repeat (apply orb_false_iff in H as [?E H]).
  unfold run_check.
  repeat match goal with
         | E : String.eqb check_name _ = false |- _ => rewrite E; clear E
         end.
  reflexivity.
Qed.

Lemma run_check_status (p : probes) (stage_ phase_ : N) (check_name : string) :
  In (fst (run_check p stage_ phase_ check_name)) ["PASS"; "FAIL"; "WARN"; "SKIP"].
Proof.
  unfold run_check, _check_git_checkpoint, _check_typescript, _check_vite_permissions,
    _check_backend_healthy.
  repeat match goal with
         | |- context [if ?b then _ else _] => destruct b
         | |- context [match ?x with _ => _ end] => destruct x
         end; cbn; auto 6.
Qed.

(** The auto-checks run for the items marked auto, one result per item in
    the order of the checklist, under the item's id and description; every
    result is PASS, FAIL, WARN or SKIP, and an item whose check identifier is
    not a known one is skipped as not implemented. *)
Theorem auto_checks_cover_auto_items
    (p : probes) (stage_ phase_ : N) (gate_type_ : string)
    (checklist : list checklist_item) :
  map cr_id (execute_auto_checks p stage_ phase_ gate_type_ checklist)
  = map item_id (filter item_auto checklist)
  /\ map cr_desc (execute_auto_checks p stage_ phase_ gate_type_ checklist)
     = map item_desc (filter item_auto checklist)
  /\ Forall (fun r => In (cr_status r) ["PASS"; "FAIL"; "WARN"; "SKIP"])
            (execute_auto_checks p stage_ phase_ gate_type_ checklist)
  /\ forall item,
       In item checklist -> item_auto item = true ->
       mem (item_check item) known_checks = false ->
       In (mkCheck (item_id item) (item_desc item) "SKIP"
             ("Check '" ++ item_check item ++ "' not implemented yet"))
          (execute_auto_checks p stage_ phase_ gate_type_ checklist).
Proof.
  unfold execute_auto_checks.
  repeat split.
  - rewrite map_map. apply map_ext. intro item.
    destruct (run_check p stage_ phase_ (item_check item)); reflexivity.
  - rewrite map_map. apply map_ext. intro item.
    destruct (run_check p stage_ phase_ (item_check item)); reflexivity.
  - apply Forall_forall. intros r Hin.
    apply in_map_iff in Hin as (item & <- & _).
    pose proof (run_check_status p stage_ phase_ (item_check item)) as H.
    destruct (run_check p stage_ phase_ (item_check item)); exact H.
  - intros item Hin Hauto Hunknown.
    apply in_map_iff. exists item. split.
    + rewrite (run_check_unknown p stage_ phase_ _ Hunknown). reflexivity.
    + apply filter_In. auto.
Qed.

End AutoCheckProps.

(* ---------------------------------------------------------------------- *)
(** ** validate_gate: findings that invalidate a record, advisory checks, exit code *)
(* ---------------------------------------------------------------------- *)

Module ValidateExtras.
Import Str Py Re Cal GateConfig World GateValidators ValidateGate Spec.
Import StrProps ReProps SearchProps ValidateGateProps.

Lemma extends_errors (r r' : ValidationResult) (msg : string) :
  extends r r' -> In msg (errors r) -> In msg (errors r').
Proof.
  intros (e & _ & _ & -> & _) H. apply in_or_app. left. exact H.
Qed.



(** The twelve checks that raise nothing run first. *)
Lemma run_checks_split (w : world) (file_path content : string) (r : ValidationResult) :
  run_checks w file_path content r
  = run [ check_sequential_consistency w content; check_git_checkpoint w content ]
        (fold_left (fun result (c : ValidationResult -> ValidationResult) => c result)
           [ check_required_sections content;
             check_metadata w content;
             check_agent_invocation content;
             (fun result => fst (check_agent_responses content result));
             check_consolidated_checklist content;
             check_unresolved_issues content;
             check_signoffs content;
             check_gate_decision content;
             check_validation_section content;
             check_unfilled_placeholders w content;
             check_timestamp_consistency w content file_path;
             check_content_integrity content ] r).
Proof. reflexivity. Qed.



(** An error that the checks left invalidates the result that is
    returned. *)
Lemma error_makes_invalid (w : world) (file_path content msg : string)
    (r : ValidationResult) :
  read_file w file_path = inr content ->
  In msg (errors (fst (run_checks w file_path content new_result))) ->
  validate_gate w file_path = Done r ->
  In msg (errors r) /\ valid r = false.
Proof.
  intros Hread Hin Hr.
  rewrite (validate_gate_returned w file_path content r Hread Hr).
  cbn [errors valid set_valid]. split; [exact Hin|].
  destruct (errors (fst (run_checks w file_path content new_result)));
    [contradiction | reflexivity].
Qed.


(** ** A missing section *)

Lemma required_sections_reports (content section : string) (sections : list string) :
  In section sections -> contains section content = false ->
  forall r,
    In (missing_section_msg section)
       (errors (fold_left
          (fun result section =>
             if negb (contains section content)
             then add_error ("Missing required section: '" ++ section ++ "'. "
                             ++ "Copy from template: .claude-bus/templates/gate-validation-template.md")
                            result
             else add_info ("Found section: '" ++ section ++ "'") result)
          sections r)).
Proof.
  intros Hin Habsent.
  induction sections as [|h sections IH]; intro r; [contradiction|].
  cbn [fold_left]. destruct Hin as [-> | Hin]; [|apply IH; exact Hin].
  rewrite Habsent. cbn [negb].
  eapply extends_errors.
  - apply extends_fold. intros r0 x. destruct (negb (contains x content));
      [apply extends_add_error | apply extends_add_info].
  - cbn. apply in_or_app. right. left. reflexivity.
Qed.


(** ** An unfilled placeholder *)




End ValidateExtras.

(* ---------------------------------------------------------------------- *)
(** ** validate_gate: advisory checks, exit code *)
(* ---------------------------------------------------------------------- *)

Module AdvisoryProps.
Import Str Py Re Cal GateConfig World GateValidators ValidateGate Spec.
Import StrProps ReProps SearchProps ValidateGateProps ValidateExtras.

(** Whatever git answers, the git checkpoint check raises the same
    exception or returns a result with the errors it was given. *)
Lemma check_git_checkpoint_git (w : world) (git : string -> run_outcome)
    (content : string) (r : ValidationResult) :
  match check_git_checkpoint (with_git w git) content r,
        check_git_checkpoint w content r with
  | Done a, Done b => errors a = errors r /\ errors b = errors r
  | Raises e1, Raises e2 => e1 = e2
  | _, _ => False
  end.
Proof.
  unfold check_git_checkpoint. cbn [with_git git_cat_file].
  destruct (search gate_type_re content) as [gm|]; [|auto].
  destruct (search phase_re content) as [pm|]; [|auto].
  destruct (int (m_group pm 1)) as [phase|e]; [|reflexivity].
  destruct (negb (String.eqb (m_group gm 1) "Output") || (phase <? 2)%N); [auto|].
  destruct (find_commit_hash content) as [h|]; [|auto].
  destruct (match_here _ h); [|auto].
  destruct (git h) as [[|n]|]; destruct (git_cat_file w h) as [[|n']|]; auto.
Qed.

(** The git checkpoint check is advisory: whatever git answers, or when it
    is absent, [validate_gate] raises the same exception, or returns a
    result with the same errors and the same validity. *)
Theorem git_never_changes_validity
    (w : world) (git : string -> run_outcome) (file_path : string) :
  match validate_gate (with_git w git) file_path, validate_gate w file_path with
  | Done r1, Done r2 => errors r1 = errors r2 /\ valid r1 = valid r2
  | Raises e1, Raises e2 => e1 = e2
  | _, _ => False
  end.
Proof.
  unfold validate_gate.
  change (read_file (with_git w git) file_path) with (read_file w file_path).
  destruct (read_file w file_path) as [e | content]; [auto|].
  rewrite 2 run_checks_split.
  change (check_metadata (with_git w git) content) with (check_metadata w content).
  change (check_unfilled_placeholders (with_git w git) content)
    with (check_unfilled_placeholders w content).
  change (check_timestamp_consistency (with_git w git) content file_path)
    with (check_timestamp_consistency w content file_path).
  change (check_sequential_consistency (with_git w git) content)
    with (check_sequential_consistency w content).
  set (r12 := fold_left _ _ new_result). clearbody r12.
  cbn [run].
  destruct (check_sequential_consistency w content r12) as [r13|e]; [|reflexivity].
  pose proof (check_git_checkpoint_git w git content r13) as H.
  destruct (check_git_checkpoint (with_git w git) content r13) as [a|e1];
    destruct (check_git_checkpoint w content r13) as [b|e2];
    try contradiction; [|exact H].
  destruct H as [Ha Hb]. cbn [errors valid set_valid]. rewrite Ha, Hb. auto.
Qed.

(** [main] exits with 1 when it is given no argument and with 0 when the
    first argument asks for help.  Otherwise it validates the file the
    first argument names and exits with 1 when an exception leaves
    [validate_gate] or the record has errors, with 2 when it has warnings
    and no error, with 0 when it has neither. *)
Theorem main_exit_code_by_findings (w : world) (args : list string) :
  main w args
  = match args with
    | [] => 1
    | file_path :: _ =>
        if mem file_path ["-h"; "--help"] then 0
        else match validate_gate w file_path with
             | Raises _ => 1
             | Done r =>
                 match errors r, warnings r with
                 | _ :: _, _ => 1
                 | [], _ :: _ => 2
                 | [], [] => 0
                 end
             end
    end.
Proof.
  unfold main. destruct args as [|file_path rest]; [reflexivity|].
  destruct (mem file_path ["-h"; "--help"]); [reflexivity|].
  destruct (validate_gate_valid_shape w file_path) as [H _].
  destruct (validate_gate w file_path) as [r|e]; [|reflexivity].
  rewrite (H r eq_refl).
  destruct (errors r); reflexivity.
Qed.

(** A record with no finding but a phase of 4301 digits: the process ends
    with the exit code 1. *)
Example main_exit_code_long_number :
  main (Samples.world_with "gate.md" Samples.long_phase_record) ["gate.md"] = 1
  /\ main Samples.bare_world ["--help"] = 0
  /\ main Samples.bare_world [] = 1.
Proof. vm_compute. repeat split. Qed.

End AdvisoryProps.

Module TimestampExtras.
Import Str Py Re Cal GateConfig World GateValidators ValidateGate Spec.
Import ValidateGateProps ValidateExtras.

Lemma date_lt_irrefl (d : date) : date_lt d d = false.
Proof. unfold date_lt. apply N.ltb_irrefl. Qed.

(** A gate date after today is reported as a fabrication indicator, and a
    gate date that is not after today, today itself included, never is. *)
Theorem gate_date_in_future_is_flagged
    (w : world) (content file_path date_text : string) (d : datetime)
    (r : ValidationResult) :
  gate_date_text content = Some date_text ->
  strptime_ymd date_text = Some d ->
  (date_lt (dt_date (now w)) (dt_date d) = true ->
   In (future_date_msg date_text)
      (errors (check_timestamp_consistency w content file_path r)))
  /\ (date_lt (dt_date (now w)) (dt_date d) = false ->
      In (future_date_msg date_text)
         (errors (check_timestamp_consistency w content file_path r)) ->
      In (future_date_msg date_text) (errors r))
  /\ date_lt (dt_date (now w)) (dt_date (now w)) = false.
Proof.
  unfold gate_date_text. intros Hdate Hparse.
  split; [|split; [|apply date_lt_irrefl]].
  - intro Hlt.
    unfold check_timestamp_consistency.
    destruct (search date_re content) as [m|]; [|discriminate].
    unfold option_map in Hdate. injection Hdate as Hd. rewrite Hd, Hparse.
    cbv zeta. rewrite Hlt.
    fold (future_date_msg date_text).
    set (r1 := add_error (future_date_msg date_text) r).
    assert (H1 : In (future_date_msg date_text) (errors r1)).
    { subst r1. cbn. apply in_or_app. right. left. reflexivity. }
    clearbody r1.
    repeat match goal with
           | |- context [if ?b then _ else _] => destruct b
           | |- context [match ?x with _ => _ end] => destruct x
           end;
      cbn [errors add_error add_warning];
      repeat (apply in_or_app; left); exact H1.
  - intros Hnot Hin.
    unfold check_timestamp_consistency in Hin.
    destruct (search date_re content) as [m|]; [|discriminate].
    unfold option_map in Hdate. injection Hdate as Hd. rewrite Hd, Hparse in Hin.
    cbv zeta in Hin. rewrite Hnot in Hin.
    repeat match type of Hin with
           | context [if ?b then _ else _] => destruct b
           | context [match ?x with _ => _ end] => destruct x
           end;
      cbn [errors add_error add_warning] in Hin;
      repeat (apply in_app_or in Hin as [Hin | Hin]);
      try exact Hin;
      cbn [In] in Hin; destruct Hin as [Hin | []];
      unfold future_date_msg in Hin; cbn [append] in Hin; discriminate Hin.
Qed.

(** Every check only appends: a run of the fourteen checks keeps all the
    errors, warnings and info it starts from, in their order, in the result
    object as the run leaves it, also when a check stops the run. *)
Theorem checks_only_append (w : world) (file_path content : string) (r : ValidationResult) :
  extends r (fst (run_checks w file_path content r)).
Proof.
  unfold run_checks. apply run_extends. apply checks_extending.
Qed.

End TimestampExtras.

(* ---------------------------------------------------------------------- *)
(** ** From the record, the alerts and the sign-off to the verdict of a run *)
(* ---------------------------------------------------------------------- *)

Module EndToEnd.
Import Str Py Json Re Cal GateConfig World GateValidators ValidateGate AlertManager.
Import GateWorkflow Spec.
Import StrProps ReProps SearchProps ValidateGateProps GateWorkflowProps.
Import WorkflowStatus ValidateExtras.

Lemma read_file_exists (w : world) (file_path content : string) :
  read_file w file_path = inr content ->
  stat_error w file_path = None /\ exists_ w file_path = true.
Proof.
  unfold read_file, exists_. destruct (stat_error w file_path); [discriminate|].
  destruct (fs w file_path); [auto | discriminate].
Qed.

(** *** When the run returns *)

Lemma returned_not_aborted (c : collaborators) (o : options) (stage_ phase_ : N)
    (gate_type_ : string) (r : workflow_result) :
  run_gate_workflow c o stage_ phase_ gate_type_ = Done r ->
  aborted c o stage_ phase_ gate_type_ = None.
Proof.
  intro H. rewrite run_gate_workflow_outcome in H.
  destruct (aborted c o stage_ phase_ gate_type_); [discriminate H | reflexivity].
Qed.





(** *** A record that fails *)

Lemma failed_record_verdict (c : collaborators) (o : options) (stage_ phase_ : N)
    (gate_type_ : string) (r : workflow_result) :
  record_failed c o = true ->
  run_gate_workflow c o stage_ phase_ gate_type_ = Done r ->
  can_proceed r = false /\ In (exit_code r) [1; 2].
Proof.
  intros H Hr. unfold exit_code.
  destruct (run_verdict c o stage_ phase_ gate_type_ r Hr) as [-> ->]. rewrite H.
  destruct (critical_anomaly c), (signoff_pending c o stage_ phase_ gate_type_),
    (alert_blocked c o phase_ gate_type_); cbn; auto.
Qed.

(** An ASCII gate record that lacks a required section never passes the
    workflow.  The run returns unless the alert check, the validation of
    the record or the sign-off check raises; whatever the other steps find,
    a result that is returned cannot proceed and has the exit code 1 or 2,
    and a run that an exception ends exits with 1. *)
Theorem record_without_section_fails_run
    (c : collaborators) (o : options) (stage_ phase_ : N) (gate_type_ : string)
    (a : ascii) (path content section : string) :
  gate_file o = Some (String a path) ->
  validate_gate_present c = true ->
  read_file (files c) (String a path) = inr content ->
  is_ascii content = true ->
  In section REQUIRED_SECTIONS ->
  contains section content = false ->
  match aborted c o stage_ phase_ gate_type_ with
  | Some e => run_gate_workflow c o stage_ phase_ gate_type_ = Raises e
  | None =>
      exists r,
        run_gate_workflow c o stage_ phase_ gate_type_ = Done r
        /\ can_proceed r = false
        /\ In (exit_code r) [1; 2]
  end
  /\ In (main_exit_code (run_gate_workflow c o stage_ phase_ gate_type_)) [1; 2].
Proof.
  intros Hfile Hpresent Hread _ Hin Habsent.
  assert (Hverdict : forall r,
            run_gate_workflow c o stage_ phase_ gate_type_ = Done r ->
            can_proceed r = false /\ In (exit_code r) [1; 2]).
  { intros r Hr.
    apply (failed_record_verdict c o stage_ phase_ gate_type_ r); [|exact Hr].
    pose proof (returned_not_aborted c o stage_ phase_ gate_type_ r Hr) as Hab.
    destruct (read_file_exists _ _ _ Hread) as [Hstat Hex].
    unfold record_failed, record_validation. rewrite Hfile, Hstat, Hex, Hpresent.
    cbn [andb].
    destruct (validate_gate (files c) (String a path)) as [v|e] eqn:Ev.
    - assert (Hinvalid : valid v = false).
      { apply (error_makes_invalid (files c) (String a path) content
                 (missing_section_msg section) v Hread); [|exact Ev].
        eapply extends_errors; [apply run_checks_extends|].
        unfold check_required_sections.
        apply required_sections_reports; assumption. }
      rewrite Hinvalid. reflexivity.
    - exfalso. unfold aborted, record_validation in Hab.
      rewrite Hfile, Hstat, Hex, Hpresent, Ev in Hab. cbn [andb] in Hab.
      destruct (if skip_alerts o then None else _); discriminate Hab. }
  pose proof (run_gate_workflow_outcome c o stage_ phase_ gate_type_) as H.
  destruct (aborted c o stage_ phase_ gate_type_) as [e|].
  - split; [exact H | rewrite H; cbn; auto].
  - destruct (Hverdict _ H) as [Hcp Hx].
    split; [eexists; split; [exact H | auto]|].
    rewrite H. exact Hx.
Qed.

(** An output gate of phase 2 or later passes only with a sign-off record
    whose status is VERIFIED, unless the sign-off check is skipped. *)
Theorem pass_needs_verified_signoff
    (c : collaborators) (o : options) (stage_ phase_ : N) (gate_type_ : string)
    (r : workflow_result) :
  skip_signoff o = false ->
  requires_user_signoff phase_ gate_type_ = true ->
  run_gate_workflow c o stage_ phase_ gate_type_ = Done r ->
  can_proceed r = true ->
  exists verified_at token expires_at,
    signoff c stage_ phase_ gate_type_
    = SignoffRecord (Some "VERIFIED") verified_at token expires_at.
Proof.
  intros Hskip Hreq Hr Hgo.
  pose proof (returned_not_aborted c o stage_ phase_ gate_type_ r Hr) as Hab.
  rewrite (proj2 (run_verdict c o stage_ phase_ gate_type_ r Hr)) in Hgo.
  apply negb_true_iff in Hgo.
  apply orb_false_iff in Hgo as [Hgo _].
  apply orb_false_iff in Hgo as [Hgo _].
  apply orb_false_iff in Hgo as [_ Hpending].
  assert (Hs : exists s, check_signoff_status c stage_ phase_ gate_type_ = Done s).
  { unfold aborted in Hab. rewrite Hskip in Hab.
    destruct (check_signoff_status c stage_ phase_ gate_type_) as [s|e]; [eauto|].
    exfalso.
    destruct (if skip_alerts o then None else _); [discriminate Hab|].
    destruct (record_validation c o) as [[v|e']|]; discriminate Hab. }
  destruct Hs as [s Hs].
  unfold signoff_pending in Hpending. rewrite Hskip, Hs in Hpending.
  cbn [negb andb] in Hpending.
  revert Hs Hpending. unfold check_signoff_status. rewrite Hreq. cbn [negb].
  destruct (signoff c stage_ phase_ gate_type_) as [|e| |t|st verified_at token expires_at];
    intro Hs; try discriminate Hs;
    try (injection Hs as <-; intro Hp; discriminate Hp).
  destruct st as [x|]; cbn [is_value] in Hs;
    [|injection Hs as <-; intro Hp; discriminate Hp].
  destruct (String.eqb_spec x "VERIFIED") as [->|];
    [|injection Hs as <-; intro Hp; discriminate Hp].
  intros _. eauto.
Qed.

(** *** What the run keeps of a step *)

Section Appending.

Variable c : collaborators.
Variable o : options.
Variables (stage_ phase_ : N) (gate_type_ : string).

Ltac appends_returned :=
  intros r r' H; returned H;
  cbn [steps actions_required add_step add_action set_status set_can_proceed
         set_checklist_results set_relevant_memories];
  eexists; eexists;
  (split; [reflexivity | first [reflexivity | symmetry; apply app_nil_r]]).

Lemma step_alert_check_appending : appending (step_alert_check c o phase_ gate_type_).
Proof. unfold step_alert_check. appends_returned. Qed.

Lemma step_checklist_appending :
  appending (total (step_checklist c stage_ phase_ gate_type_)).
Proof. unfold total, step_checklist. appends_returned. Qed.

Lemma step_validate_gate_record_appending : appending (step_validate_gate_record c o).
Proof. unfold step_validate_gate_record. appends_returned. Qed.

Lemma step_user_signoff_appending :
  appending (step_user_signoff c o stage_ phase_ gate_type_).
Proof. unfold step_user_signoff. appends_returned. Qed.

Lemma step_super_ai_audit_appending :
  appending (total (step_super_ai_audit c o phase_ gate_type_)).
Proof. unfold total, step_super_ai_audit. appends_returned. Qed.

Lemma step_memory_query_appending : appending (total (step_memory_query c)).
Proof. unfold total, step_memory_query. appends_returned. Qed.

Lemma step_anomaly_detection_appending : appending (total (step_anomaly_detection c)).
Proof. unfold total, step_anomaly_detection. appends_returned. Qed.

Lemma step_memory_checkpoint_appending :
  appending (total (step_memory_checkpoint c phase_ gate_type_)).
Proof. unfold total, step_memory_checkpoint. appends_returned. Qed.

Lemma step_secure_event_log_appending : appending (total (step_secure_event_log c)).
Proof. unfold total, step_secure_event_log. appends_returned. Qed.

Lemma workflow_steps_appending :
  Forall appending (workflow_steps c o stage_ phase_ gate_type_).
Proof.
  unfold workflow_steps.
  repeat constructor;
    first [ apply step_alert_check_appending
          | apply step_checklist_appending
          | apply step_validate_gate_record_appending
          | apply step_user_signoff_appending
          | apply step_super_ai_audit_appending
          | apply step_memory_query_appending
          | apply step_anomaly_detection_appending
          | apply step_memory_checkpoint_appending
          | apply step_secure_event_log_appending ].
Qed.

End Appending.

Lemma run_steps_appending (l : list (workflow_result -> outcome workflow_result)) :
  Forall appending l ->
  forall r, exists ss acts,
    steps (fst (run l r)) = (steps r ++ ss)%list
    /\ actions_required (fst (run l r)) = (actions_required r ++ acts)%list.
Proof.
  induction 1 as [|f l Hf Hl IH]; intro r; cbn [run].
  - exists [], []. rewrite !app_nil_r. auto.
  - destruct (f r) as [r'|e] eqn:E.
    + destruct (Hf r r' E) as (s1 & a1 & Hs1 & Ha1).
      destruct (IH r') as (s2 & a2 & Hs2 & Ha2).
      exists (s1 ++ s2)%list, (a1 ++ a2)%list.
      rewrite Hs2, Ha2, Hs1, Ha1, !app_assoc. auto.
    + exists [], []. rewrite !app_nil_r. auto.
Qed.

Lemma run_app {A : Type} (l1 l2 : list (A -> outcome A)) (a : A) :
  run (l1 ++ l2) a
  = match run l1 a with
    | (a1, None) => run l2 a1
    | (a1, Some e) => (a1, Some e)
    end.
Proof.
  revert a. induction l1 as [|f l1 IH]; intro a; cbn [app run]; [reflexivity|].
  destruct (f a) as [a'|e]; [apply IH | reflexivity].
Qed.

(** The steps and the actions the first steps leave are still in the result
    that is returned, before those of the later steps. *)
Lemma run_keeps (c : collaborators) (o : options) (stage_ phase_ : N)
    (gate_type_ : string) (done rest : list (workflow_result -> outcome workflow_result))
    (r : workflow_result) :
  workflow_steps c o stage_ phase_ gate_type_ = (done ++ rest)%list ->
  run_gate_workflow c o stage_ phase_ gate_type_ = Done r ->
  exists rd ss acts,
    run done (initial_result stage_ phase_ gate_type_) = (rd, None)
    /\ steps r = (steps rd ++ ss)%list
    /\ actions_required r = (actions_required rd ++ acts)%list.
Proof.
  intros Hsplit Hr.
  pose proof (workflow_steps_appending c o stage_ phase_ gate_type_) as Hall.
  unfold run_gate_workflow, run_steps in Hr. apply finish_done in Hr.
  rewrite Hsplit in *. apply Forall_app in Hall as [_ Hrest].
  rewrite run_app in Hr.
  destruct (run done (initial_result stage_ phase_ gate_type_)) as [rd [e|]];
    [discriminate Hr|].
  destruct (run_steps_appending rest Hrest rd) as (ss & acts & Hs & Ha).
  rewrite Hr in Hs, Ha. cbn [fst] in Hs, Ha.
  exists rd, ss, acts. auto.
Qed.

(** On an ASCII gate record, when one is given, with an alerts file that
    reads to its end as objects: one active critical alert in the alerts
    file blocks the run, unless the alert check is skipped.  The alert
    step records alert_check with status BLOCKED and the id of the alert
    among its details.  The run returns unless the validation of the
    record or the sign-off check raises; the result returned cannot
    proceed, has that step first and the action resolve_alerts; the exit
    code of the process is never 0. *)
Theorem active_critical_alert_blocks_run
    (c : collaborators) (o : options) (stage_ phase_ : N) (gate_type_ : string)
    (a : alert) :
  record_is_ascii c o ->
  skip_alerts o = false ->
  objects_only (alerts_file c) = true ->
  In a (alerts_read (alerts_file c)) ->
  is_blocking a = true ->
  (exists r1 s,
     step_alert_check c o phase_ gate_type_ (initial_result stage_ phase_ gate_type_)
     = Done r1
     /\ steps r1 = [s]
     /\ step s = "alert_check" /\ step_status s = "BLOCKED"
     /\ (forall v, a_id a = Some v -> In v (details s))
     /\ (a_id a = None -> In (VStr "unknown") (details s))
     /\ can_proceed r1 = false)
  /\ match aborted c o stage_ phase_ gate_type_ with
     | Some e => run_gate_workflow c o stage_ phase_ gate_type_ = Raises e
     | None =>
         exists r s later,
           run_gate_workflow c o stage_ phase_ gate_type_ = Done r
           /\ can_proceed r = false
           /\ steps r = s :: later
           /\ step s = "alert_check" /\ step_status s = "BLOCKED"
           /\ (forall v, a_id a = Some v -> In v (details s))
           /\ In resolve_alerts_action (actions_required r)
     end
  /\ Nat.eqb (main_exit_code (run_gate_workflow c o stage_ phase_ gate_type_)) 0 = false.
Proof.
  intros _ Hskip Hobj Hin Hblocking.
  assert (Hex : existsb is_blocking (alerts_read (alerts_file c)) = true)
    by (apply existsb_exists; eauto).
  destruct (AlertProps.check_blocking_alerts_objects c (next_phase phase_ gate_type_) Hobj)
    as (report & Hreport & Hno & _ & Hlist).
  rewrite Hex in Hno. cbn [negb] in Hno. specialize (Hlist Hex).
  pose proof (step_alert_check_blocked c o phase_ gate_type_ report
                (initial_result stage_ phase_ gate_type_) Hskip Hreport Hno) as Hstep.
  rewrite Hlist in Hstep.
  assert (Hid : In (id_or_unknown a)
                  (map id_or_unknown (filter is_blocking (alerts_read (alerts_file c))))).
  { apply in_map. apply filter_In. auto. }
  assert (Hsome : forall v, a_id a = Some v ->
            In v (map id_or_unknown (filter is_blocking (alerts_read (alerts_file c))))).
  { intros v Hv. unfold id_or_unknown at 1 in Hid. rewrite Hv in Hid. exact Hid. }
  assert (Hnone : a_id a = None ->
            In (VStr "unknown")
               (map id_or_unknown (filter is_blocking (alerts_read (alerts_file c))))).
  { intros Hv. unfold id_or_unknown at 1 in Hid. rewrite Hv in Hid. exact Hid. }
  assert (Hblocked : alert_blocked c o phase_ gate_type_ = true).
  { unfold alert_blocked. rewrite Hskip, Hreport, Hno. reflexivity. }
  assert (Hrun : match aborted c o stage_ phase_ gate_type_ with
                 | Some e => run_gate_workflow c o stage_ phase_ gate_type_ = Raises e
                 | None =>
                     exists r s later,
                       run_gate_workflow c o stage_ phase_ gate_type_ = Done r
                       /\ can_proceed r = false
                       /\ steps r = s :: later
                       /\ step s = "alert_check" /\ step_status s = "BLOCKED"
                       /\ (forall v, a_id a = Some v -> In v (details s))
                       /\ In resolve_alerts_action (actions_required r)
                 end).
  { pose proof (run_gate_workflow_outcome c o stage_ phase_ gate_type_) as H.
    destruct (aborted c o stage_ phase_ gate_type_) as [e|]; [exact H|].
    destruct (run_keeps c o stage_ phase_ gate_type_
                [step_alert_check c o phase_ gate_type_]
                [ total (step_checklist c stage_ phase_ gate_type_);
                  step_validate_gate_record c o;
                  step_user_signoff c o stage_ phase_ gate_type_;
                  total (step_super_ai_audit c o phase_ gate_type_);
                  total (step_memory_query c);
                  total (step_anomaly_detection c);
                  total (step_memory_checkpoint c phase_ gate_type_);
                  total (step_secure_event_log c) ] _ eq_refl H)
      as (rd & ss & acts & Hd & Hsteps & Hacts).
    cbn [run] in Hd. rewrite Hstep in Hd. injection Hd as <-.
    cbn [steps actions_required add_step add_action set_status set_can_proceed
           initial_result app] in Hsteps, Hacts.
    eexists. eexists. eexists. split; [exact H|].
    split.
    { rewrite (proj2 (run_verdict c o stage_ phase_ gate_type_ _ H)), Hblocked.
      rewrite !orb_true_r. reflexivity. }
    split; [exact Hsteps|].
    cbn [step step_status details].
    split; [reflexivity|]. split; [reflexivity|]. split; [exact Hsome|].
    rewrite Hacts. left. reflexivity. }
  split; [|split; [exact Hrun|]].
  - eexists. eexists. split; [exact Hstep|].
    cbn [steps add_step add_action set_status set_can_proceed initial_result app
           step step_status details can_proceed].
    repeat split; auto.
  - destruct (aborted c o stage_ phase_ gate_type_) as [e|].
    + rewrite Hrun. reflexivity.
    + destruct Hrun as (r & s & later & Hr & Hcp & _).
      rewrite Hr. cbn [main_exit_code process_exit_code].
      pose proof (exit_code_of_verdict c o stage_ phase_ gate_type_ r Hr) as Hx.
      rewrite Hcp in Hx. exact Hx.
Qed.

(** On an ASCII gate record, when one is given: a sign-off that is required
    and whose record can be read and is not a verified one tells the user
    what to run.  The run returns unless the alert check or the validation
    of the record raises, and the result returned holds the action
    verify_signoff, with the token, when there is a sign-off record, else
    the action request_signoff with the command for this gate. *)
Theorem pending_signoff_names_the_command
    (c : collaborators) (o : options) (stage_ phase_ : N) (gate_type_ : string) :
  record_is_ascii c o ->
  skip_signoff o = false ->
  requires_user_signoff phase_ gate_type_ = true ->
  signoff_readable (signoff c stage_ phase_ gate_type_) = true ->
  (forall verified_at token expires_at,
     signoff c stage_ phase_ gate_type_
     <> SignoffRecord (Some "VERIFIED") verified_at token expires_at) ->
  match aborted c o stage_ phase_ gate_type_ with
  | Some e => run_gate_workflow c o stage_ phase_ gate_type_ = Raises e
  | None =>
      exists r act,
        run_gate_workflow c o stage_ phase_ gate_type_ = Done r
        /\ In act (actions_required r)
        /\ match signoff c stage_ phase_ gate_type_ with
           | SignoffRecord _ _ token expires_at =>
               action_name act = "verify_signoff"
               /\ command act
                  = Some ("python3 .claude-bus/scripts/user_signoff.py verify --token "
                          ++ show token)
           | _ =>
               action_name act = "request_signoff"
               /\ command act = Some (request_command stage_ phase_ gate_type_)
           end
  end.
Proof.
  intros _ Hskip Hreq Hreadable Hnot.
  pose proof (run_gate_workflow_outcome c o stage_ phase_ gate_type_) as H.
  destruct (aborted c o stage_ phase_ gate_type_) as [e|]; [exact H|].
  destruct (run_keeps c o stage_ phase_ gate_type_
              [ step_alert_check c o phase_ gate_type_;
                total (step_checklist c stage_ phase_ gate_type_);
                step_validate_gate_record c o;
                step_user_signoff c o stage_ phase_ gate_type_ ]
              [ total (step_super_ai_audit c o phase_ gate_type_);
                total (step_memory_query c);
                total (step_anomaly_detection c);
                total (step_memory_checkpoint c phase_ gate_type_);
                total (step_secure_event_log c) ] _ eq_refl H)
    as (rd & ss & acts & Hd & _ & Hacts).
  cbn [run] in Hd. unfold total in Hd.
  destruct (step_alert_check c o phase_ gate_type_ _) as [r1|e1]; [|discriminate Hd].
  destruct (step_validate_gate_record c o _) as [r3|e3]; [|discriminate Hd].
  destruct (step_user_signoff c o stage_ phase_ gate_type_ r3) as [r4|e4] eqn:E4;
    [|discriminate Hd].
  injection Hd as <-.
  assert (Hkept : forall act,
            In act (actions_required r4) ->
            In act (actions_required
                      (fst (run_steps (workflow_steps c o stage_ phase_ gate_type_)
                              (initial_result stage_ phase_ gate_type_))))).
  { intros act Hact. rewrite Hacts. apply in_or_app. left. exact Hact. }
  clear Hacts.
  exists (fst (run_steps (workflow_steps c o stage_ phase_ gate_type_)
                 (initial_result stage_ phase_ gate_type_))).
  revert E4 Hkept. unfold step_user_signoff, check_signoff_status.
  rewrite Hskip, Hreq. cbn [negb].
  destruct (signoff c stage_ phase_ gate_type_) as [|e| |t|st verified_at token expires_at];
    try discriminate Hreadable.
  - intros E4 Hkept. injection E4 as <-. eexists. split; [exact H|].
    split; [apply Hkept; cbn; apply in_or_app; right; left; reflexivity|].
    split; reflexivity.
  - intros E4 Hkept. injection E4 as <-. eexists. split; [exact H|].
    split; [apply Hkept; cbn; apply in_or_app; right; left; reflexivity|].
    split; reflexivity.
  - destruct (is_value st "VERIFIED") eqn:Ev.
    + exfalso. destruct st as [x|]; [|discriminate Ev].
      cbn in Ev. apply String.eqb_eq in Ev. subst x.
      exact (Hnot verified_at token expires_at eq_refl).
    + intros E4 Hkept. injection E4 as <-. eexists. split; [exact H|].
      split; [apply Hkept; cbn; apply in_or_app; right; left; reflexivity|].
      split; reflexivity.
Qed.

End EndToEnd.

Module MetadataProps.
Import Str Py Re Cal GateConfig World GateValidators ValidateGate Spec.
Import StrProps ReProps SearchProps ValidateGateProps ValidateExtras.





End MetadataProps.

(* ---------------------------------------------------------------------- *)
(** ** alert_manager.py: the alert store *)
(* ---------------------------------------------------------------------- *)

Module AlertStoreProps.
Import Str Py Json AlertManager AlertStore AlertSpec.

(** ** Dicts *)

Lemma dict_get_set_other (k key : string) (v : value) (d : dict) :
  k <> key -> dict_get k (dict_set key v d) = dict_get k d.
Proof.
  intro Hne. induction d as [|[k0 x] d IH]; cbn.
  - destruct (String.eqb_spec key k); congruence.
  - destruct (String.eqb_spec k0 key) as [->|Hk0]; cbn.
    + destruct (String.eqb_spec key k); congruence.
    + destruct (String.eqb_spec k0 k); [reflexivity | exact IH].
Qed.

Lemma dict_get_set_same (key : string) (v : value) (d : dict) :
  dict_get key (dict_set key v d) = Some v.
Proof.
  induction d as [|[k0 x] d IH]; cbn.
  - rewrite String.eqb_refl. reflexivity.
  - destruct (String.eqb_spec k0 key) as [->|Hk0]; cbn.
    + rewrite String.eqb_refl. reflexivity.
    + destruct (String.eqb_spec k0 key); [congruence | exact IH].
Qed.

Lemma view_resolved (now : string) (d : dict) :
  view (dict_set "resolved_at" (VStr now) (dict_set "status" (VStr "resolved") d))
  = mkAlert (a_id (view d)) (a_severity (view d)) (Some (VStr "resolved")).
Proof.
  unfold view. cbn [a_id a_severity].
  rewrite !dict_get_set_other by discriminate.
  rewrite dict_get_set_same. reflexivity.
Qed.

Lemma has_id (id : string) (d : dict) :
  has a_id [id] (view d) = get_is "id" id d.
Proof.
  unfold has, view, get_is. cbn [a_id].
  destruct (dict_get "id" d) as [[x|n|l|]|]; cbn; try reflexivity.
  apply orb_false_r.
Qed.

(** ** The ids the tool gives *)

Lemma uint_of_zeros (n : nat) (d : Decimal.uint) :
  option_map N.of_uint
    (NilEmpty.uint_of_string (zeros n ++ NilEmpty.string_of_uint d))
  = Some (N.of_uint d).
Proof.
  induction n as [|n IH]; cbn [zeros append].
  - rewrite NilEmpty.usu. reflexivity.
  - cbn [NilEmpty.uint_of_string].
    destruct (NilEmpty.uint_of_string (zeros n ++ NilEmpty.string_of_uint d)) as [u|];
      [|discriminate].
    cbn in IH |- *. injection IH as IH. rewrite <- IH. reflexivity.
Qed.

Lemma pad3_injective (a b : nat) : pad3 a = pad3 b -> a = b.
Proof.
  unfold pad3, of_nat, of_N. intro H.
  apply (f_equal (fun s => option_map N.of_uint (NilEmpty.uint_of_string s))) in H.
  rewrite !uint_of_zeros, !DecimalN.Unsigned.of_to in H.
  injection H as H. apply Nat2N.inj. exact H.
Qed.

Lemma alert_id_injective (a b : nat) : alert_id a = alert_id b -> a = b.
Proof.
  unfold alert_id. cbn [append]. intro H. injection H as H. apply pad3_injective. exact H.
Qed.

Lemma nodup_map_injective {A B : Type} (f : A -> B) (l : list A) :
  (forall a b, f a = f b -> a = b) -> NoDup l -> NoDup (map f l).
Proof.
  intros Hf Hl. induction Hl as [|x l Hx Hl IH]; cbn [map]; constructor; [|exact IH].
  rewrite in_map_iff. intros (y & Hy & Hin). apply Hf in Hy. subst y. contradiction.
Qed.

Lemma numbered_nodup (alerts : list dict) : numbered alerts -> NoDup (ids alerts).
Proof.
  unfold numbered. intros ->.
  apply nodup_map_injective; [|apply seq_NoDup].
  intros a b H. apply alert_id_injective. congruence.
Qed.

Lemma numbered_app (alerts : list dict) (d : dict) :
  numbered alerts ->
  get_str "id" d = Some (alert_id (List.length alerts + 1)) ->
  numbered (alerts ++ [d]).
Proof.
  unfold numbered, ids. intros H Hd.
  rewrite map_app, H, length_app. cbn [List.length map].
  rewrite Nat.add_1_r, seq_S, map_app. cbn [map Nat.add].
  rewrite Hd, Nat.add_1_r. reflexivity.
Qed.

(** ** The loop of resolve_alert *)

Lemma get_str_resolved (now : string) (d : dict) :
  get_str "id" (dict_set "resolved_at" (VStr now) (dict_set "status" (VStr "resolved") d))
  = get_str "id" d.
Proof.
  unfold get_str. rewrite !dict_get_set_other by discriminate. reflexivity.
Qed.

Lemma resolve_first_ids (id now : string) (alerts alerts' : list dict) :
  resolve_first id now alerts = Some alerts' ->
  ids alerts' = ids alerts /\ List.length alerts' = List.length alerts.
Proof.
  revert alerts'. induction alerts as [|d l IH]; intros alerts' H; cbn in H; [discriminate|].
  destruct (get_is "id" id d).
  - injection H as <-. unfold ids. cbn [map List.length].
    rewrite get_str_resolved. auto.
  - destruct (resolve_first id now l) as [l'|]; [|discriminate].
    injection H as <-. destruct (IH l' eq_refl) as [Hi Hl].
    unfold ids in *. cbn [map List.length]. rewrite Hi, Hl. auto.
Qed.

Lemma resolve_first_found (id now : string) (alerts : list dict) :
  match resolve_first id now alerts with
  | Some _ => true
  | None => false
  end = existsb (get_is "id" id) alerts.
Proof.
  induction alerts as [|d l IH]; cbn; [reflexivity|].
  destruct (get_is "id" id d); cbn; [reflexivity|].
  destruct (resolve_first id now l); exact IH.
Qed.

Lemma filter_id_none (id : string) (l : list dict) :
  ~ In (Some id) (ids l) ->
  filter (fun a => negb (has a_id [id] a)) (filter (has a_status ["active"]) (map view l))
  = filter (has a_status ["active"]) (map view l).
Proof.
  intro Hno. induction l as [|d l IH]; cbn [map filter]; [reflexivity|].
  assert (Hd : has a_id [id] (view d) = false).
  { rewrite has_id. unfold get_is. unfold ids, get_str in Hno. cbn [map In] in Hno.
    destruct (dict_get "id" d) as [[x|n|l0|]|]; try reflexivity.
    destruct (String.eqb_spec x id) as [->|]; [|reflexivity].
    exfalso. apply Hno. left. reflexivity. }
  assert (Hl : ~ In (Some id) (ids l)).
  { intro H. apply Hno. right. exact H. }
  destruct (has a_status ["active"] (view d)); cbn [filter].
  - rewrite Hd. cbn [negb]. rewrite (IH Hl). reflexivity.
  - apply (IH Hl).
Qed.

(** In a file whose ids are distinct, the alerts that are active after
    [resolve_first] are the ones that were, without the one with the id. *)
Lemma resolve_first_active (id now : string) (alerts alerts' : list dict) :
  NoDup (ids alerts) ->
  resolve_first id now alerts = Some alerts' ->
  filter (has a_status ["active"]) (map view alerts')
  = filter (fun a => negb (has a_id [id] a))
      (filter (has a_status ["active"]) (map view alerts)).
Proof.
  revert alerts'. induction alerts as [|d l IH]; intros alerts' Hnodup H; cbn in H;
    [discriminate|].
  unfold ids in Hnodup. cbn [map] in Hnodup. apply NoDup_cons_iff in Hnodup as [Hfresh Hl].
  destruct (get_is "id" id d) eqn:Hd.
  - injection H as <-. cbn [map filter]. rewrite view_resolved.
    assert (Hid : get_str "id" d = Some id).
    { unfold get_is in Hd. unfold get_str.
      destruct (dict_get "id" d) as [[x|n|l0|]|]; try discriminate.
      apply String.eqb_eq in Hd. congruence. }
    rewrite Hid in Hfresh.
    change (has a_status ["active"] (mkAlert (a_id (view d)) (a_severity (view d))
                                       (Some (VStr "resolved")))) with false.
    cbv iota.
    destruct (has a_status ["active"] (view d)); cbn [filter].
    + rewrite has_id, Hd. cbn [negb]. symmetry. apply filter_id_none. exact Hfresh.
    + symmetry. apply filter_id_none. exact Hfresh.
  - destruct (resolve_first id now l) as [l'|]; [|discriminate].
    injection H as <-. cbn [map filter].
    destruct (has a_status ["active"] (view d)); cbn [filter].
    + rewrite has_id, Hd. cbn [negb]. f_equal. apply IH; [exact Hl | reflexivity].
    + apply IH; [exact Hl | reflexivity].
Qed.

Lemma resolve_first_absent (id now : string) (alerts : list dict) :
  resolve_first id now alerts = None -> ~ In (Some id) (ids alerts).
Proof.
  induction alerts as [|d l IH]; cbn; intros H Hin; [exact Hin|].
  destruct (get_is "id" id d) eqn:Hd; [discriminate|].
  destruct (resolve_first id now l); [discriminate|].
  destruct Hin as [Hin | Hin]; [|exact (IH eq_refl Hin)].
  unfold get_is in Hd. unfold get_str in Hin.
  destruct (dict_get "id" d) as [[x|n|l0|]|]; try discriminate.
  injection Hin as ->. rewrite String.eqb_refl in Hd. discriminate.
Qed.

(** ** Reading a file of objects *)

Lemma alerts_of_objects (file : store) : Spec.objects_only (alerts_of file) = true.
Proof.
  destruct file as [l|]; [|reflexivity]. cbn [alerts_of option_map Spec.objects_only].
  induction l as [|d l IH]; [reflexivity | exact IH].
Qed.

Lemma alerts_of_read (file : store) :
  Spec.alerts_read (alerts_of file) = map view (load_alerts file).
Proof.
  destruct file as [l|]; [|reflexivity].
  cbn [alerts_of option_map Spec.alerts_read load_alerts].
  induction l as [|d l IH]; [reflexivity|]. cbn [map flat_map app]. rewrite IH. reflexivity.
Qed.

(** Reading a file of objects raises nothing. *)
Lemma get_active_alerts_store (file : store) :
  get_active_alerts (alerts_of file)
  = Done (filter (has a_status ["active"]) (map view (load_alerts file))).
Proof.
  rewrite (AlertProps.get_active_alerts_objects _ (alerts_of_objects file)).
  rewrite alerts_of_read. reflexivity.
Qed.

(** ** Files written by the tool *)

Lemma main_numbered (now : string) (cmd : command) (file : store) :
  numbered (load_alerts file) -> numbered (load_alerts (fst (main now cmd file))).
Proof.
  intro H. destruct cmd as [severity message notification_type actions agent | id];
    cbn [main fst].
  - unfold save_alert. cbn [load_alerts]. apply numbered_app; [exact H | reflexivity].
  - unfold resolve_alert.
    destruct (resolve_first id now (load_alerts file)) as [l'|] eqn:E; cbn [fst];
      [|exact H].
    cbn [load_alerts]. apply (resolve_first_ids id now) in E as [Hi Hl].
    unfold numbered in *. rewrite Hi, Hl. exact H.
Qed.

Lemma run_history_numbered (history : list (string * command)) :
  forall file, numbered (load_alerts file) ->
               numbered (load_alerts (run_history history file)).
Proof.
  induction history as [|[now cmd] h IH]; intros file H; cbn; [exact H|].
  apply IH. apply main_numbered. exact H.
Qed.

Lemma tool_written_numbered (history : list (string * command)) :
  numbered (load_alerts (run_history history None)).
Proof.
  apply run_history_numbered. reflexivity.
Qed.

(** In a file that only the create and resolve commands wrote, whatever
    their sequence, no two alerts share an id: the k-th alert of the file
    has the id notify-k, padded to three digits. *)
Theorem tool_written_ids_distinct (history : list (string * command)) :
  NoDup (ids (load_alerts (run_history history None)))
  /\ ids (load_alerts (run_history history None))
     = map (fun k => Some (alert_id k))
           (seq 1 (List.length (load_alerts (run_history history None)))).
Proof.
  split; [apply numbered_nodup|]; apply tool_written_numbered.
Qed.

(** In a file that the tool wrote, [resolve_alert] answers whether an alert
    has the id, reading the active alerts raises nothing, and afterwards
    the active alerts are the ones that were active, without the alert of
    that id. *)
Theorem resolve_alert_clears_the_alert
    (history : list (string * command)) (id now : string) :
  fst (resolve_alert id now (run_history history None))
  = existsb (get_is "id" id) (load_alerts (run_history history None))
  /\ exists active,
       get_active_alerts (alerts_of (run_history history None)) = Done active
       /\ get_active_alerts
            (alerts_of (snd (resolve_alert id now (run_history history None))))
          = Done (filter (fun a => negb (has a_id [id] a)) active).
Proof.
  pose proof (numbered_nodup _ (tool_written_numbered history)) as Hnodup.
  set (file := run_history history None) in *. clearbody file.
  unfold resolve_alert.
  pose proof (resolve_first_found id now (load_alerts file)) as Hfound.
  destruct (resolve_first id now (load_alerts file)) as [l'|] eqn:E; cbn [fst snd].
  - split; [exact Hfound|].
    eexists. split; [apply get_active_alerts_store|].
    rewrite get_active_alerts_store. cbn [load_alerts]. f_equal.
    apply (resolve_first_active id now _ _ Hnodup E).
  - split; [exact Hfound|].
    eexists. split; [apply get_active_alerts_store|].
    rewrite get_active_alerts_store. f_equal.
    symmetry. apply filter_id_none. apply resolve_first_absent with (now := now). exact E.
Qed.

Lemma resolve_first_last (id now : string) (alerts : list dict) (d : dict) :
  ~ In (Some id) (ids alerts) ->
  get_is "id" id d = true ->
  resolve_first id now (alerts ++ [d])
  = Some (alerts ++ [dict_set "resolved_at" (VStr now)
                       (dict_set "status" (VStr "resolved") d)])%list.
Proof.
  intros Hno Hd. induction alerts as [|x l IH]; cbn [app resolve_first].
  - rewrite Hd. reflexivity.
  - assert (Hx : get_is "id" id x = false).
    { unfold get_is. unfold ids, get_str in Hno. cbn [map In] in Hno.
      destruct (dict_get "id" x) as [[y|n|l0|]|]; try reflexivity.
      destruct (String.eqb_spec y id) as [->|]; [|reflexivity].
      exfalso. apply Hno. left. reflexivity. }
    rewrite Hx, IH; [reflexivity|].
    intro H. apply Hno. right. exact H.
Qed.

Lemma numbered_fresh (alerts : list dict) :
  numbered alerts -> ~ In (Some (alert_id (List.length alerts + 1))) (ids alerts).
Proof.
  unfold numbered. intros -> Hin.
  apply in_map_iff in Hin as (k & Hk & Hin).
  assert (Hk' : alert_id k = alert_id (List.length alerts + 1)) by congruence.
  apply alert_id_injective in Hk'.
  apply in_seq in Hin. lia.
Qed.

Lemma run_history_app (h1 h2 : list (string * command)) (file : store) :
  run_history (h1 ++ h2) file = run_history h2 (run_history h1 file).
Proof. unfold run_history. apply fold_left_app. Qed.

(** A critical alert that the tool creates blocks the phase transition, and
    resolving it by its id gives back the answer of before: in a file that
    the tool wrote, the new id is the id of no other alert, and the check
    raises nothing. *)
Theorem create_then_resolve_round_trip
    (history : list (string * command)) (created resolved : string)
    (message notification_type : string) (actions : option (list string))
    (agent : string) (to_phase : N) :
  (exists blocked,
     check_phase_transition
       (alerts_of
          (run_history
             (history ++ [(created, Create "critical" message notification_type
                                      actions agent)])
             None))
       to_phase = Done blocked
     /\ as_can_proceed blocked = false)
  /\ snd (main resolved (Resolve (next_id (run_history history None)))
            (run_history
               (history ++ [(created, Create "critical" message notification_type
                                        actions agent)])
               None)) = 0
  /\ (exists before,
        check_phase_transition (alerts_of (run_history history None)) to_phase
        = Done before
        /\ check_phase_transition
             (alerts_of
                (run_history
                   (history ++ [(created, Create "critical" message notification_type
                                            actions agent);
                                (resolved, Resolve (next_id (run_history history None)))])
                   None))
             to_phase
           = Done before).
Proof.
  pose proof (tool_written_numbered history) as Hnum.
  rewrite !run_history_app. unfold next_id.
  set (file := run_history history None) in *. clearbody file.
  set (l := load_alerts file) in *.
  unfold run_history. cbn [fold_left fst snd main]. unfold save_alert. fold l.
  set (rec := create_alert_record file created "critical" message notification_type
                actions agent).
  assert (Hid : get_is "id" (alert_id (List.length l + 1)) rec = true).
  { unfold rec, create_alert_record, get_is. fold l. cbn [dict_get String.eqb Ascii.eqb
      Bool.eqb]. apply String.eqb_refl. }
  assert (Hrec : view rec = mkAlert (Some (VStr (alert_id (List.length l + 1))))
                                    (Some (VStr "critical")) (Some (VStr "active"))).
  { unfold rec, create_alert_record. fold l. reflexivity. }
  pose proof (resolve_first_last _ resolved l rec (numbered_fresh l Hnum) Hid) as Hres.
  split; [|split].
  - unfold check_phase_transition. rewrite get_active_alerts_store. cbn [load_alerts].
    rewrite map_app, !filter_app. cbn [map]. rewrite Hrec. cbn [filter has a_status
      a_severity existsb String.eqb Ascii.eqb Bool.eqb orb].
    eexists. split; [reflexivity|].
    destruct (filter (has a_severity ["critical"])
                (filter (has a_status ["active"]) (map view l))); reflexivity.
  - unfold resolve_alert. cbn [load_alerts]. rewrite Hres. reflexivity.
  - unfold resolve_alert. cbn [load_alerts]. rewrite Hres. cbn [fst].
    unfold check_phase_transition. rewrite !get_active_alerts_store. fold l.
    cbn [load_alerts].
    rewrite map_app, filter_app. cbn [map]. rewrite view_resolved.
    cbn [filter has a_status existsb String.eqb Ascii.eqb Bool.eqb orb].
    rewrite app_nil_r. eexists. split; reflexivity.
Qed.

End AlertStoreProps.

(* ---------------------------------------------------------------------- *)
(** ** More theorems at sample inputs *)
(* ---------------------------------------------------------------------- *)

Module MoreWitnesses.
Import Str Py Json Re Cal GateConfig World GateValidators ValidateGate AlertManager.
Import GateWorkflow Spec Samples.

Lemma no_gate_record (c : collaborators) (skip_signoff skip_alerts skip_audit : bool) :
  record_is_ascii c (mkOptions None skip_signoff skip_alerts skip_audit).
Proof. intros path content H. discriminate H. Qed.



Lemma workflow_records_every_step_witness :
  exists r,
    run_gate_workflow blocked_site (stage5_phase2_output None) 5 2 "output" = Done r
    /\ map step (steps r) = step_names.
Proof.
  exact (WorkflowExtras.workflow_records_every_step
           blocked_site (stage5_phase2_output None) 5 2 "output"
           (no_gate_record blocked_site false false true)).
Defined.

Lemma final_status_is_last_written_witness :
  exists r,
    run_gate_workflow blocked_site (stage5_phase2_output None) 5 2 "output" = Done r
    /\ status r = "PENDING"
    /\ can_proceed r = false.
Proof.
  exact (WorkflowStatus.final_status_is_last_written
           blocked_site (stage5_phase2_output None) 5 2 "output"
           (no_gate_record blocked_site false false true)).
Defined.

Lemma failed_auto_checks_never_block_witness :
  status (step_checklist backend_down_site 5 4 "input" (initial_result 5 4 "input"))
  = "PASS"
  /\ can_proceed (step_checklist backend_down_site 5 4 "input" (initial_result 5 4 "input"))
     = true
  /\ exists s,
       steps (step_checklist backend_down_site 5 4 "input" (initial_result 5 4 "input"))
       = ([] ++ [s])%list
       /\ step s = "checklist_auto_verify" /\ step_status s = "FAIL".
Proof.
  apply (WorkflowStatus.failed_auto_checks_never_block
           backend_down_site 5 4 "input" (initial_result 5 4 "input")
           (mkCheck "P4-01" "Backend is healthy" "FAIL" "Backend not reachable: refused")).
  - vm_compute. auto.
  - reflexivity.
Defined.

Lemma signoff_not_required_for_early_gates_witness :
  step_user_signoff blocked_site (mkOptions None false true true) 1 1 "input"
    (initial_result 1 1 "input")
  = Done (add_step (mkStep "user_signoff" "NOT_REQUIRED"
                      "User sign-off not required for this gate" [])
            (initial_result 1 1 "input"))
  /\ (forall r',
        run_gate_workflow blocked_site (mkOptions None false true true) 1 1 "input"
        = Done r' ->
        String.eqb (status r') "PENDING" = false /\ Nat.eqb (exit_code r') 2 = false)
  /\ Nat.eqb (main_exit_code
                (run_gate_workflow blocked_site (mkOptions None false true true)
                   1 1 "input")) 2 = false.
Proof.
  apply (WorkflowStatus.signoff_not_required_for_early_gates
           blocked_site (mkOptions None false true true) 1 1 "input"
           (initial_result 1 1 "input")); reflexivity.
Defined.



Lemma gate_date_in_future_is_flagged_witness :
  In (future_date_msg "2099-01-01")
     (errors (check_timestamp_consistency bare_world future_record "gate.md" new_result)).
Proof.
  refine (proj1 (TimestampExtras.gate_date_in_future_is_flagged
                   bare_world future_record "gate.md" "2099-01-01"
                   (midnight (mkDate 2099 1 1)) new_result _ _) _).
  - vm_compute. reflexivity.
  - vm_compute. reflexivity.
  - vm_compute. reflexivity.
Defined.

End MoreWitnesses.

Module RunWitnesses.
Import Str Py Json Re Cal GateConfig World GateValidators ValidateGate AlertManager.
Import GateWorkflow Spec Samples.

Lemma rejected_record_is_ascii : is_ascii rejected_record = true.
Proof. vm_compute. reflexivity. Qed.


Lemma record_without_section_fails_run_witness :
  (exists r,
     run_gate_workflow (quiet_site (world_with "gate.md" rejected_record) SignoffAbsent)
       (mkOptions (Some "gate.md") true true true) 5 2 "output" = Done r
     /\ can_proceed r = false
     /\ In (exit_code r) [1; 2])
  /\ In (main_exit_code
           (run_gate_workflow
              (quiet_site (world_with "gate.md" rejected_record) SignoffAbsent)
              (mkOptions (Some "gate.md") true true true) 5 2 "output")) [1; 2].
Proof.
  apply (EndToEnd.record_without_section_fails_run
           (quiet_site (world_with "gate.md" rejected_record) SignoffAbsent)
           (mkOptions (Some "gate.md") true true true) 5 2 "output"
           "g" "ate.md" rejected_record "Section 1: Agent Invocation Evidence").
  - reflexivity.
  - reflexivity.
  - vm_compute. reflexivity.
  - exact rejected_record_is_ascii.
  - left. reflexivity.
  - vm_compute. reflexivity.
Defined.

Lemma verified_run :
  exists r,
    run_gate_workflow (quiet_site bare_world verified_signoff)
      (mkOptions None false true true) 5 2 "output" = Done r
    /\ can_proceed r = true.
Proof. eexists. split; [vm_compute; reflexivity | reflexivity]. Qed.

Lemma pass_needs_verified_signoff_witness :
  exists verified_at token expires_at,
    signoff (quiet_site bare_world verified_signoff) 5 2 "output"
    = SignoffRecord (Some "VERIFIED") verified_at token expires_at.
Proof.
  refine (EndToEnd.pass_needs_verified_signoff
            (quiet_site bare_world verified_signoff)
            (mkOptions None false true true) 5 2 "output" _ _ _ _ _).
  - reflexivity.
  - reflexivity.
  - vm_compute. reflexivity.
  - reflexivity.
Defined.

Lemma active_critical_alert_blocks_run_witness :
  Nat.eqb (main_exit_code
             (run_gate_workflow blocked_site (mkOptions None true false true)
                5 2 "output")) 0 = false.
Proof.
  refine (proj2 (proj2 (EndToEnd.active_critical_alert_blocks_run
                          blocked_site (mkOptions None true false true) 5 2 "output"
                          critical_alert _ _ _ _ _))).
  - apply MoreWitnesses.no_gate_record.
  - reflexivity.
  - reflexivity.
  - left. reflexivity.
  - reflexivity.
Defined.

Lemma pending_signoff_names_the_command_witness :
  exists r act,
    run_gate_workflow blocked_site (mkOptions None false true true) 5 2 "output" = Done r
    /\ In act (actions_required r)
    /\ action_name act = "request_signoff"
    /\ command act = Some (request_command 5 2 "output").
Proof.
  refine (EndToEnd.pending_signoff_names_the_command
            blocked_site (mkOptions None false true true) 5 2 "output" _ _ _ _ _).
  - apply MoreWitnesses.no_gate_record.
  - reflexivity.
  - reflexivity.
  - reflexivity.
  - intros verified_at token expires_at H. discriminate H.
Defined.


End RunWitnesses.
